(** * Forum API and forum page of air-quality-prediction

    A shallow embedding of the four route files of the forum API
    ([posts/route.ts], [posts/[id]/route.ts], [posts/[id]/comments/route.ts],
    [comments/[id]/route.ts]) and of the handlers of the forum page,
    followed by the properties of the specification that they decide and by
    further properties of the handlers, of sessions of calls and of the page
    run against the API.

    The relational store is a record of three tables (lists of rows, in
    insertion order) and two id sequences.  A route handler is a computation
    in a state-and-exception monad over the store and the journal of the
    statements sent to it; [try ... catch] is the monad's handler. *)

From Stdlib Require Import ZArith List String Bool Lia.
From Stdlib Require Import Permutation Sorted DecimalString.
Import ListNotations.
Open Scope string_scope.
Open Scope Z_scope.

(** ** JavaScript values read from a request body *)

Module Js.

(** A field of the parsed body: absent ([JUndefined]) or a JSON scalar.
    Numbers are the integral ones. *)
Inductive JsVal : Type :=
| JUndefined
| JNull
| JBool (b : bool)
| JNum (n : Z)
| JStr (s : string).

(** ToBoolean, as used by [!x]. *)
Definition truthy (v : JsVal) : bool :=
  match v with
  | JUndefined | JNull => false
  | JBool b => b
  | JNum n => negb (n =? 0)%Z
  | JStr s => negb (s =? "")%string
  end.

(** The text the database driver sends for a query parameter; [None] is
    SQL NULL. *)
Definition text_param (v : JsVal) : option string :=
  match v with
  | JUndefined | JNull => None
  | JBool true => Some "true"
  | JBool false => Some "false"
  | JNum n => Some (NilZero.string_of_int (Z.to_int n))
  | JStr s => Some s
  end.

End Js.
Import Js.

(** ** The relational store *)

Module Store.

Record UserRow : Type := mkUser
  { u_id : Z; u_name : string; u_role : string }.

Record PostRow : Type := mkPost
  { p_id : Z;
    p_user_id : Z;
    p_title : string;
    p_content : string;
    p_created_at : Z;
    p_updated_at : option Z }.

Record CommentRow : Type := mkComment
  { c_id : Z;
    c_post_id : Z;
    c_user_id : Z;
    c_content : string;
    c_created_at : Z;
    c_updated_at : option Z }.

(** Modelled from the spec: the schema is not part of the sources.  Section 2
    gives the tables [users], [forum_posts], [comments] and the foreign keys
    [forum_posts.user_id -> users.id], [comments.post_id -> forum_posts.id],
    [comments.user_id -> users.id]; ids are generated by the store, here by
    one sequence per table; the text columns take no [NULL] (section 3:
    title and content are non-empty). *)
Record Db : Type := mkDb
  { users : list UserRow;
    forum_posts : list PostRow;
    comments : list CommentRow;
    forum_posts_id_seq : Z;
    comments_id_seq : Z }.

Definition has_user (d : Db) (uid : Z) : bool :=
  existsb (fun u => u_id u =? uid) (users d).

Definition has_post (d : Db) (pid : Z) : bool :=
  existsb (fun p => p_id p =? pid) (forum_posts d).

(** Primary keys are unique and every post has its author: the part of the
    schema's constraints that the list query depends on. *)
Definition wf_db (d : Db) : Prop :=
  NoDup (map u_id (users d)) /\
  NoDup (map p_id (forum_posts d)) /\
  (forall p, In p (forum_posts d) -> has_user d (p_user_id p) = true).

(** The statements the route handlers send, one constructor per SQL text,
    with the parameters as passed. *)
Inductive Stmt : Type :=
| SelectPostOwner (id : Z)
| UpdatePost (title content : JsVal) (now : Z) (id : Z)
| DeleteCommentsOfPost (id : Z)
| DeletePost (id : Z)
| InsertComment (post_id user_id : Z) (content : JsVal) (now : Z)
| SelectCommentOwner (id : Z)
| UpdateComment (content : JsVal) (now : Z) (id : Z)
| DeleteComment (id : Z)
| SelectPostsWithComments
| InsertPost (user_id : Z) (title content : JsVal) (now : Z).

Definition is_mutation (q : Stmt) : bool :=
  match q with
  | SelectPostOwner _ | SelectCommentOwner _ | SelectPostsWithComments => false
  | _ => true
  end.

(** What the handlers run against: the database and the journal of the
    statements sent so far, oldest first. *)
Record World : Type := mkWorld { db : Db; journal : list Stmt }.

End Store.
Import Store.

(** ** The handler monad: state over [World], with exceptions *)

Module Handler.

Inductive Outcome (A : Type) : Type :=
| Ok (a : A)
| Thrown (e : string).
Arguments Ok {A} a.
Arguments Thrown {A} e.

Definition M (A : Type) : Type := World -> Outcome A * World.

Definition ret {A} (a : A) : M A := fun w => (Ok a, w).

Definition throw {A} (e : string) : M A := fun w => (Thrown e, w).

Definition bind {A B} (m : M A) (k : A -> M B) : M B :=
  fun w =>
    match m w with
    | (Ok a, w') => k a w'
    | (Thrown e, w') => (Thrown e, w')
    end.

(** [try { m } catch (error) { return h }]: what the store did before the
    exception stays done. *)
Definition try_catch {A} (m : M A) (h : A) : World -> A * World :=
  fun w =>
    match m w with
    | (Ok a, w') => (a, w')
    | (Thrown _, w') => (h, w')
    end.

(** [pool.query]: journal the statement, then run it on the database. *)
Definition query {A} (q : Stmt) (run : Db -> Outcome A * Db) : M A :=
  fun w =>
    let (r, d') := run (db w) in
    (r, mkWorld d' (journal w ++ [q])).

End Handler.
Import Handler.

Declare Scope handler_scope.
Delimit Scope handler_scope with handler.
Notation "x <- m ;; k" := (bind m (fun x => k))
  (at level 61, m at next level, right associativity) : handler_scope.
Notation "m ;;; k" := (bind m (fun _ => k))
  (at level 61, right associativity) : handler_scope.

(** ** The SQL statements of the handlers *)

Module Sql.

Definition with_forum_posts (d : Db) (ps : list PostRow) : Db :=
  mkDb (users d) ps (comments d) (forum_posts_id_seq d) (comments_id_seq d).

Definition with_comments (d : Db) (cs : list CommentRow) : Db :=
  mkDb (users d) (forum_posts d) cs (forum_posts_id_seq d) (comments_id_seq d).

(** Modelled from the spec: ids are "generated" by the store (section 8);
    the schema's sequences are not part of the sources.  [nextval] consumes
    the value whether or not the statement that asked for it succeeds. *)
Definition next_post_id (d : Db) : Db :=
  mkDb (users d) (forum_posts d) (comments d)
       (forum_posts_id_seq d + 1) (comments_id_seq d).

Definition next_comment_id (d : Db) : Db :=
  mkDb (users d) (forum_posts d) (comments d)
       (forum_posts_id_seq d) (comments_id_seq d + 1).

Definition not_null : string := "null value violates not-null constraint".
Definition foreign_key : string := "violates foreign key constraint".
Definition unique_key : string := "duplicate key value violates unique constraint".

(** Modelled from the spec: the table declarations are not part of the
    sources.  A new [forum_posts] row needs a fresh key and, by the foreign
    key [forum_posts.user_id -> users.id] of section 2, an existing user. *)
Definition post_row_violation (d : Db) (id user_id : Z) : option string :=
  if has_post d id then Some unique_key
  else if negb (has_user d user_id) then Some foreign_key
  else None.

(** Modelled from the spec: the table declarations are not part of the
    sources.  A new [comments] row needs a fresh key and, by the foreign
    keys [comments.post_id -> forum_posts.id] and
    [comments.user_id -> users.id] of section 2, an existing post and an
    existing user. *)
Definition comment_row_violation (d : Db) (id post_id user_id : Z)
  : option string :=
  if existsb (fun r => c_id r =? id) (comments d) then Some unique_key
  else if negb (has_post d post_id) || negb (has_user d user_id)
  then Some foreign_key
  else None.

(** Modelled from the spec: the table declarations are not part of the
    sources.  By [comments.post_id -> forum_posts.id], a post that a comment
    still references cannot be removed. *)
Definition post_removal_violation (d : Db) (id : Z) : option string :=
  if has_post d id && existsb (fun r => c_post_id r =? id) (comments d)
  then Some foreign_key
  else None.

(** Rows as the [RETURNING] clauses shape them. *)
Record PostInserted : Type := mkPostInserted
  { pi_id : Z; pi_title : string; pi_content : string; pi_created_at : Z }.

Record PostUpdated : Type := mkPostUpdated
  { pu_id : Z; pu_title : string; pu_content : string; pu_created_at : Z;
    pu_updated_at : option Z }.

Record CommentInserted : Type := mkCommentInserted
  { ci_id : Z; ci_content : string; ci_created_at : Z }.

Record CommentUpdated : Type := mkCommentUpdated
  { cu_id : Z; cu_content : string; cu_created_at : Z;
    cu_updated_at : option Z }.

(** [SELECT user_id FROM forum_posts WHERE id = $1] *)
Definition select_post_owner (id : Z) (d : Db) : Outcome (list Z) * Db :=
  (Ok (map p_user_id (filter (fun p => p_id p =? id) (forum_posts d))), d).

(** [SELECT user_id FROM comments WHERE id = $1] *)
Definition select_comment_owner (id : Z) (d : Db) : Outcome (list Z) * Db :=
  (Ok (map c_user_id (filter (fun c => c_id c =? id) (comments d))), d).

Definition set_post (t c : string) (now id : Z) (p : PostRow) : PostRow :=
  if p_id p =? id
  then mkPost (p_id p) (p_user_id p) t c (p_created_at p) (Some now)
  else p.

Definition post_updated (p : PostRow) : PostUpdated :=
  mkPostUpdated (p_id p) (p_title p) (p_content p) (p_created_at p)
                (p_updated_at p).

(** [UPDATE forum_posts SET title = $1, content = $2, updated_at = $3
     WHERE id = $4 RETURNING id, title, content, created_at, updated_at] *)
Definition update_post (title content : JsVal) (now id : Z) (d : Db)
  : Outcome (list PostUpdated) * Db :=
  match text_param title, text_param content with
  | Some t, Some c =>
      let ps := map (set_post t c now id) (forum_posts d) in
      (Ok (map post_updated (filter (fun p => p_id p =? id) ps)),
       with_forum_posts d ps)
  | _, _ =>
      if has_post d id then (Thrown not_null, d) else (Ok [], d)
  end.

Definition set_comment (c : string) (now id : Z) (r : CommentRow)
  : CommentRow :=
  if c_id r =? id
  then mkComment (c_id r) (c_post_id r) (c_user_id r) c (c_created_at r)
                 (Some now)
  else r.

Definition comment_updated (r : CommentRow) : CommentUpdated :=
  mkCommentUpdated (c_id r) (c_content r) (c_created_at r) (c_updated_at r).

(** [UPDATE comments SET content = $1, updated_at = $2 WHERE id = $3
     RETURNING id, content, created_at, updated_at] *)
Definition update_comment (content : JsVal) (now id : Z) (d : Db)
  : Outcome (list CommentUpdated) * Db :=
  match text_param content with
  | Some c =>
      let cs := map (set_comment c now id) (comments d) in
      (Ok (map comment_updated (filter (fun r => c_id r =? id) cs)),
       with_comments d cs)
  | None =>
      if existsb (fun r => c_id r =? id) (comments d)
      then (Thrown not_null, d) else (Ok [], d)
  end.

(** [DELETE FROM comments WHERE post_id = $1] *)
Definition delete_comments_of_post (id : Z) (d : Db) : Outcome unit * Db :=
  (Ok tt,
   with_comments d (filter (fun r => negb (c_post_id r =? id)) (comments d))).

(** [DELETE FROM forum_posts WHERE id = $1] *)
Definition delete_post (id : Z) (d : Db) : Outcome unit * Db :=
  match post_removal_violation d id with
  | Some e => (Thrown e, d)
  | None =>
      (Ok tt,
       with_forum_posts d
         (filter (fun p => negb (p_id p =? id)) (forum_posts d)))
  end.

(** [DELETE FROM comments WHERE id = $1] *)
Definition delete_comment (id : Z) (d : Db) : Outcome unit * Db :=
  (Ok tt,
   with_comments d (filter (fun r => negb (c_id r =? id)) (comments d))).

(** [INSERT INTO forum_posts (user_id, title, content, created_at)
     VALUES ($1, $2, $3, $4) RETURNING id, title, content, created_at] *)
Definition insert_post (user_id : Z) (title content : JsVal) (now : Z)
    (d : Db) : Outcome (list PostInserted) * Db :=
  let id := forum_posts_id_seq d in
  let d1 := next_post_id d in
  match text_param title, text_param content with
  | Some t, Some c =>
      match post_row_violation d id user_id with
      | Some e => (Thrown e, d1)
      | None =>
          (Ok [mkPostInserted id t c now],
           with_forum_posts d1
             (forum_posts d ++ [mkPost id user_id t c now None]))
      end
  | _, _ => (Thrown not_null, d1)
  end.

(** [INSERT INTO comments (post_id, user_id, content, created_at)
     VALUES ($1, $2, $3, $4) RETURNING id, content, created_at] *)
Definition insert_comment (post_id user_id : Z) (content : JsVal) (now : Z)
    (d : Db) : Outcome (list CommentInserted) * Db :=
  let id := comments_id_seq d in
  let d1 := next_comment_id d in
  match text_param content with
  | Some c =>
      match comment_row_violation d id post_id user_id with
      | Some e => (Thrown e, d1)
      | None =>
          (Ok [mkCommentInserted id c now],
           with_comments d1
             (comments d ++ [mkComment id post_id user_id c now None]))
      end
  | None => (Thrown not_null, d1)
  end.

End Sql.
Import Sql.

(** ** The list query of [GET /forum/posts] *)

Module ListQuery.

(** [json_build_object('id', u.id, 'name', u.name)]; both are [null] when the
    row comes from the empty side of a left join. *)
Record AuthorJson : Type := mkAuthor
  { a_id : option Z; a_name : option string }.

Record CommentJson : Type := mkCommentJson
  { cj_id : Z;
    cj_content : string;
    cj_created_at : Z;
    cj_user_id : Z;
    cj_author : AuthorJson }.

Record PostJson : Type := mkPostJson
  { pj_id : Z;
    pj_title : string;
    pj_content : string;
    pj_created_at : Z;
    pj_user_id : Z;
    pj_author : AuthorJson;
    pj_comments : list CommentJson }.

(** A row of [forum_posts p JOIN users u LEFT JOIN comments c LEFT JOIN
    users cu]. *)
Record Joined : Type := mkJoined
  { jp : PostRow; ju : UserRow; jc : option CommentRow; jcu : option UserRow }.

(** The right-hand side of a left join for one left row: the matching rows,
    or one all-null row when there is none. *)
Definition left_matches {B} (on : B -> bool) (r : list B) : list (option B) :=
  match filter on r with
  | [] => [None]
  | m => map Some m
  end.

Definition on_comment_user (oc : option CommentRow) (cu : UserRow) : bool :=
  match oc with
  | Some c => u_id cu =? c_user_id c
  | None => false
  end.

Definition from_clause (d : Db) : list Joined :=
  flat_map (fun p =>
    flat_map (fun u =>
      flat_map (fun oc =>
        map (fun ocu => mkJoined p u oc ocu)
            (left_matches (on_comment_user oc) (users d)))
        (left_matches (fun c => c_post_id c =? p_id p) (comments d)))
      (filter (fun u => u_id u =? p_user_id p) (users d)))
    (forum_posts d).

(** [GROUP BY p.id, u.id, u.name] *)
Definition GroupKey : Type := (Z * Z * string)%type.

Definition group_key (j : Joined) : GroupKey :=
  (p_id (jp j), u_id (ju j), u_name (ju j)).

Definition key_eqb (k1 k2 : GroupKey) : bool :=
  let '(a1, b1, c1) := k1 in
  let '(a2, b2, c2) := k2 in
  (a1 =? a2) && (b1 =? b2) && (c1 =? c2)%string.

Definition add_to_groups (j : Joined) (gs : list (GroupKey * list Joined))
  : list (GroupKey * list Joined) :=
  if existsb (fun g => key_eqb (group_key j) (fst g)) gs
  then map (fun g => if key_eqb (group_key j) (fst g)
                     then (fst g, j :: snd g) else g) gs
  else (group_key j, [j]) :: gs.

Fixpoint group_by (l : list Joined) : list (GroupKey * list Joined) :=
  match l with
  | [] => []
  | j :: l' => add_to_groups j (group_by l')
  end.

(** [json_agg] is [NULL] over no rows. *)
Definition json_agg {A} (l : list A) : option (list A) :=
  match l with
  | [] => None
  | _ => Some l
  end.

Definition COALESCE {A} (v : option A) (dflt : A) : A :=
  match v with
  | Some x => x
  | None => dflt
  end.

Definition author_json (ou : option UserRow) : AuthorJson :=
  match ou with
  | Some u => mkAuthor (Some (u_id u)) (Some (u_name u))
  | None => mkAuthor None None
  end.

(** The aggregated expression over the rows that pass
    [FILTER (WHERE c.id IS NOT NULL)].  [json_agg] has no [ORDER BY]: the
    objects come in the order of the group's rows, one of the orders the
    store may answer with. *)
Definition comment_objects (rows : list Joined) : list CommentJson :=
  flat_map (fun j =>
    match jc j with
    | Some c => [mkCommentJson (c_id c) (c_content c) (c_created_at c)
                               (c_user_id c) (author_json (jcu j))]
    | None => []
    end) rows.

(** The select list, once per group; the columns of [p] and [u] are those
    of the group's rows. *)
Definition select_group (g : GroupKey * list Joined) : list PostJson :=
  match snd g with
  | [] => []
  | j :: _ =>
      [mkPostJson (p_id (jp j)) (p_title (jp j)) (p_content (jp j))
                  (p_created_at (jp j)) (p_user_id (jp j))
                  (author_json (Some (ju j)))
                  (COALESCE (json_agg (comment_objects (snd g))) [])]
  end.

(** [ORDER BY p.created_at DESC].  The query leaves the order among rows
    with equal [created_at] open; it is run here as a stable insertion sort,
    one of the orders the store may answer with. *)
Fixpoint insert_desc (r : PostJson) (l : list PostJson) : list PostJson :=
  match l with
  | [] => [r]
  | x :: l' =>
      if pj_created_at x <=? pj_created_at r then r :: l
      else x :: insert_desc r l'
  end.

Fixpoint order_by_created_at_desc (l : list PostJson) : list PostJson :=
  match l with
  | [] => []
  | r :: l' => insert_desc r (order_by_created_at_desc l')
  end.

Definition select_posts_with_comments (d : Db)
  : Outcome (list PostJson) * Db :=
  (Ok (order_by_created_at_desc
         (flat_map select_group (group_by (from_clause d)))), d).

End ListQuery.
Import ListQuery.

(** ** Requests and responses *)

Module Http.

(** The authenticated actor, [{id, role}]. *)
Record User : Type := mkActor { usr_id : Z; usr_role : string }.

(** The object [request.json()] resolves to, read at [title] and
    [content]. *)
Record Body : Type := mkBody { b_title : JsVal; b_content : JsVal }.

(** What a request carries as its body: nothing that parses as JSON (no
    body at all, or text that is not JSON), the JSON value [null], or any
    other JSON value, read at [title] and [content] (a number, a string or
    an array has neither field). *)
Inductive Payload : Type :=
| NotJson
| JsonNull
| JsonValue (fields : Body).

(** A request: who sent it, its body, and the instant [new Date()] yields
    while it is served. *)
Record Request : Type := mkRequest
  { session : option User; payload : Payload; date : Z }.

(** [await request.json()]: the promise rejects when the body is absent or
    is not JSON. *)
Definition request_json (request : Request) : M Payload :=
  match payload request with
  | NotJson => throw "Unexpected end of JSON input"
  | parsed => ret parsed
  end.

(** [const { title, content } = body]: a [TypeError] when [body] is
    [null]. *)
Definition destructure (body : Payload) : M Body :=
  match body with
  | JsonValue fields => ret fields
  | _ => throw "Cannot destructure property of null"
  end.

(** The route's [context.params]: the [id] segment of the path, which the
    handlers pass to the store as it is.  The segment is taken to be the
    numeral of an integer that the key columns can hold, as in every request
    the page sends; [params_id] is the integer the store compares with its
    keys. *)
Record Context : Type := mkContext { params_id : Z }.

Inductive Json : Type :=
| JError (error : string)
| JSuccess (success : bool)
| JPostInserted (row : PostInserted)
| JPostUpdated (row : PostUpdated)
| JCommentInserted (row : CommentInserted)
| JCommentUpdated (row : CommentUpdated)
| JPosts (rows : list PostJson).

Record Response : Type := mkResponse { body : Json; status : Z }.

(** [NextResponse.json(body, init)]; the status is 200 without [init]. *)
Definition NextResponse_json (b : Json) (init : option Z) : Response :=
  mkResponse b (match init with Some s => s | None => 200 end).

(** [NextResponse.json(result.rows[0], init)]: [rows[0]] of an empty result
    is [undefined], which is not serializable. *)
Definition NextResponse_json_row {A} (wrap : A -> Json) (rows : list A)
    (init : option Z) : M Response :=
  match rows with
  | r :: _ => ret (NextResponse_json (wrap r) init)
  | [] => throw "Value is not JSON serializable"
  end.

(** Modelled from the spec: [requireAuth] of [lib/auth] is not part of the
    sources.  Section 2: the authenticator "resolves a request's
    session/token to [{id, role}] or rejects as unauthenticated"; the
    rejection is taken to be a 401 that reaches neither handler nor store. *)
Definition requireAuth
    (handler : Request -> User -> Context -> World -> Response * World)
  : Request -> Context -> World -> Response * World :=
  fun request context w =>
    match session request with
    | Some user => handler request user context w
    | None => (NextResponse_json (JError "Unauthorized") (Some 401), w)
    end.

(** [ownerId !== user.id && user.role !== 'admin'] *)
Definition forbidden (ownerId : Z) (user : User) : bool :=
  negb (ownerId =? usr_id user) && negb (usr_role user =? "admin")%string.

End Http.
Import Http.

Local Open Scope handler_scope.

(** ** [app/api/forum/posts/[id]/route.ts] *)

Module PostsId.

Definition PUT_handler (request : Request) (user : User) (context : Context)
  : World -> Response * World :=
  try_catch
    (let id := params_id context in
     body <- request_json request ;;
     fields <- destructure body ;;
     let title := b_title fields in
     let content := b_content fields in
     if negb (truthy title) || negb (truthy content) then
       ret (NextResponse_json (JError "Missing title or content") (Some 400))
     else
       ownerRes <- query (SelectPostOwner id) (select_post_owner id) ;;
       match ownerRes with
       | [] => ret (NextResponse_json (JError "Post not found") (Some 404))
       | ownerId :: _ =>
           if forbidden ownerId user then
             ret (NextResponse_json (JError "Forbidden") (Some 403))
           else
             result <- query (UpdatePost title content (date request) id)
                             (update_post title content (date request) id) ;;
             NextResponse_json_row JPostUpdated result None
       end)
    (NextResponse_json (JError "Failed to update post") (Some 500)).

Definition PUT := requireAuth PUT_handler.

Definition DELETE_handler (request : Request) (user : User)
    (context : Context) : World -> Response * World :=
  try_catch
    (let id := params_id context in
     ownerRes <- query (SelectPostOwner id) (select_post_owner id) ;;
     match ownerRes with
     | [] => ret (NextResponse_json (JError "Post not found") (Some 404))
     | ownerId :: _ =>
         if forbidden ownerId user then
           ret (NextResponse_json (JError "Forbidden") (Some 403))
         else
           query (DeleteCommentsOfPost id) (delete_comments_of_post id) ;;;
           query (DeletePost id) (delete_post id) ;;;
           ret (NextResponse_json (JSuccess true) None)
     end)
    (NextResponse_json (JError "Failed to delete post") (Some 500)).

Definition DELETE := requireAuth DELETE_handler.

End PostsId.

(** ** [app/api/forum/posts/[id]/comments/route.ts] *)

Module PostsIdComments.

Definition POST_handler (request : Request) (user : User) (context : Context)
  : World -> Response * World :=
  try_catch
    (let id := params_id context in
     body <- request_json request ;;
     fields <- destructure body ;;
     let content := b_content fields in
     if negb (truthy content) then
       ret (NextResponse_json (JError "Missing content") (Some 400))
     else
       let now := date request in
       result <- query (InsertComment id (usr_id user) content now)
                       (insert_comment id (usr_id user) content now) ;;
       NextResponse_json_row JCommentInserted result (Some 201))
    (NextResponse_json (JError "Failed to create comment") (Some 500)).

Definition POST := requireAuth POST_handler.

End PostsIdComments.

(** ** The comment route: [PUT] and [DELETE] on [/forum/comments/{id}] *)

Module CommentsId.

Definition PUT_handler (request : Request) (user : User) (context : Context)
  : World -> Response * World :=
  try_catch
    (let id := params_id context in
     body <- request_json request ;;
     fields <- destructure body ;;
     let content := b_content fields in
     if negb (truthy content) then
       ret (NextResponse_json (JError "Missing content") (Some 400))
     else
       ownerRes <- query (SelectCommentOwner id) (select_comment_owner id) ;;
       match ownerRes with
       | [] => ret (NextResponse_json (JError "Comment not found") (Some 404))
       | ownerId :: _ =>
           if forbidden ownerId user then
             ret (NextResponse_json (JError "Forbidden") (Some 403))
           else
             result <- query (UpdateComment content (date request) id)
                             (update_comment content (date request) id) ;;
             NextResponse_json_row JCommentUpdated result None
       end)
    (NextResponse_json (JError "Failed to update comment") (Some 500)).

Definition PUT := requireAuth PUT_handler.

Definition DELETE_handler (request : Request) (user : User)
    (context : Context) : World -> Response * World :=
  try_catch
    (let id := params_id context in
     ownerRes <- query (SelectCommentOwner id) (select_comment_owner id) ;;
     match ownerRes with
     | [] => ret (NextResponse_json (JError "Comment not found") (Some 404))
     | ownerId :: _ =>
         if forbidden ownerId user then
           ret (NextResponse_json (JError "Forbidden") (Some 403))
         else
           query (DeleteComment id) (delete_comment id) ;;;
           ret (NextResponse_json (JSuccess true) None)
     end)
    (NextResponse_json (JError "Failed to delete comment") (Some 500)).

Definition DELETE := requireAuth DELETE_handler.

End CommentsId.

(** ** The post collection route: [GET] and [POST] on [/forum/posts] *)

Module Posts.

(** [GET] is exported bare: it takes neither request nor actor. *)
Definition GET : World -> Response * World :=
  try_catch
    (result <- query SelectPostsWithComments select_posts_with_comments ;;
     ret (NextResponse_json (JPosts result) None))
    (NextResponse_json (JError "Failed to fetch posts") (Some 500)).

Definition POST_handler (request : Request) (user : User) (context : Context)
  : World -> Response * World :=
  try_catch
    (body <- request_json request ;;
     fields <- destructure body ;;
     let title := b_title fields in
     let content := b_content fields in
     if negb (truthy title) || negb (truthy content) then
       ret (NextResponse_json (JError "Missing title or content") (Some 400))
     else
       let now := date request in
       result <- query (InsertPost (usr_id user) title content now)
                       (insert_post (usr_id user) title content now) ;;
       NextResponse_json_row JPostInserted result (Some 201))
    (NextResponse_json (JError "Failed to create post") (Some 500)).

Definition POST := requireAuth POST_handler.

End Posts.

(** ** The forum page: client state and its handlers *)

Module ForumPage.

(** [number | string] *)
Inductive Id : Type :=
| IdNum (n : Z)
| IdStr (s : string).

(** [===] on ids: a number never equals a string. *)
Definition strict_eq (a b : Id) : bool :=
  match a, b with
  | IdNum x, IdNum y => x =? y
  | IdStr x, IdStr y => (x =? y)%string
  | _, _ => false
  end.

Record Author : Type := mkViewAuthor
  { au_id : option Z; au_name : string }.

Record ForumComment : Type := mkForumComment
  { fc_id : Id;
    fc_content : string;
    fc_created_at : string;
    fc_author : option Author;
    fc_user_id : option Z }.

Record ForumPost : Type := mkForumPost
  { fp_id : Id;
    fp_title : string;
    fp_content : string;
    fp_created_at : string;
    fp_author : option Author;
    fp_comments : list ForumComment;
    fp_user_id : option Z }.

Record CurrentUser : Type := mkCurrentUser { cur_id : Z; cur_role : string }.

Record PostDraft : Type := mkPostDraft
  { ep_id : Id; ep_title : string; ep_content : string }.

Record CommentDraft : Type := mkCommentDraft
  { ec_id : Id; ec_content : string }.

(** The [useState] cells of [ForumPage]. *)
Record State : Type := mkState
  { posts : list ForumPost;
    showNewPostForm : bool;
    newPost : string * string;
    commentInputs : list (string * string);
    loading : bool;
    currentUser : option CurrentUser;
    editingPost : option PostDraft;
    editingComment : option CommentDraft }.

(** The [fetch] calls a handler makes. *)
Inductive Fetch : Type :=
| FetchPosts
| FetchDeletePost (postId : Id).

(** A handler run: the next state and the requests it sent, in order. *)
Definition Run : Type := (State * list Fetch)%type.

Definition setPosts (ps : list ForumPost) (st : State) : State :=
  mkState ps (showNewPostForm st) (newPost st) (commentInputs st)
          (loading st) (currentUser st) (editingPost st) (editingComment st).

Definition setLoading (b : bool) (st : State) : State :=
  mkState (posts st) (showNewPostForm st) (newPost st) (commentInputs st)
          b (currentUser st) (editingPost st) (editingComment st).

Definition setEditingPost (e : option PostDraft) (st : State) : State :=
  mkState (posts st) (showNewPostForm st) (newPost st) (commentInputs st)
          (loading st) (currentUser st) e (editingComment st).

Definition setEditingComment (e : option CommentDraft) (st : State) : State :=
  mkState (posts st) (showNewPostForm st) (newPost st) (commentInputs st)
          (loading st) (currentUser st) (editingPost st) e.

(** [{ ...post }] *)
Definition spread (post : ForumPost) : ForumPost :=
  mkForumPost (fp_id post) (fp_title post) (fp_content post)
              (fp_created_at post) (fp_author post) (fp_comments post)
              (fp_user_id post).

Definition canEditPost (st : State) (post : ForumPost) : bool :=
  match currentUser st with
  | None => false
  | Some u =>
      match fp_user_id post with
      | Some uid => (cur_id u =? uid) || (cur_role u =? "admin")%string
      | None => (cur_role u =? "admin")%string
      end
  end.

Definition canEditComment (st : State) (comment : ForumComment) : bool :=
  match currentUser st with
  | None => false
  | Some u =>
      match fc_author comment with
      | Some (mkViewAuthor (Some aid) _) =>
          (cur_id u =? aid) || (cur_role u =? "admin")%string
      | _ => (cur_role u =? "admin")%string
      end
  end.

(** [{ ...c, created_at: c.created_at }] *)
Definition spread_comment (c : ForumComment) : ForumComment :=
  mkForumComment (fc_id c) (fc_content c) (fc_created_at c) (fc_author c)
                 (fc_user_id c).

(** [fetchPosts]; [reply] is the post list of an OK response, [None] when
    the request fails. *)
Definition fetchPosts (reply : option (list ForumPost)) (st : State) : Run :=
  let st1 := setLoading true st in
  let mapped data :=
    map (fun p => mkForumPost (fp_id p) (fp_title p) (fp_content p)
                              (fp_created_at p) (fp_author p)
                              (map spread_comment (fp_comments p))
                              (fp_user_id p)) data in
  let st2 := match reply with
             | Some data => setPosts (mapped data) st1
             | None => st1
             end in
  (setLoading false st2, [FetchPosts]).

Definition handleLikePost (postId : Id) (st : State) : Run :=
  (setPosts (map (fun post => if strict_eq (fp_id post) postId
                              then spread post else post) (posts st)) st,
   []).

Definition handleEditPost (postId : Id) (st : State) : Run :=
  match find (fun p => strict_eq (fp_id p) postId) (posts st) with
  | None => (st, [])
  | Some post =>
      (setEditingPost
         (Some (mkPostDraft postId (fp_title post) (fp_content post))) st,
       [])
  end.

Definition handleEditComment (commentId : Id) (currentContent : string)
    (st : State) : Run :=
  (setEditingComment (Some (mkCommentDraft commentId currentContent)) st, []).

(** [handleDeletePost]; [confirmed] is the answer to the dialog, [ok] whether
    the server accepted, [reply] the answer to the re-fetch. *)
Definition handleDeletePost (postId : Id) (confirmed ok : bool)
    (reply : option (list ForumPost)) (st : State) : Run :=
  if negb confirmed then (st, [])
  else if negb ok then (st, [FetchDeletePost postId])
  else
    let (st', sent) := fetchPosts reply st in
    (st', FetchDeletePost postId :: sent).

End ForumPage.

(** ** The forum page: the handlers that call the API *)

Module ForumPageCalls.

Import ForumPage.

(** [String(postId)]: the key of a post in [commentInputs]. *)
Definition String_of (i : Id) : string :=
  match i with
  | IdNum n => NilZero.string_of_int (Z.to_int n)
  | IdStr s => s
  end.

(** [commentInputs[key]] *)
Fixpoint input_of (key : string) (inputs : list (string * string))
  : option string :=
  match inputs with
  | [] => None
  | (k, v) :: inputs' =>
      if (k =? key)%string then Some v else input_of key inputs'
  end.

(** [{ ...commentInputs, [key]: value }] *)
Fixpoint with_input (key value : string) (inputs : list (string * string))
  : list (string * string) :=
  match inputs with
  | [] => [(key, value)]
  | (k, v) :: inputs' =>
      if (k =? key)%string then (k, value) :: inputs'
      else (k, v) :: with_input key value inputs'
  end.

(** The requests the page sends. *)
Inductive Call : Type :=
| CallListPosts
| CallMe
| CallCreatePost (title content : string)
| CallAddComment (postId : Id) (content : string)
| CallSavePost (id : Id) (title content : string)
| CallDeletePost (id : Id)
| CallSaveComment (id : Id) (content : string)
| CallDeleteComment (id : Id).

(** What a handler does to the outside: a [fetch], or an [alert]. *)
Inductive Event : Type :=
| Sent (call : Call)
| Alert (message : string).

Definition Run : Type := (State * list Event)%type.

(** [res.ok] *)
Definition ok (res : Response) : bool :=
  (200 <=? status res) && (status res <=? 299).

(** [err.error || fallback], where [err] is the body of the answer. *)
Definition error_or (res : Response) (fallback : string) : string :=
  match body res with
  | JError e => if (e =? "")%string then fallback else e
  | _ => fallback
  end.

Definition setNewPost (draft : string * string) (st : State) : State :=
  mkState (posts st) (showNewPostForm st) draft (commentInputs st)
          (loading st) (currentUser st) (editingPost st) (editingComment st).

Definition setShowNewPostForm (b : bool) (st : State) : State :=
  mkState (posts st) b (newPost st) (commentInputs st)
          (loading st) (currentUser st) (editingPost st) (editingComment st).

Definition setCommentInputs (inputs : list (string * string)) (st : State)
  : State :=
  mkState (posts st) (showNewPostForm st) (newPost st) inputs
          (loading st) (currentUser st) (editingPost st) (editingComment st).

Definition setCurrentUser (u : option CurrentUser) (st : State) : State :=
  mkState (posts st) (showNewPostForm st) (newPost st) (commentInputs st)
          (loading st) u (editingPost st) (editingComment st).

(** [await fetchPosts()] *)
Definition refetch (reply : option (list ForumPost)) (st : State) : Run :=
  (fst (fetchPosts reply st), [Sent CallListPosts]).

(** [fetchCurrentUser]; [reply] is the actor of an OK answer. *)
Definition fetchCurrentUser (reply : option CurrentUser) (st : State) : Run :=
  (match reply with
   | Some data => setCurrentUser (Some data) st
   | None => st
   end,
   [Sent CallMe]).

(** In the handlers below [res] is the answer to the handler's request
    ([None] when [fetch] itself fails, which the handler only logs) and
    [reply] the answer to the re-fetch of the list. *)

Definition handleCreatePost (res : option Response)
    (reply : option (list ForumPost)) (st : State) : Run :=
  let (title, content) := newPost st in
  if (title =? "")%string || (content =? "")%string then (st, [])
  else
    let call := Sent (CallCreatePost title content) in
    match res with
    | None => (st, [call])
    | Some r =>
        if negb (ok r) then
          (st, [call; Alert (error_or r "Không thể tạo bài viết")])
        else
          let st1 := setNewPost ("", "") st in
          let st2 := setShowNewPostForm false st1 in
          let (st3, sent) := refetch reply st2 in
          (st3, call :: sent)
    end.

Definition handleAddComment (postId : Id) (res : option Response)
    (reply : option (list ForumPost)) (st : State) : Run :=
  match input_of (String_of postId) (commentInputs st) with
  | None => (st, [])
  | Some commentContent =>
      if (commentContent =? "")%string then (st, [])
      else
        let call := Sent (CallAddComment postId commentContent) in
        match res with
        | None => (st, [call])
        | Some r =>
            if negb (ok r) then
              (st, [call; Alert (error_or r "Không thể thêm bình luận")])
            else
              let st1 :=
                setCommentInputs
                  (with_input (String_of postId) "" (commentInputs st)) st in
              let (st2, sent) := refetch reply st1 in
              (st2, call :: sent)
        end
  end.

Definition handleSaveEditPost (res : option Response)
    (reply : option (list ForumPost)) (st : State) : Run :=
  match editingPost st with
  | None => (st, [])
  | Some e =>
      let call := Sent (CallSavePost (ep_id e) (ep_title e) (ep_content e)) in
      match res with
      | None => (st, [call])
      | Some r =>
          if negb (ok r) then
            (st, [call; Alert (error_or r "Không thể cập nhật bài viết")])
          else
            let st1 := setEditingPost None st in
            let (st2, sent) := refetch reply st1 in
            (st2, call :: sent)
      end
  end.

Definition handleDeletePost (postId : Id) (confirmed : bool)
    (res : option Response) (reply : option (list ForumPost)) (st : State)
  : Run :=
  if negb confirmed then (st, [])
  else
    let call := Sent (CallDeletePost postId) in
    match res with
    | None => (st, [call])
    | Some r =>
        if negb (ok r) then
          (st, [call; Alert (error_or r "Không thể xóa bài viết")])
        else
          let (st1, sent) := refetch reply st in
          (st1, call :: sent)
    end.

Definition handleSaveEditComment (res : option Response)
    (reply : option (list ForumPost)) (st : State) : Run :=
  match editingComment st with
  | None => (st, [])
  | Some e =>
      let call := Sent (CallSaveComment (ec_id e) (ec_content e)) in
      match res with
      | None => (st, [call])
      | Some r =>
          if negb (ok r) then
            (st, [call; Alert (error_or r "Không thể cập nhật bình luận")])
          else
            let st1 := setEditingComment None st in
            let (st2, sent) := refetch reply st1 in
            (st2, call :: sent)
      end
  end.

Definition handleDeleteComment (commentId : Id) (confirmed : bool)
    (res : option Response) (reply : option (list ForumPost)) (st : State)
  : Run :=
  if negb confirmed then (st, [])
  else
    let call := Sent (CallDeleteComment commentId) in
    match res with
    | None => (st, [call])
    | Some r =>
        if negb (ok r) then
          (st, [call; Alert (error_or r "Không thể xóa bình luận")])
        else
          let (st1, sent) := refetch reply st in
          (st1, call :: sent)
    end.

End ForumPageCalls.

(** ** Vocabulary of the properties *)

(** The statements sent to the store between two worlds of one run. *)
Definition sent (w w' : World) : list Stmt :=
  skipn (List.length (journal w)) (journal w').

(** The title and content a request carries: those of the parsed body, and
    none, both [undefined], when the body is absent, is not JSON or is
    [null]. *)
Definition json (request : Request) : Body :=
  match payload request with
  | JsonValue fields => fields
  | _ => mkBody JUndefined JUndefined
  end.

(** The body of the request parses to a JSON value other than [null]: a
    handler gets past [request.json()] and the destructuring. *)
Definition parses (request : Request) : bool :=
  match payload request with
  | JsonValue _ => true
  | _ => false
  end.

(** A required field that is "missing or the empty string". *)
Definition missing_or_empty (v : JsVal) : Prop :=
  v = JUndefined \/ v = JStr "".

(** The ownership check of the specification:
    [actor.id == resource.user_id OR actor.role == "admin"]. *)
Definition owner_or_admin (actor : User) (resource_user_id : Z) : bool :=
  (usr_id actor =? resource_user_id) || (usr_role actor =? "admin")%string.

(** The post, or comment, a request on [id] targets. *)
Definition find_post (d : Db) (id : Z) : option PostRow :=
  find (fun p => p_id p =? id) (forum_posts d).

Definition find_comment (d : Db) (id : Z) : option CommentRow :=
  find (fun c => c_id c =? id) (comments d).

Definition is_insert_post (q : Stmt) : bool :=
  match q with
  | InsertPost _ _ _ _ => true
  | _ => false
  end.

(** The update and delete endpoints, taken together. *)
Inductive Mutation : Type :=
| EditPost
| RemovePost
| EditComment
| RemoveComment.

Definition endpoint (m : Mutation)
  : Request -> Context -> World -> Response * World :=
  match m with
  | EditPost => PostsId.PUT
  | RemovePost => PostsId.DELETE
  | EditComment => CommentsId.PUT
  | RemoveComment => CommentsId.DELETE
  end.

(** [resource.user_id] of the target, when the target exists. *)
Definition resource_user_id (m : Mutation) (d : Db) (id : Z) : option Z :=
  match m with
  | EditPost | RemovePost => option_map p_user_id (find_post d id)
  | EditComment | RemoveComment => option_map c_user_id (find_comment d id)
  end.

(** The body passes the endpoint's validation ([DELETE] reads no body). *)
Definition valid_body (m : Mutation) (b : Body) : bool :=
  match m with
  | EditPost => truthy (b_title b) && truthy (b_content b)
  | EditComment => truthy (b_content b)
  | RemovePost | RemoveComment => true
  end.

(** How a post row [q] after an edit of post [id] relates to the row [p] it
    was: key, owner and creation time are kept; a row with another id is
    kept whole; the target takes the new title, content and [updated_at]. *)
Definition edit_frame (t c : string) (now id : Z) (p q : PostRow) : Prop :=
  p_id q = p_id p /\
  p_user_id q = p_user_id p /\
  p_created_at q = p_created_at p /\
  (p_id p <> id -> q = p) /\
  (p_id p = id ->
   p_title q = t /\ p_content q = c /\ p_updated_at q = Some now).

(** The entry of the post list for post [p]: the post's columns, its
    author taken from [users], and, in table order, its comments, each with
    its author. *)
Definition user_by_id (d : Db) (uid : Z) : option UserRow :=
  find (fun u => u_id u =? uid) (users d).

Definition comment_json (d : Db) (c : CommentRow) : CommentJson :=
  mkCommentJson (c_id c) (c_content c) (c_created_at c) (c_user_id c)
                (author_json (user_by_id d (c_user_id c))).

Definition post_json (d : Db) (p : PostRow) : PostJson :=
  mkPostJson (p_id p) (p_title p) (p_content p) (p_created_at p)
             (p_user_id p)
             (author_json (user_by_id d (p_user_id p)))
             (map (comment_json d)
                  (filter (fun c => c_post_id c =? p_id p) (comments d))).

(** The rows of the [FROM] clause that come from post [p]. *)
Definition post_rows (d : Db) (p : PostRow) : list Joined :=
  flat_map (fun u =>
    flat_map (fun oc =>
      map (fun ocu => mkJoined p u oc ocu)
          (left_matches (on_comment_user oc) (users d)))
      (left_matches (fun c => c_post_id c =? p_id p) (comments d)))
    (filter (fun u => u_id u =? p_user_id p) (users d)).

(** Newest first. *)
Definition newer_or_same (a b : PostJson) : Prop :=
  pj_created_at b <= pj_created_at a.

(** Every route of the API, and a session of calls served one after the
    other. *)
Inductive Route : Type :=
| ListPosts
| CreatePost
| CreateComment
| Mutating (m : Mutation).

Definition serve (r : Route) (request : Request) (context : Context)
  : World -> Response * World :=
  match r with
  | ListPosts => Posts.GET
  | CreatePost => Posts.POST request context
  | CreateComment => PostsIdComments.POST request context
  | Mutating m => endpoint m request context
  end.

Fixpoint serve_all (calls : list (Route * Request * Context)) (w : World)
  : World :=
  match calls with
  | [] => w
  | (r, request, context) :: calls' =>
      serve_all calls' (snd (serve r request context w))
  end.

(** A computation keeps the store inside [P]. *)
Definition preserves (P : Db -> Prop) {A} (m : M A) : Prop :=
  forall w, P (db w) -> P (db (snd (m w))).

(** Keys come from the sequences: every key in a table is below the
    sequence's next value. *)
Definition ids_below_seq (d : Db) : Prop :=
  (forall p, In p (forum_posts d) -> p_id p < forum_posts_id_seq d) /\
  (forall c, In c (comments d) -> c_id c < comments_id_seq d).

(** The id was handed out and no row carries it any more. *)
Definition post_retired (id : Z) (d : Db) : Prop :=
  find_post d id = None /\ id < forum_posts_id_seq d.

Definition comment_retired (id : Z) (d : Db) : Prop :=
  find_comment d id = None /\ id < comments_id_seq d.

(** How a comment row [q] after an edit of comment [id] relates to the row
    [r] it was. *)
Definition comment_edit_frame (c : string) (now id : Z) (r q : CommentRow)
  : Prop :=
  c_id q = c_id r /\
  c_post_id q = c_post_id r /\
  c_user_id q = c_user_id r /\
  c_created_at q = c_created_at r /\
  (c_id r <> id -> q = r) /\
  (c_id r = id -> c_content q = c /\ c_updated_at q = Some now).

(** [mutated m request id d d']: [d'] is [d] after the endpoint's mutation
    on the target [id], table by table.  An edit rewrites the text of the
    target row and keeps every other row and every other column; a removal
    keeps exactly the rows that do not carry the id (for a post, also
    exactly the comments that do not hang under it).  Users and sequences
    are as before. *)
Definition mutated (m : Mutation) (request : Request) (id : Z) (d d' : Db)
  : Prop :=
  users d' = users d /\
  forum_posts_id_seq d' = forum_posts_id_seq d /\
  comments_id_seq d' = comments_id_seq d /\
  match m with
  | EditPost =>
      (exists t c,
         text_param (b_title (json request)) = Some t /\
         text_param (b_content (json request)) = Some c /\
         Forall2 (edit_frame t c (date request) id)
                 (forum_posts d) (forum_posts d')) /\
      comments d' = comments d
  | RemovePost =>
      forum_posts d' =
        filter (fun p => negb (p_id p =? id)) (forum_posts d) /\
      comments d' =
        filter (fun r => negb (c_post_id r =? id)) (comments d)
  | EditComment =>
      (exists c,
         text_param (b_content (json request)) = Some c /\
         Forall2 (comment_edit_frame c (date request) id)
                 (comments d) (comments d')) /\
      forum_posts d' = forum_posts d
  | RemoveComment =>
      comments d' =
        filter (fun r => negb (c_id r =? id)) (comments d) /\
      forum_posts d' = forum_posts d
  end.

(** Every row that carries comment id [id] has owner [owner], hangs under
    post [post] and was created at [created], and the id is not one the
    sequence will hand out. *)
Definition comment_identity (id owner post created : Z) (d : Db) : Prop :=
  (forall c, In c (comments d) -> c_id c = id ->
             c_user_id c = owner /\ c_post_id c = post /\
             c_created_at c = created) /\
  id < comments_id_seq d.

(** Every row that carries post id [id] has owner [owner] and creation time
    [created], and the id is not one the sequence will hand out. *)
Definition post_identity (id owner created : Z) (d : Db) : Prop :=
  (forall p, In p (forum_posts d) -> p_id p = id ->
             p_user_id p = owner /\ p_created_at p = created) /\
  id < forum_posts_id_seq d.

(** The rows of the three tables. *)
Definition same_rows (d d' : Db) : Prop :=
  users d' = users d /\
  forum_posts d' = forum_posts d /\
  comments d' = comments d.

(** The post list a caller of [GET /forum/posts] receives. *)
Definition listed (w : World) : list PostJson :=
  match body (fst (Posts.GET w)) with
  | JPosts rows => rows
  | _ => []
  end.

(** Two entries of the post list that agree on every column and hold the
    same comments, whatever the order of the comments; two post lists that
    hold the same entries, whatever the order of the entries. *)
Definition same_entry (r r' : PostJson) : Prop :=
  pj_id r = pj_id r' /\
  pj_title r = pj_title r' /\
  pj_content r = pj_content r' /\
  pj_created_at r = pj_created_at r' /\
  pj_user_id r = pj_user_id r' /\
  pj_author r = pj_author r' /\
  Permutation (pj_comments r) (pj_comments r').

Definition same_entries (l l' : list PostJson) : Prop :=
  exists rows, Permutation l rows /\ Forall2 same_entry rows l'.

(** A list entry with one more comment, and a list entry with another title
    and content. *)
Definition with_comment (cj : CommentJson) (r : PostJson) : PostJson :=
  mkPostJson (pj_id r) (pj_title r) (pj_content r) (pj_created_at r)
             (pj_user_id r) (pj_author r) (pj_comments r ++ [cj]).

Definition with_text (t c : string) (r : PostJson) : PostJson :=
  mkPostJson (pj_id r) t c (pj_created_at r) (pj_user_id r) (pj_author r)
             (pj_comments r).

(** An answer that reports an error: a status from 400 to 500 and a body
    [{error: message}] with a message that is not empty. *)
Definition reports_error (response : Response) : Prop :=
  exists message,
    body response = JError message /\ message <> "" /\
    400 <= status response <= 500.

(** The actions of the page that write to the forum, and the handler each
    one runs.  [confirmed] is the answer to the confirmation dialog. *)
Inductive Action : Type :=
| DoCreatePost
| DoAddComment (postId : ForumPage.Id)
| DoSavePost
| DoDeletePost (postId : ForumPage.Id) (confirmed : bool)
| DoSaveComment
| DoDeleteComment (commentId : ForumPage.Id) (confirmed : bool).

Definition perform (a : Action) (res : option Response)
    (reply : option (list ForumPage.ForumPost)) (st : ForumPage.State)
  : ForumPageCalls.Run :=
  match a with
  | DoCreatePost => ForumPageCalls.handleCreatePost res reply st
  | DoAddComment postId => ForumPageCalls.handleAddComment postId res reply st
  | DoSavePost => ForumPageCalls.handleSaveEditPost res reply st
  | DoDeletePost postId confirmed =>
      ForumPageCalls.handleDeletePost postId confirmed res reply st
  | DoSaveComment => ForumPageCalls.handleSaveEditComment res reply st
  | DoDeleteComment commentId confirmed =>
      ForumPageCalls.handleDeleteComment commentId confirmed res reply st
  end.

(** The request an action sends from a state of the page; [None] when the
    handler returns before its [fetch]. *)
Definition call_of (a : Action) (st : ForumPage.State)
  : option ForumPageCalls.Call :=
  match a with
  | DoCreatePost =>
      let (title, content) := ForumPage.newPost st in
      if (title =? "")%string || (content =? "")%string then None
      else Some (ForumPageCalls.CallCreatePost title content)
  | DoAddComment postId =>
      match ForumPageCalls.input_of (ForumPageCalls.String_of postId)
                                    (ForumPage.commentInputs st) with
      | None => None
      | Some content =>
          if (content =? "")%string then None
          else Some (ForumPageCalls.CallAddComment postId content)
      end
  | DoSavePost =>
      match ForumPage.editingPost st with
      | None => None
      | Some e =>
          Some (ForumPageCalls.CallSavePost (ForumPage.ep_id e)
                  (ForumPage.ep_title e) (ForumPage.ep_content e))
      end
  | DoDeletePost postId confirmed =>
      if confirmed then Some (ForumPageCalls.CallDeletePost postId) else None
  | DoSaveComment =>
      match ForumPage.editingComment st with
      | None => None
      | Some e =>
          Some (ForumPageCalls.CallSaveComment (ForumPage.ec_id e)
                  (ForumPage.ec_content e))
      end
  | DoDeleteComment commentId confirmed =>
      if confirmed then Some (ForumPageCalls.CallDeleteComment commentId)
      else None
  end.

(** A call of the page as the API receives it: the route its URL and method
    select, the body [JSON.stringify] made, the id segment of the path.  The
    browser's session is [session], the server's clock reads [now].  An id
    that is not a number selects no row of the model, and [/api/auth/me] is
    not one of the forum's routes: both give [None]. *)
Definition route_of (session : option User) (now : Z)
    (call : ForumPageCalls.Call) : option (Route * Request * Context) :=
  let request t c := mkRequest session (JsonValue (mkBody t c)) now in
  match call with
  | ForumPageCalls.CallListPosts =>
      Some (ListPosts, request JUndefined JUndefined, mkContext 0)
  | ForumPageCalls.CallMe => None
  | ForumPageCalls.CallCreatePost t c =>
      Some (CreatePost, request (JStr t) (JStr c), mkContext 0)
  | ForumPageCalls.CallAddComment (ForumPage.IdNum n) c =>
      Some (CreateComment, request JUndefined (JStr c), mkContext n)
  | ForumPageCalls.CallSavePost (ForumPage.IdNum n) t c =>
      Some (Mutating EditPost, request (JStr t) (JStr c), mkContext n)
  | ForumPageCalls.CallDeletePost (ForumPage.IdNum n) =>
      Some (Mutating RemovePost, request JUndefined JUndefined, mkContext n)
  | ForumPageCalls.CallSaveComment (ForumPage.IdNum n) c =>
      Some (Mutating EditComment, request JUndefined (JStr c), mkContext n)
  | ForumPageCalls.CallDeleteComment (ForumPage.IdNum n) =>
      Some (Mutating RemoveComment, request JUndefined JUndefined,
            mkContext n)
  | _ => None
  end.

(** An action of the page run against the API: the handler's request, if it
    sends one, is served on [w] and the answer handed to the handler. *)
Definition click (a : Action) (session : option User) (now : Z)
    (reply : option (list ForumPage.ForumPost)) (st : ForumPage.State)
    (w : World) : option (ForumPageCalls.Run * World) :=
  match call_of a st with
  | None => Some (perform a None reply st, w)
  | Some call =>
      match route_of session now call with
      | None => None
      | Some (r, request, context) =>
          let (res, w') := serve r request context w in
          Some (perform a (Some res) reply st, w')
      end
  end.

(** ** A small forum to run the handlers on *)

Module Sample.

Definition an : User := mkActor 1 "user".
Definition binh : User := mkActor 2 "user".
Definition chi : User := mkActor 3 "admin".

Definition store : Db :=
  mkDb [mkUser 1 "An" "user"; mkUser 2 "Binh" "user"; mkUser 3 "Chi" "admin"]
       [mkPost 10 1 "Rain" "Heavy rain today" 100 None;
        mkPost 11 2 "Haze" "PM2.5 is high" 300 None;
        mkPost 12 1 "Sun" "Clear sky" 200 None]
       [mkComment 20 10 2 "Stay dry" 110 None;
        mkComment 21 10 1 "Thanks" 120 None;
        mkComment 22 11 3 "Wear a mask" 310 None]
       13 23.

Definition world : World := mkWorld store [].

Definition request (who : User) (title content : JsVal) : Request :=
  mkRequest (Some who) (JsonValue (mkBody title content)) 1000.

End Sample.

Module SamplePage.

Definition stay_dry : ForumPage.ForumComment :=
  ForumPage.mkForumComment (ForumPage.IdNum 20) "Stay dry"
    "2025-01-01T00:00:00.110Z"
    (Some (ForumPage.mkViewAuthor (Some 2) "Binh")) (Some 2).

Definition rain : ForumPage.ForumPost :=
  ForumPage.mkForumPost (ForumPage.IdNum 10) "Rain" "Heavy rain today"
    "2025-01-01T00:00:00.100Z"
    (Some (ForumPage.mkViewAuthor (Some 1) "An"))
    [stay_dry]
    (Some 1).

Definition haze : ForumPage.ForumPost :=
  ForumPage.mkForumPost (ForumPage.IdNum 11) "Haze" "PM2.5 is high"
    "2025-01-01T00:00:00.300Z"
    (Some (ForumPage.mkViewAuthor (Some 2) "Binh")) [] (Some 2).

(** Binh's page: a new post typed in, a comment typed under post 10, and
    the editor open on post 10. *)
Definition state : ForumPage.State :=
  ForumPage.mkState [haze; rain] true ("Fog", "Drive slow")
    [("10", "Nice"); ("11", "")] false
    (Some (ForumPage.mkCurrentUser 2 "user"))
    (Some (ForumPage.mkPostDraft (ForumPage.IdNum 10) "Mine now" "x"))
    None.

End SamplePage.

(** ** Basic facts *)

Section Lists.

Context {A : Type} (f : A -> bool).

Lemma filter_of_find (l : list A) (x : A) :
  find f l = Some x -> exists rest, filter f l = x :: rest.
Proof.
  induction l as [|a l IH]; simpl; [discriminate|].
  destruct (f a) eqn:Ha.
  - intros [= ->]. now exists (filter f l).
  - exact IH.
Qed.

Lemma filter_of_find_none (l : list A) :
  find f l = None -> filter f l = [].
Proof.
  induction l as [|a l IH]; simpl; [reflexivity|].
  destruct (f a); [discriminate | exact IH].
Qed.

Lemma find_none_of_filter_negb (l : list A) :
  find f (filter (fun x => negb (f x)) l) = None.
Proof.
  induction l as [|a l IH]; simpl; [reflexivity|].
  destruct (f a) eqn:Ha; simpl; [exact IH|].
  now rewrite Ha.
Qed.

Lemma existsb_filter_negb (l : list A) :
  existsb f (filter (fun x => negb (f x)) l) = false.
Proof.
  induction l as [|a l IH]; simpl; [reflexivity|].
  destruct (f a) eqn:Ha; simpl; [exact IH|].
  now rewrite Ha, IH.
Qed.

End Lists.

Lemma sent_app (w : World) (qs : list Stmt) (d : Db) :
  sent w (mkWorld d (journal w ++ qs)) = qs.
Proof.
  unfold sent; simpl.
  induction (journal w) as [|q l IH]; simpl; [reflexivity | exact IH].
Qed.

Lemma sent_refl (w : World) : sent w w = [].
Proof.
  unfold sent. induction (journal w) as [|q l IH]; simpl; auto.
Qed.

Lemma missing_or_empty_falsy (v : JsVal) :
  missing_or_empty v -> truthy v = false.
Proof. now intros [-> | ->]. Qed.

Lemma truthy_has_text (v : JsVal) :
  truthy v = true -> exists s, text_param v = Some s.
Proof.
  destruct v as [| |b|n|s]; simpl; try discriminate; intros H.
  - subst b. now exists "true".
  - now eexists.
  - now eexists.
Qed.

Lemma forbidden_owner_or_admin (ownerId : Z) (user : User) :
  forbidden ownerId user = negb (owner_or_admin user ownerId).
Proof.
  unfold forbidden, owner_or_admin.
  rewrite (Z.eqb_sym ownerId). now rewrite negb_orb.
Qed.

(** ** Reading the body, then validation, come first *)

Ltac open_body request :=
  unfold request_json, destructure, json, parses in *;
  destruct (payload request) as [| |?fields];
  simpl in *; try discriminate.

Lemma posts_PUT_unparsed (request : Request) (user : User)
    (context : Context) (w : World) :
  parses request = false ->
  PostsId.PUT_handler request user context w =
  (NextResponse_json (JError "Failed to update post") (Some 500), w).
Proof.
  intros Hp. unfold PostsId.PUT_handler, try_catch, bind.
  open_body request; reflexivity.
Qed.

Lemma comments_PUT_unparsed (request : Request) (user : User)
    (context : Context) (w : World) :
  parses request = false ->
  CommentsId.PUT_handler request user context w =
  (NextResponse_json (JError "Failed to update comment") (Some 500), w).
Proof.
  intros Hp. unfold CommentsId.PUT_handler, try_catch, bind.
  open_body request; reflexivity.
Qed.

Lemma posts_POST_unparsed (request : Request) (user : User)
    (context : Context) (w : World) :
  parses request = false ->
  Posts.POST_handler request user context w =
  (NextResponse_json (JError "Failed to create post") (Some 500), w).
Proof.
  intros Hp. unfold Posts.POST_handler, try_catch, bind.
  open_body request; reflexivity.
Qed.

Lemma comments_POST_unparsed (request : Request) (user : User)
    (context : Context) (w : World) :
  parses request = false ->
  PostsIdComments.POST_handler request user context w =
  (NextResponse_json (JError "Failed to create comment") (Some 500), w).
Proof.
  intros Hp. unfold PostsIdComments.POST_handler, try_catch, bind.
  open_body request; reflexivity.
Qed.

Lemma posts_PUT_invalid (request : Request) (user : User) (context : Context)
    (w : World) :
  parses request = true ->
  truthy (b_title (json request)) = false \/
  truthy (b_content (json request)) = false ->
  PostsId.PUT_handler request user context w =
  (NextResponse_json (JError "Missing title or content") (Some 400), w).
Proof.
  intros Hp H. unfold PostsId.PUT_handler, try_catch, bind.
  open_body request.
  destruct H as [-> | ->]; [reflexivity|].
  now rewrite orb_true_r.
Qed.

Lemma comments_PUT_invalid (request : Request) (user : User)
    (context : Context) (w : World) :
  parses request = true ->
  truthy (b_content (json request)) = false ->
  CommentsId.PUT_handler request user context w =
  (NextResponse_json (JError "Missing content") (Some 400), w).
Proof.
  intros Hp H. unfold CommentsId.PUT_handler, try_catch, bind.
  open_body request. now rewrite H.
Qed.

Lemma posts_POST_invalid (request : Request) (user : User) (context : Context)
    (w : World) :
  parses request = true ->
  truthy (b_title (json request)) = false \/
  truthy (b_content (json request)) = false ->
  Posts.POST_handler request user context w =
  (NextResponse_json (JError "Missing title or content") (Some 400), w).
Proof.
  intros Hp H. unfold Posts.POST_handler, try_catch, bind.
  open_body request.
  destruct H as [-> | ->]; [reflexivity|].
  now rewrite orb_true_r.
Qed.

(** C10, amended.  On [PUT /forum/posts/{id}] and on
    [PUT /forum/comments/{id}] the body is read and validated before
    anything else: a request whose required field is missing or empty is
    answered before any statement is sent to the store (the store and its
    journal are as they were), whether or not the target exists and whoever
    the actor is.  The answer is 400 when the body parses to a JSON value
    other than [null], and 500 when the body is absent, is not JSON or is
    [null]. *)
Theorem put_validation_precedes_lookup
    (request : Request) (user : User) (context : Context) (w : World) :
  session request = Some user ->
  (missing_or_empty (b_title (json request)) \/
   missing_or_empty (b_content (json request)) ->
   let (response, w') := PostsId.PUT request context w in
   status response = (if parses request then 400 else 500) /\
   w' = w /\ sent w w' = []) /\
  (missing_or_empty (b_content (json request)) ->
   let (response, w') := CommentsId.PUT request context w in
   status response = (if parses request then 400 else 500) /\
   w' = w /\ sent w w' = []).
Proof.
  intros Hs. unfold PostsId.PUT, CommentsId.PUT, requireAuth. rewrite Hs.
  destruct (parses request) eqn:Hp.
  - split; intros H.
    + rewrite posts_PUT_invalid; auto.
      * repeat split. apply sent_refl.
      * destruct H as [H|H]; [left|right]; now apply missing_or_empty_falsy.
    + rewrite comments_PUT_invalid; auto.
      * repeat split. apply sent_refl.
      * now apply missing_or_empty_falsy.
  - split; intros _.
    + rewrite posts_PUT_unparsed by assumption.
      repeat split. apply sent_refl.
    + rewrite comments_PUT_unparsed by assumption.
      repeat split. apply sent_refl.
Qed.

(** C10 as stated fails: Binh sends a [PUT] whose body is the JSON value
    [null], so that title and content are missing, and is answered 500, not
    400. *)
Lemma put_with_null_body_gets_500 :
  let request := mkRequest (Some Sample.binh) JsonNull 1000 in
  session request = Some Sample.binh /\
  missing_or_empty (b_title (json request)) /\
  missing_or_empty (b_content (json request)) /\
  status (fst (PostsId.PUT request (mkContext 999) Sample.world)) = 500 /\
  status (fst (PostsId.PUT request (mkContext 999) Sample.world)) <> 400 /\
  status (fst (CommentsId.PUT request (mkContext 20) Sample.world)) = 500 /\
  status (fst (CommentsId.PUT request (mkContext 20) Sample.world)) <> 400.
Proof.
  repeat split; try (now left); discriminate.
Qed.

Lemma posts_POST_valid_sent (request : Request) (user : User)
    (context : Context) (w : World) :
  truthy (b_title (json request)) = true ->
  truthy (b_content (json request)) = true ->
  sent w (snd (Posts.POST_handler request user context w)) =
  [InsertPost (usr_id user) (b_title (json request))
              (b_content (json request)) (date request)].
Proof.
  intros Ht Hc. unfold Posts.POST_handler, try_catch, bind, query.
  open_body request.
  rewrite Ht, Hc; simpl.
  destruct (insert_post _ _ _ _ _) as [[rows|e] d']; simpl.
  - destruct rows; simpl; apply sent_app.
  - apply sent_app.
Qed.

(** C4, amended.  An authenticated [POST /forum/posts] whose title or
    content is missing or the empty string leaves the store as it was, no
    row inserted: it is answered 400 when the body parses to a JSON value
    other than [null], and 500 when the body is absent, is not JSON or is
    [null]; the [INSERT] statement is sent only when neither field is
    missing or empty. *)
Theorem create_post_rejects_empty_fields
    (request : Request) (user : User) (context : Context) (w : World) :
  session request = Some user ->
  (missing_or_empty (b_title (json request)) \/
   missing_or_empty (b_content (json request)) ->
   let (response, w') := Posts.POST request context w in
   status response = (if parses request then 400 else 500) /\ w' = w) /\
  (existsb is_insert_post (sent w (snd (Posts.POST request context w))) = true ->
   ~ missing_or_empty (b_title (json request)) /\
   ~ missing_or_empty (b_content (json request))).
Proof.
  intros Hs. unfold Posts.POST, requireAuth. rewrite Hs.
  destruct (parses request) eqn:Hp.
  - split.
    + intros H. rewrite posts_POST_invalid; auto.
      destruct H as [H|H]; [left|right]; now apply missing_or_empty_falsy.
    + intros Hi.
      destruct (truthy (b_title (json request))) eqn:Ht;
        [destruct (truthy (b_content (json request))) eqn:Hc|].
      * split; intros Hm; apply missing_or_empty_falsy in Hm; congruence.
      * rewrite posts_POST_invalid in Hi by auto.
        simpl in Hi. now rewrite sent_refl in Hi.
      * rewrite posts_POST_invalid in Hi by auto.
        simpl in Hi. now rewrite sent_refl in Hi.
  - rewrite posts_POST_unparsed by assumption. split.
    + now intros _.
    + simpl. rewrite sent_refl. discriminate.
Qed.

Lemma create_post_rejects_empty_fields_witness :
  let request := Sample.request Sample.an (JStr "") (JStr "Heavy rain today") in
  let (response, w') := Posts.POST request (mkContext 0) Sample.world in
  status response = 400 /\ w' = Sample.world.
Proof.
  intros request.
  apply (create_post_rejects_empty_fields request Sample.an (mkContext 0)
           Sample.world eq_refl).
  left. right. reflexivity.
Defined.

(** C4 as stated fails: An sends a [POST] whose body is the JSON value
    [null], so that title and content are missing, and is answered 500, not
    400. *)
Lemma create_post_with_null_body_gets_500 :
  let request := mkRequest (Some Sample.an) JsonNull 1000 in
  session request = Some Sample.an /\
  missing_or_empty (b_title (json request)) /\
  status (fst (Posts.POST request (mkContext 0) Sample.world)) = 500 /\
  status (fst (Posts.POST request (mkContext 0) Sample.world)) <> 400.
Proof.
  repeat split; try (now left); discriminate.
Qed.

Lemma put_validation_precedes_lookup_witness :
  let request := Sample.request Sample.binh JUndefined (JStr "") in
  (let (response, w') := PostsId.PUT request (mkContext 999) Sample.world in
   status response = 400 /\ w' = Sample.world /\ sent Sample.world w' = []) /\
  (let (response, w') := CommentsId.PUT request (mkContext 20) Sample.world in
   status response = 400 /\ w' = Sample.world /\ sent Sample.world w' = []).
Proof.
  intros request.
  destruct (put_validation_precedes_lookup request Sample.binh (mkContext 999)
              Sample.world eq_refl) as [Hp _].
  destruct (put_validation_precedes_lookup request Sample.binh (mkContext 20)
              Sample.world eq_refl) as [_ Hc].
  split.
  - apply Hp. left. left. reflexivity.
  - apply Hc. right. reflexivity.
Defined.

(** ** What each update and delete handler does on an existing target *)

Lemma find_set_post (t c : string) (now id : Z) (ps : list PostRow)
    (p : PostRow) :
  find (fun p => p_id p =? id) ps = Some p ->
  find (fun p => p_id p =? id) (map (set_post t c now id) ps) =
  Some (set_post t c now id p).
Proof.
  induction ps as [|a ps IH]; simpl; [discriminate|].
  destruct (p_id a =? id) eqn:Ha.
  - intros [= ->]. unfold set_post at 1. rewrite Ha; simpl. now rewrite Ha.
  - intros H. unfold set_post at 1. rewrite Ha, Ha. auto.
Qed.

Lemma find_set_comment (c : string) (now id : Z) (cs : list CommentRow)
    (r : CommentRow) :
  find (fun r => c_id r =? id) cs = Some r ->
  find (fun r => c_id r =? id) (map (set_comment c now id) cs) =
  Some (set_comment c now id r).
Proof.
  induction cs as [|a cs IH]; simpl; [discriminate|].
  destruct (c_id a =? id) eqn:Ha.
  - intros [= ->]. unfold set_comment at 1. rewrite Ha; simpl. now rewrite Ha.
  - intros H. unfold set_comment at 1. rewrite Ha, Ha. auto.
Qed.

Lemma posts_PUT_existing (request : Request) (user : User) (context : Context)
    (w : World) (p : PostRow) (t c : string) :
  let id := params_id context in
  let title := b_title (json request) in
  let content := b_content (json request) in
  find_post (db w) id = Some p ->
  truthy title = true -> truthy content = true ->
  text_param title = Some t -> text_param content = Some c ->
  PostsId.PUT_handler request user context w =
  if owner_or_admin user (p_user_id p)
  then (NextResponse_json
          (JPostUpdated (post_updated (set_post t c (date request) id p)))
          None,
        mkWorld (with_forum_posts (db w)
                   (map (set_post t c (date request) id) (forum_posts (db w))))
                (journal w ++ [SelectPostOwner id;
                               UpdatePost title content (date request) id]))
  else (NextResponse_json (JError "Forbidden") (Some 403),
        mkWorld (db w) (journal w ++ [SelectPostOwner id])).
Proof.
  intros id title content Hp Ht Hc Htt Htc. subst title content.
  unfold PostsId.PUT_handler, try_catch, bind, query, select_post_owner.
  open_body request. fold id. rewrite Ht, Hc; simpl.
  destruct (filter_of_find _ _ _ Hp) as [rest Hrest]. rewrite Hrest; simpl.
  rewrite forbidden_owner_or_admin.
  destruct (owner_or_admin user (p_user_id p)); simpl; [|reflexivity].
  unfold update_post. rewrite Htt, Htc; simpl.
  destruct (filter_of_find _ _ _ (find_set_post t c (date request) id _ _ Hp))
    as [rest' Hrest'].
  rewrite Hrest'; simpl. now rewrite <- app_assoc.
Qed.

Lemma posts_DELETE_existing (request : Request) (user : User)
    (context : Context) (w : World) (p : PostRow) :
  let id := params_id context in
  find_post (db w) id = Some p ->
  PostsId.DELETE_handler request user context w =
  if owner_or_admin user (p_user_id p)
  then (NextResponse_json (JSuccess true) None,
        mkWorld (with_forum_posts
                   (with_comments (db w)
                      (filter (fun r => negb (c_post_id r =? id))
                              (comments (db w))))
                   (filter (fun p => negb (p_id p =? id))
                           (forum_posts (db w))))
                (journal w ++ [SelectPostOwner id; DeleteCommentsOfPost id;
                               DeletePost id]))
  else (NextResponse_json (JError "Forbidden") (Some 403),
        mkWorld (db w) (journal w ++ [SelectPostOwner id])).
Proof.
  intros id Hp.
  unfold PostsId.DELETE_handler, try_catch, bind, query, select_post_owner.
  fold id.
  destruct (filter_of_find _ _ _ Hp) as [rest Hrest]. rewrite Hrest; simpl.
  rewrite forbidden_owner_or_admin.
  destruct (owner_or_admin user (p_user_id p)); simpl; [|reflexivity].
  unfold delete_post, post_removal_violation; simpl.
  rewrite (existsb_filter_negb (fun r => c_post_id r =? id)).
  rewrite andb_false_r; simpl.
  now rewrite <- !app_assoc.
Qed.

Lemma comments_PUT_existing (request : Request) (user : User)
    (context : Context) (w : World) (r : CommentRow) (c : string) :
  let id := params_id context in
  let content := b_content (json request) in
  find_comment (db w) id = Some r ->
  truthy content = true -> text_param content = Some c ->
  CommentsId.PUT_handler request user context w =
  if owner_or_admin user (c_user_id r)
  then (NextResponse_json
          (JCommentUpdated
             (comment_updated (set_comment c (date request) id r)))
          None,
        mkWorld (with_comments (db w)
                   (map (set_comment c (date request) id) (comments (db w))))
                (journal w ++ [SelectCommentOwner id;
                               UpdateComment content (date request) id]))
  else (NextResponse_json (JError "Forbidden") (Some 403),
        mkWorld (db w) (journal w ++ [SelectCommentOwner id])).
Proof.
  intros id content Hr Hc Htc. subst content.
  unfold CommentsId.PUT_handler, try_catch, bind, query, select_comment_owner.
  open_body request. fold id. rewrite Hc; simpl.
  destruct (filter_of_find _ _ _ Hr) as [rest Hrest]. rewrite Hrest; simpl.
  rewrite forbidden_owner_or_admin.
  destruct (owner_or_admin user (c_user_id r)); simpl; [|reflexivity].
  unfold update_comment. rewrite Htc; simpl.
  destruct (filter_of_find _ _ _ (find_set_comment c (date request) id _ _ Hr))
    as [rest' Hrest'].
  rewrite Hrest'; simpl. now rewrite <- app_assoc.
Qed.

Lemma comments_DELETE_existing (request : Request) (user : User)
    (context : Context) (w : World) (r : CommentRow) :
  let id := params_id context in
  find_comment (db w) id = Some r ->
  CommentsId.DELETE_handler request user context w =
  if owner_or_admin user (c_user_id r)
  then (NextResponse_json (JSuccess true) None,
        mkWorld (with_comments (db w)
                   (filter (fun r => negb (c_id r =? id)) (comments (db w))))
                (journal w ++ [SelectCommentOwner id; DeleteComment id]))
  else (NextResponse_json (JError "Forbidden") (Some 403),
        mkWorld (db w) (journal w ++ [SelectCommentOwner id])).
Proof.
  intros id Hr.
  unfold CommentsId.DELETE_handler, try_catch, bind, query,
    select_comment_owner.
  fold id.
  destruct (filter_of_find _ _ _ Hr) as [rest Hrest]. rewrite Hrest; simpl.
  rewrite forbidden_owner_or_admin.
  destruct (owner_or_admin user (c_user_id r)); simpl; [|reflexivity].
  now rewrite <- app_assoc.
Qed.

Lemma set_post_frame (t c : string) (now id : Z) (ps : list PostRow) :
  Forall2 (edit_frame t c now id) ps (map (set_post t c now id) ps).
Proof.
  induction ps as [|p ps IH]; simpl; constructor; [|exact IH].
  unfold edit_frame, set_post.
  destruct (p_id p =? id) eqn:Hid; simpl.
  - apply Z.eqb_eq in Hid. repeat split; congruence.
  - apply Z.eqb_neq in Hid. repeat split; congruence.
Qed.

Lemma set_comment_frame (c : string) (now id : Z) (cs : list CommentRow) :
  Forall2 (comment_edit_frame c now id) cs (map (set_comment c now id) cs).
Proof.
  induction cs as [|r cs IH]; simpl; constructor; [|exact IH].
  unfold comment_edit_frame, set_comment.
  destruct (c_id r =? id) eqn:Hid; simpl.
  - apply Z.eqb_eq in Hid. repeat split; congruence.
  - apply Z.eqb_neq in Hid. repeat split; congruence.
Qed.

(** ** The ownership gate *)

Lemma endpoint_on_existing (m : Mutation) (request : Request) (user : User)
    (context : Context) (w : World) (owner : Z) :
  session request = Some user ->
  resource_user_id m (db w) (params_id context) = Some owner ->
  valid_body m (json request) = true ->
  exists response w',
    endpoint m request context w = (response, w') /\
    if owner_or_admin user owner
    then status response = 200 /\
         mutated m request (params_id context) (db w) (db w') /\
         existsb is_mutation (sent w w') = true
    else status response = 403 /\ db w' = db w /\
         existsb is_mutation (sent w w') = false.
Proof.
  intros Hs Ho Hv.
  destruct m; simpl in *; unfold PostsId.PUT, PostsId.DELETE, CommentsId.PUT,
    CommentsId.DELETE, requireAuth; rewrite Hs.
  - destruct (find_post (db w) (params_id context)) as [p|] eqn:Hp;
      [|discriminate].
    injection Ho as <-. apply andb_prop in Hv as [Ht Hc].
    destruct (truthy_has_text _ Ht) as [t Htt].
    destruct (truthy_has_text _ Hc) as [c Htc].
    rewrite (posts_PUT_existing request user context w p t c Hp Ht Hc Htt Htc).
    destruct (owner_or_admin user (p_user_id p)); do 2 eexists;
      (split; [reflexivity|]); rewrite sent_app; [|now repeat split].
    split; [reflexivity|]. split; [|reflexivity].
    unfold mutated; simpl. repeat split.
    exists t, c. repeat split; try assumption. apply set_post_frame.
  - destruct (find_post (db w) (params_id context)) as [p|] eqn:Hp;
      [|discriminate].
    injection Ho as <-.
    rewrite (posts_DELETE_existing request user context w p Hp).
    destruct (owner_or_admin user (p_user_id p)); do 2 eexists;
      (split; [reflexivity|]); rewrite sent_app; now repeat split.
  - destruct (find_comment (db w) (params_id context)) as [r|] eqn:Hr;
      [|discriminate].
    injection Ho as <-.
    destruct (truthy_has_text _ Hv) as [c Htc].
    rewrite (comments_PUT_existing request user context w r c Hr Hv Htc).
    destruct (owner_or_admin user (c_user_id r)); do 2 eexists;
      (split; [reflexivity|]); rewrite sent_app; [|now repeat split].
    split; [reflexivity|]. split; [|reflexivity].
    unfold mutated; simpl. repeat split.
    exists c. split; [assumption|]. apply set_comment_frame.
  - destruct (find_comment (db w) (params_id context)) as [r|] eqn:Hr;
      [|discriminate].
    injection Ho as <-.
    rewrite (comments_DELETE_existing request user context w r Hr).
    destruct (owner_or_admin user (c_user_id r)); do 2 eexists;
      (split; [reflexivity|]); rewrite sent_app; now repeat split.
Qed.

(** C1.  On every update or delete endpoint ([PUT] and [DELETE] on a post,
    [PUT] and [DELETE] on a comment), when the target exists and the body is
    valid, a mutating statement is sent exactly when the authenticated actor
    is the target's owner or an admin; then the answer is 200 and the store
    holds the mutation: an edit has rewritten the text of the target row and
    nothing else, a removal has taken out exactly the rows of the target.
    An actor who is neither gets 403 and the store is unchanged. *)
Theorem ownership_gates_update_and_delete
    (m : Mutation) (request : Request) (user : User) (context : Context)
    (w : World) (owner : Z) :
  session request = Some user ->
  resource_user_id m (db w) (params_id context) = Some owner ->
  valid_body m (json request) = true ->
  let (response, w') := endpoint m request context w in
  (existsb is_mutation (sent w w') = true <->
   owner_or_admin user owner = true) /\
  (owner_or_admin user owner = true ->
   status response = 200 /\
   mutated m request (params_id context) (db w) (db w')) /\
  (owner_or_admin user owner = false ->
   status response = 403 /\ db w' = db w).
Proof.
  intros Hs Ho Hv.
  destruct (endpoint_on_existing m request user context w owner Hs Ho Hv)
    as (response & w' & -> & H).
  destruct (owner_or_admin user owner).
  - destruct H as (H1 & H2 & H3). rewrite H3.
    split; [tauto|]. split; [auto | discriminate].
  - destruct H as (H1 & H2 & H3). rewrite H3.
    split; [split; discriminate|]. split; [discriminate | auto].
Qed.

Lemma ownership_gates_update_and_delete_witness :
  let request := Sample.request Sample.chi (JStr "Storm") (JStr "Stay in") in
  let (response, w') := PostsId.PUT request (mkContext 10) Sample.world in
  (existsb is_mutation (sent Sample.world w') = true <->
   owner_or_admin Sample.chi 1 = true) /\
  (owner_or_admin Sample.chi 1 = true ->
   status response = 200 /\
   mutated EditPost request 10 (db Sample.world) (db w')) /\
  (owner_or_admin Sample.chi 1 = false ->
   status response = 403 /\ db w' = db Sample.world).
Proof.
  intros request.
  exact (ownership_gates_update_and_delete EditPost request Sample.chi
           (mkContext 10) Sample.world 1 eq_refl eq_refl eq_refl).
Defined.

(** C2, amended.  An authenticated actor who is neither the creator of an
    existing post or comment nor an admin is answered 403 on every [DELETE]
    of it, whatever the request carries, and on every [PUT] whose body
    passes validation.  A [PUT] whose body does not pass is answered before
    the ownership check: 400 when the body parses to a JSON value other than
    [null] and a required field is missing or empty, 500 when the body is
    absent, is not JSON or is [null]. *)
Theorem stranger_gets_403_once_body_is_valid
    (m : Mutation) (request : Request) (user : User) (context : Context)
    (w : World) (owner : Z) :
  session request = Some user ->
  resource_user_id m (db w) (params_id context) = Some owner ->
  owner_or_admin user owner = false ->
  status (fst (endpoint m request context w)) =
  if valid_body m (json request) then 403
  else if parses request then 400 else 500.
Proof.
  intros Hs Ho Hf.
  destruct (valid_body m (json request)) eqn:Hv.
  - destruct (endpoint_on_existing m request user context w owner Hs Ho Hv)
      as (response & w' & -> & H).
    rewrite Hf in H. now destruct H.
  - destruct m; simpl in *; try discriminate;
      unfold PostsId.PUT, CommentsId.PUT, requireAuth; rewrite Hs;
      destruct (parses request) eqn:Hp.
    + apply andb_false_iff in Hv. now rewrite posts_PUT_invalid.
    + now rewrite posts_PUT_unparsed.
    + now rewrite comments_PUT_invalid.
    + now rewrite comments_PUT_unparsed.
Qed.

Lemma stranger_gets_403_once_body_is_valid_witness :
  status (fst (PostsId.DELETE (Sample.request Sample.binh JUndefined JUndefined)
                 (mkContext 10) Sample.world)) = 403.
Proof.
  exact (stranger_gets_403_once_body_is_valid RemovePost
           (Sample.request Sample.binh JUndefined JUndefined) Sample.binh
           (mkContext 10) Sample.world 1 eq_refl eq_refl eq_refl).
Defined.

(** C2 as stated fails: Binh, neither author of post 10 nor admin, sends a
    [PUT] with an empty title and is answered 400, not 403. *)
Lemma stranger_with_empty_title_gets_400 :
  let request := Sample.request Sample.binh (JStr "") (JStr "Stay in") in
  session request = Some Sample.binh /\
  resource_user_id EditPost (db Sample.world) 10 = Some 1 /\
  owner_or_admin Sample.binh 1 = false /\
  status (fst (PostsId.PUT request (mkContext 10) Sample.world)) = 400 /\
  status (fst (PostsId.PUT request (mkContext 10) Sample.world)) <> 403.
Proof.
  repeat split. discriminate.
Qed.

(** ** Deleting a post *)

(** C3.  A [DELETE /forum/posts/{id}] on an existing post by its owner or an
    admin sends, after the ownership lookup, the deletion of the comments
    whose [post_id] is the post's id and then the deletion of the post row,
    and answers [{success: true}] with status 200; in the resulting store no
    comment references the post, the post is gone, and the other rows are
    kept. *)
Theorem delete_post_removes_comments_then_post
    (request : Request) (user : User) (context : Context) (w : World)
    (p : PostRow) :
  let id := params_id context in
  session request = Some user ->
  find_post (db w) id = Some p ->
  owner_or_admin user (p_user_id p) = true ->
  let (response, w') := PostsId.DELETE request context w in
  response = mkResponse (JSuccess true) 200 /\
  sent w w' = [SelectPostOwner id; DeleteCommentsOfPost id; DeletePost id] /\
  (forall c, In c (comments (db w')) -> c_post_id c <> id) /\
  find_post (db w') id = None /\
  comments (db w') =
    filter (fun c => negb (c_post_id c =? id)) (comments (db w)) /\
  forum_posts (db w') =
    filter (fun q => negb (p_id q =? id)) (forum_posts (db w)) /\
  users (db w') = users (db w).
Proof.
  intros id Hs Hp Ha. unfold PostsId.DELETE, requireAuth. rewrite Hs.
  rewrite (posts_DELETE_existing request user context w p Hp), Ha.
  fold id. rewrite sent_app. simpl.
  repeat split.
  - intros c Hc. apply filter_In in Hc as [_ Hc].
    apply negb_true_iff in Hc. now apply Z.eqb_neq.
  - unfold find_post; simpl.
    apply (find_none_of_filter_negb (fun q => p_id q =? id)).
Qed.

Lemma delete_post_removes_comments_then_post_witness :
  let (response, w') :=
    PostsId.DELETE (Sample.request Sample.chi JUndefined JUndefined)
                   (mkContext 10) Sample.world in
  response = mkResponse (JSuccess true) 200 /\
  sent Sample.world w' =
    [SelectPostOwner 10; DeleteCommentsOfPost 10; DeletePost 10] /\
  (forall c, In c (comments (db w')) -> c_post_id c <> 10) /\
  find_post (db w') 10 = None /\
  comments (db w') =
    filter (fun c => negb (c_post_id c =? 10)) (comments (db Sample.world)) /\
  forum_posts (db w') =
    filter (fun q => negb (p_id q =? 10)) (forum_posts (db Sample.world)) /\
  users (db w') = users (db Sample.world).
Proof.
  exact (delete_post_removes_comments_then_post
           (Sample.request Sample.chi JUndefined JUndefined) Sample.chi
           (mkContext 10) Sample.world
           (mkPost 10 1 "Rain" "Heavy rain today" 100 None)
           eq_refl eq_refl eq_refl).
Defined.

(** ** Targets that do not exist *)

Lemma posts_DELETE_absent (request : Request) (user : User)
    (context : Context) (w : World) :
  find_post (db w) (params_id context) = None ->
  PostsId.DELETE_handler request user context w =
  (NextResponse_json (JError "Post not found") (Some 404),
   mkWorld (db w) (journal w ++ [SelectPostOwner (params_id context)])).
Proof.
  intros Hp.
  unfold PostsId.DELETE_handler, try_catch, bind, query, select_post_owner.
  now rewrite (filter_of_find_none _ _ Hp).
Qed.

Lemma comments_DELETE_absent (request : Request) (user : User)
    (context : Context) (w : World) :
  find_comment (db w) (params_id context) = None ->
  CommentsId.DELETE_handler request user context w =
  (NextResponse_json (JError "Comment not found") (Some 404),
   mkWorld (db w) (journal w ++ [SelectCommentOwner (params_id context)])).
Proof.
  intros Hc.
  unfold CommentsId.DELETE_handler, try_catch, bind, query,
    select_comment_owner.
  now rewrite (filter_of_find_none _ _ Hc).
Qed.

Lemma posts_PUT_absent (request : Request) (user : User)
    (context : Context) (w : World) :
  find_post (db w) (params_id context) = None ->
  status (fst (PostsId.PUT_handler request user context w)) <> 200.
Proof.
  intros Hp.
  destruct (parses request) eqn:Hj;
    [|now rewrite posts_PUT_unparsed].
  unfold PostsId.PUT_handler, try_catch, bind, query, select_post_owner.
  open_body request.
  destruct (negb _ || negb _); [discriminate|]. simpl.
  rewrite (filter_of_find_none _ _ Hp). discriminate.
Qed.

Lemma posts_DELETE_ok_removes (request : Request) (user : User)
    (context : Context) (w : World) :
  status (fst (PostsId.DELETE_handler request user context w)) = 200 ->
  find_post (db (snd (PostsId.DELETE_handler request user context w)))
            (params_id context) = None.
Proof.
  destruct (find_post (db w) (params_id context)) as [p|] eqn:Hp.
  - rewrite (posts_DELETE_existing request user context w p Hp).
    destruct (owner_or_admin user (p_user_id p)); simpl; [|discriminate].
    intros _. unfold find_post; simpl.
    apply (find_none_of_filter_negb (fun q => p_id q =? params_id context)).
  - rewrite (posts_DELETE_absent request user context w Hp). discriminate.
Qed.

Lemma comments_DELETE_ok_removes (request : Request) (user : User)
    (context : Context) (w : World) :
  status (fst (CommentsId.DELETE_handler request user context w)) = 200 ->
  find_comment (db (snd (CommentsId.DELETE_handler request user context w)))
               (params_id context) = None.
Proof.
  destruct (find_comment (db w) (params_id context)) as [r|] eqn:Hr.
  - rewrite (comments_DELETE_existing request user context w r Hr).
    destruct (owner_or_admin user (c_user_id r)); simpl; [|discriminate].
    intros _. unfold find_comment; simpl.
    apply (find_none_of_filter_negb (fun q => c_id q =? params_id context)).
  - rewrite (comments_DELETE_absent request user context w Hr). discriminate.
Qed.

(** C5.  Once a [DELETE] on a post id, or on a comment id, has succeeded, a
    second authenticated [DELETE] on the same id, by whichever actor, is
    answered 404 and not 200. *)
Theorem second_delete_is_not_found
    (first second : Request) (user user' : User) (context : Context)
    (w : World) :
  session first = Some user ->
  session second = Some user' ->
  (status (fst (PostsId.DELETE first context w)) = 200 ->
   status (fst (PostsId.DELETE second context
                  (snd (PostsId.DELETE first context w)))) = 404) /\
  (status (fst (CommentsId.DELETE first context w)) = 200 ->
   status (fst (CommentsId.DELETE second context
                  (snd (CommentsId.DELETE first context w)))) = 404).
Proof.
  intros H1 H2.
  unfold PostsId.DELETE, CommentsId.DELETE, requireAuth. rewrite H1, H2.
  split; intros Hok.
  - now rewrite posts_DELETE_absent by now apply posts_DELETE_ok_removes.
  - now rewrite comments_DELETE_absent by now apply comments_DELETE_ok_removes.
Qed.

Lemma second_delete_is_not_found_witness :
  let first := Sample.request Sample.an JUndefined JUndefined in
  let second := Sample.request Sample.chi JUndefined JUndefined in
  status (fst (PostsId.DELETE second (mkContext 10)
                 (snd (PostsId.DELETE first (mkContext 10) Sample.world))))
  = 404.
Proof.
  intros first second.
  destruct (second_delete_is_not_found first second Sample.an Sample.chi
              (mkContext 10) Sample.world eq_refl eq_refl) as [Hpost _].
  apply Hpost. reflexivity.
Defined.

(** ** Commenting on a post that does not exist *)

(** C7.  An authenticated [POST /forum/posts/{id}/comments] whose content
    passes validation, on an id that no post has, is answered 500: the
    [INSERT] is sent, the store rejects it, the handler catches the error;
    no comment row is persisted and the other tables are untouched. *)
Theorem comment_on_missing_post_is_500
    (request : Request) (user : User) (context : Context) (w : World) :
  let id := params_id context in
  session request = Some user ->
  truthy (b_content (json request)) = true ->
  find_post (db w) id = None ->
  let (response, w') := PostsIdComments.POST request context w in
  status response = 500 /\
  sent w w' = [InsertComment id (usr_id user) (b_content (json request))
                             (date request)] /\
  comments (db w') = comments (db w) /\
  forum_posts (db w') = forum_posts (db w) /\
  users (db w') = users (db w).
Proof.
  intros id Hs Hc Hp.
  unfold PostsIdComments.POST, requireAuth. rewrite Hs.
  unfold PostsIdComments.POST_handler, try_catch, bind, query.
  open_body request. rewrite Hc; simpl. fold id.
  assert (Hno : has_post (db w) id = false).
  { unfold has_post. unfold find_post in Hp.
    destruct (existsb _ _) eqn:He; [|reflexivity].
    apply existsb_exists in He as (q & Hq & Hid).
    now rewrite (find_none _ _ Hp q Hq) in Hid. }
  unfold insert_comment, comment_row_violation.
  destruct (text_param _); [|simpl; rewrite sent_app; now repeat split].
  destruct (existsb _ _); [simpl; rewrite sent_app; now repeat split|].
  rewrite Hno; simpl. rewrite sent_app. now repeat split.
Qed.

Lemma comment_on_missing_post_is_500_witness :
  let request := Sample.request Sample.an JUndefined (JStr "nice") in
  let (response, w') :=
    PostsIdComments.POST request (mkContext 999) Sample.world in
  status response = 500 /\
  sent Sample.world w' = [InsertComment 999 1 (JStr "nice") 1000] /\
  comments (db w') = comments (db Sample.world) /\
  forum_posts (db w') = forum_posts (db Sample.world) /\
  users (db w') = users (db Sample.world).
Proof.
  intros request.
  exact (comment_on_missing_post_is_500 request Sample.an (mkContext 999)
           Sample.world eq_refl eq_refl eq_refl).
Defined.

(** ** The frame of a post update *)

Lemma find_post_id (d : Db) (id : Z) (p : PostRow) :
  find_post d id = Some p -> p_id p = id.
Proof.
  intros H. apply find_some in H as [_ H]. now apply Z.eqb_eq.
Qed.

Lemma find_comment_id (d : Db) (id : Z) (r : CommentRow) :
  find_comment d id = Some r -> c_id r = id.
Proof.
  intros H. apply find_some in H as [_ H]. now apply Z.eqb_eq.
Qed.

Lemma posts_PUT_falsy (request : Request) (user : User) (context : Context)
    (w : World) :
  truthy (b_title (json request)) = false \/
  truthy (b_content (json request)) = false ->
  status (fst (PostsId.PUT_handler request user context w)) <> 200.
Proof.
  intros H. destruct (parses request) eqn:Hj.
  - now rewrite posts_PUT_invalid.
  - now rewrite posts_PUT_unparsed.
Qed.

Lemma comments_PUT_falsy (request : Request) (user : User)
    (context : Context) (w : World) :
  truthy (b_content (json request)) = false ->
  status (fst (CommentsId.PUT_handler request user context w)) <> 200.
Proof.
  intros H. destruct (parses request) eqn:Hj.
  - now rewrite comments_PUT_invalid.
  - now rewrite comments_PUT_unparsed.
Qed.

(** C8.  A [PUT /forum/posts/{id}] answered 200 found the post [p] under
    the id and changed only its title, content and [updated_at]: its id,
    [user_id] and [created_at], every other post, every comment and every
    user are as before.  The stored row is then [p] with the request's
    title and content and the request's time as [updated_at], and the
    response body is that row's id, title, content, [created_at] and
    [updated_at]. *)
Theorem update_post_changes_only_its_text
    (request : Request) (user : User) (context : Context) (w w' : World)
    (response : Response) :
  let id := params_id context in
  session request = Some user ->
  PostsId.PUT request context w = (response, w') ->
  status response = 200 ->
  exists t c p,
    find_post (db w) id = Some p /\
    text_param (b_title (json request)) = Some t /\
    text_param (b_content (json request)) = Some c /\
    Forall2 (edit_frame t c (date request) id)
            (forum_posts (db w)) (forum_posts (db w')) /\
    comments (db w') = comments (db w) /\
    users (db w') = users (db w) /\
    find_post (db w') id =
      Some (mkPost id (p_user_id p) t c (p_created_at p)
                   (Some (date request))) /\
    body response =
      JPostUpdated (mkPostUpdated id t c (p_created_at p)
                                  (Some (date request))).
Proof.
  intros id Hs Hrun Hok. unfold PostsId.PUT, requireAuth in Hrun.
  rewrite Hs in Hrun.
  destruct (truthy (b_title (json request))) eqn:Ht;
    [destruct (truthy (b_content (json request))) eqn:Hc|].
  - destruct (find_post (db w) id) as [p|] eqn:Hp.
    + destruct (truthy_has_text _ Ht) as [t Htt].
      destruct (truthy_has_text _ Hc) as [c Htc].
      rewrite (posts_PUT_existing request user context w p t c Hp Ht Hc Htt Htc)
        in Hrun.
      fold id in Hrun.
      destruct (owner_or_admin user (p_user_id p)).
      * injection Hrun as <- <-.
        pose proof (find_post_id _ _ _ Hp) as Hid.
        assert (Hset : set_post t c (date request) id p =
                       mkPost id (p_user_id p) t c (p_created_at p)
                              (Some (date request))).
        { unfold set_post. now rewrite Hid, Z.eqb_refl. }
        exists t, c, p. simpl.
        split; [reflexivity|]. split; [assumption|]. split; [assumption|].
        split; [apply set_post_frame|]. split; [reflexivity|].
        split; [reflexivity|]. split.
        -- rewrite <- Hset. now apply find_set_post.
        -- now rewrite Hset.
      * injection Hrun as <- <-. discriminate.
    + pose proof (posts_PUT_absent request user context w Hp) as H.
      rewrite Hrun in H. contradiction.
  - pose proof (posts_PUT_falsy request user context w (or_intror Hc)) as H.
    rewrite Hrun in H. contradiction.
  - pose proof (posts_PUT_falsy request user context w (or_introl Ht)) as H.
    rewrite Hrun in H. contradiction.
Qed.

Lemma update_post_changes_only_its_text_witness :
  let request := Sample.request Sample.an (JStr "Storm") (JStr "Stay in") in
  let w' := snd (PostsId.PUT request (mkContext 10) Sample.world) in
  exists t c p,
    find_post Sample.store 10 = Some p /\
    text_param (JStr "Storm") = Some t /\
    text_param (JStr "Stay in") = Some c /\
    Forall2 (edit_frame t c 1000 10)
            (forum_posts Sample.store) (forum_posts (db w')) /\
    comments (db w') = comments Sample.store /\
    users (db w') = users Sample.store /\
    find_post (db w') 10 =
      Some (mkPost 10 (p_user_id p) t c (p_created_at p) (Some 1000)) /\
    body (fst (PostsId.PUT request (mkContext 10) Sample.world)) =
      JPostUpdated (mkPostUpdated 10 t c (p_created_at p) (Some 1000)).
Proof.
  intros request w'.
  exact (update_post_changes_only_its_text request Sample.an (mkContext 10)
           Sample.world _ _ eq_refl eq_refl eq_refl).
Defined.

(** ** The like button *)

Lemma spread_id (post : ForumPage.ForumPost) : ForumPage.spread post = post.
Proof. now destruct post. Qed.

(** C9.  Whatever the page's state and the post id, the like handler leaves
    the state, its post list included, equal to what it was, and sends no
    request to the server. *)
Theorem like_is_a_no_op (postId : ForumPage.Id) (st : ForumPage.State) :
  ForumPage.handleLikePost postId st = (st, []) /\
  ForumPage.posts (fst (ForumPage.handleLikePost postId st)) =
  ForumPage.posts st.
Proof.
  assert (H : map (fun post =>
                     if ForumPage.strict_eq (ForumPage.fp_id post) postId
                     then ForumPage.spread post else post)
                  (ForumPage.posts st) = ForumPage.posts st).
  { induction (ForumPage.posts st) as [|p ps IH]; simpl; [reflexivity|].
    rewrite IH, spread_id. now destruct (ForumPage.strict_eq _ _). }
  unfold ForumPage.handleLikePost. rewrite H. split.
  - now destruct st.
  - reflexivity.
Qed.

(** ** The post list *)

Lemma filter_absent_id (us : list UserRow) (x : Z) :
  ~ In x (map u_id us) -> filter (fun u => u_id u =? x) us = [].
Proof.
  induction us as [|a us IH]; simpl; [reflexivity|].
  intros H. destruct (u_id a =? x) eqn:Ha.
  - apply Z.eqb_eq in Ha. tauto.
  - apply IH. tauto.
Qed.

Lemma filter_by_unique_id (us : list UserRow) (x : Z) :
  NoDup (map u_id us) ->
  filter (fun u => u_id u =? x) us =
  match find (fun u => u_id u =? x) us with
  | Some u => [u]
  | None => []
  end.
Proof.
  induction us as [|a us IH]; simpl; [reflexivity|].
  intros Hnd. inversion Hnd as [|? ? Hnotin Hnd']; subst.
  destruct (u_id a =? x) eqn:Ha.
  - apply Z.eqb_eq in Ha. subst x. now rewrite filter_absent_id.
  - auto.
Qed.

Lemma left_matches_by_unique_id (us : list UserRow) (x : Z) :
  NoDup (map u_id us) ->
  left_matches (fun u => u_id u =? x) us = [find (fun u => u_id u =? x) us].
Proof.
  intros Hnd. unfold left_matches. rewrite (filter_by_unique_id us x Hnd).
  now destruct (find _ us).
Qed.

Lemma filter_none {A} (l : list A) : filter (fun _ => false) l = [].
Proof. induction l; simpl; auto. Qed.

Lemma existsb_find {A} (f : A -> bool) (l : list A) :
  existsb f l = true -> exists x, find f l = Some x.
Proof.
  induction l as [|a l IH]; simpl; [discriminate|].
  destruct (f a); [now exists a | exact IH].
Qed.

Lemma comment_rows_wf (d : Db) (p : PostRow) (u : UserRow)
    (l : list CommentRow) :
  NoDup (map u_id (users d)) ->
  flat_map (fun oc =>
              map (fun ocu => mkJoined p u oc ocu)
                  (left_matches (on_comment_user oc) (users d)))
           (map Some l) =
  map (fun c => mkJoined p u (Some c) (user_by_id d (c_user_id c))) l.
Proof.
  intros Hnd. induction l as [|c l IH]; simpl; [reflexivity|].
  rewrite IH. unfold on_comment_user at 1.
  now rewrite (left_matches_by_unique_id _ _ Hnd).
Qed.

Lemma post_rows_wf (d : Db) (p : PostRow) (u : UserRow) :
  NoDup (map u_id (users d)) ->
  user_by_id d (p_user_id p) = Some u ->
  post_rows d p =
  match filter (fun c => c_post_id c =? p_id p) (comments d) with
  | [] => [mkJoined p u None None]
  | m => map (fun c => mkJoined p u (Some c) (user_by_id d (c_user_id c))) m
  end.
Proof.
  intros Hnd Hu. unfold post_rows.
  unfold user_by_id in Hu. rewrite (filter_by_unique_id _ _ Hnd), Hu.
  simpl. rewrite app_nil_r.
  unfold left_matches at 2.
  destruct (filter _ (comments d)) as [|c1 m].
  - simpl. unfold left_matches. now rewrite filter_none.
  - apply (comment_rows_wf d p u (c1 :: m) Hnd).
Qed.

Lemma post_rows_jp (d : Db) (p : PostRow) (j : Joined) :
  In j (post_rows d p) -> jp j = p.
Proof.
  unfold post_rows. intros H.
  apply in_flat_map in H as (u & _ & H).
  apply in_flat_map in H as (oc & _ & H).
  apply in_map_iff in H as (ocu & <- & _). reflexivity.
Qed.

Lemma key_eqb_refl (k : GroupKey) : key_eqb k k = true.
Proof.
  destruct k as [[a b] c]; simpl.
  now rewrite !Z.eqb_refl, String.eqb_refl.
Qed.

Lemma key_eqb_post_id (k1 k2 : GroupKey) :
  key_eqb k1 k2 = true -> fst (fst k1) = fst (fst k2).
Proof.
  destruct k1 as [[a1 b1] c1], k2 as [[a2 b2] c2]; simpl.
  intros H. apply andb_prop in H as [H _]. apply andb_prop in H as [H _].
  now apply Z.eqb_eq.
Qed.

Lemma group_by_keys (l : list Joined) (g : GroupKey * list Joined) :
  In g (group_by l) -> exists j, In j l /\ group_key j = fst g.
Proof.
  revert g. induction l as [|j l IH]; simpl; [tauto|].
  intros g. unfold add_to_groups.
  destruct (existsb _ (group_by l)).
  - intros H. apply in_map_iff in H as (g0 & Hg & Hin).
    destruct (IH g0 Hin) as (j0 & Hj0 & Hk).
    exists j0. split; [now right|].
    destruct (key_eqb _ _); subst g; simpl; exact Hk.
  - intros [<- | Hin].
    + exists j. split; [now left | reflexivity].
    + destruct (IH g Hin) as (j0 & Hj0 & Hk). exists j0. split; [now right|auto].
Qed.

Lemma map_unmatched (k : GroupKey) (j : Joined)
    (gs : list (GroupKey * list Joined)) :
  existsb (fun g => key_eqb k (fst g)) gs = false ->
  map (fun g => if key_eqb k (fst g) then (fst g, j :: snd g) else g) gs = gs.
Proof.
  induction gs as [|g gs IH]; simpl; [reflexivity|].
  intros H. apply orb_false_iff in H as [Hg Hgs].
  now rewrite Hg, IH.
Qed.

Lemma group_by_block (k : GroupKey) (rows rest : list Joined) :
  rows <> [] ->
  Forall (fun j => group_key j = k) rows ->
  existsb (fun g => key_eqb k (fst g)) (group_by rest) = false ->
  group_by (rows ++ rest) = (k, rows) :: group_by rest.
Proof.
  intros Hne Hall Hfresh.
  induction rows as [|j rows IH]; [congruence|].
  inversion Hall as [|? ? Hj Hrows]; subst. simpl.
  destruct rows as [|j' rows'].
  - simpl. unfold add_to_groups. now rewrite Hfresh.
  - rewrite IH by (auto; discriminate).
    unfold add_to_groups. cbn [existsb map fst snd].
    rewrite key_eqb_refl. cbn [orb].
    now rewrite map_unmatched.
Qed.

Lemma comment_objects_rows (d : Db) (p : PostRow) (u : UserRow)
    (l : list CommentRow) :
  comment_objects
    (map (fun c => mkJoined p u (Some c) (user_by_id d (c_user_id c))) l) =
  map (comment_json d) l.
Proof.
  induction l as [|c l IH]; [reflexivity|].
  unfold comment_objects in *. simpl. now rewrite IH.
Qed.

Lemma post_rows_nonempty (d : Db) (p : PostRow) (u : UserRow) :
  NoDup (map u_id (users d)) ->
  user_by_id d (p_user_id p) = Some u ->
  post_rows d p <> [] /\
  Forall (fun j => group_key j = (p_id p, u_id u, u_name u)) (post_rows d p).
Proof.
  intros Hnd Hu. rewrite (post_rows_wf d p u Hnd Hu).
  destruct (filter _ (comments d)) as [|c1 m].
  - split; [discriminate | now repeat constructor].
  - split; [discriminate|].
    apply Forall_forall. intros j Hj.
    apply in_map_iff in Hj as (c & <- & _). reflexivity.
Qed.

Lemma select_group_post (d : Db) (p : PostRow) (u : UserRow) (k : GroupKey) :
  NoDup (map u_id (users d)) ->
  user_by_id d (p_user_id p) = Some u ->
  select_group (k, post_rows d p) = [post_json d p].
Proof.
  intros Hnd Hu. unfold select_group, post_json. cbn [snd].
  rewrite (post_rows_wf d p u Hnd Hu), Hu.
  destruct (filter _ (comments d)) as [|c1 m]; [reflexivity|].
  rewrite comment_objects_rows. reflexivity.
Qed.

Lemma fresh_group_key (d : Db) (p : PostRow) (ps : list PostRow) (x : Z)
    (y : string) :
  ~ In (p_id p) (map p_id ps) ->
  existsb (fun g => key_eqb (p_id p, x, y) (fst g))
          (group_by (flat_map (post_rows d) ps)) = false.
Proof.
  intros Hnotin.
  destruct (existsb _ _) eqn:He; [exfalso|reflexivity].
  apply existsb_exists in He as (g & Hg & Hk).
  apply key_eqb_post_id in Hk. simpl in Hk.
  destruct (group_by_keys _ _ Hg) as (j & Hj & Hkey).
  apply in_flat_map in Hj as (q & Hq & Hj).
  apply post_rows_jp in Hj.
  apply Hnotin. apply in_map_iff. exists q. split; [|exact Hq].
  rewrite Hk, <- Hkey, <- Hj. reflexivity.
Qed.

Lemma grouped_posts (d : Db) (ps : list PostRow) :
  NoDup (map u_id (users d)) ->
  NoDup (map p_id ps) ->
  (forall p, In p ps -> has_user d (p_user_id p) = true) ->
  flat_map select_group (group_by (flat_map (post_rows d) ps)) =
  map (post_json d) ps.
Proof.
  intros Hnd Hps Hfk.
  induction ps as [|p ps IH]; [reflexivity|].
  inversion Hps as [|? ? Hnotin Hps']; subst.
  destruct (existsb_find _ _ (Hfk p (or_introl eq_refl))) as [u Hu].
  destruct (post_rows_nonempty d p u Hnd Hu) as [Hne Hkeys].
  cbn [flat_map map].
  rewrite (group_by_block _ _ _ Hne Hkeys)
    by now apply fresh_group_key.
  cbn [flat_map].
  rewrite (select_group_post d p u _ Hnd Hu).
  rewrite IH; auto. intros q Hq. apply Hfk. now right.
Qed.

Lemma insert_desc_perm (r : PostJson) (l : list PostJson) :
  Permutation (insert_desc r l) (r :: l).
Proof.
  induction l as [|x l IH]; simpl; [reflexivity|].
  destruct (pj_created_at x <=? pj_created_at r); [reflexivity|].
  rewrite IH. apply perm_swap.
Qed.

Lemma order_by_perm (l : list PostJson) :
  Permutation (order_by_created_at_desc l) l.
Proof.
  induction l as [|r l IH]; simpl; [reflexivity|].
  rewrite insert_desc_perm. now constructor.
Qed.

Lemma insert_desc_sorted (r : PostJson) (l : list PostJson) :
  StronglySorted newer_or_same l ->
  StronglySorted newer_or_same (insert_desc r l).
Proof.
  induction 1 as [|x l Hl IH Hx]; simpl.
  - repeat constructor.
  - destruct (pj_created_at x <=? pj_created_at r) eqn:Hle.
    + apply Z.leb_le in Hle. constructor; [now constructor|].
      constructor; [exact Hle|].
      eapply Forall_impl; [|exact Hx].
      unfold newer_or_same. intros; lia.
    + apply Z.leb_gt in Hle. constructor; [exact IH|].
      eapply Permutation_Forall;
        [symmetry; apply insert_desc_perm|].
      constructor; [unfold newer_or_same; lia | exact Hx].
Qed.

Lemma order_by_sorted (l : list PostJson) :
  StronglySorted newer_or_same (order_by_created_at_desc l).
Proof.
  induction l as [|r l IH]; simpl; [constructor|].
  now apply insert_desc_sorted.
Qed.

Lemma GET_runs_the_list_query (w : World) :
  Posts.GET w =
  (mkResponse
     (JPosts (order_by_created_at_desc
                (flat_map select_group
                   (group_by (flat_map (post_rows (db w))
                                       (forum_posts (db w)))))))
     200,
   mkWorld (db w) (journal w ++ [SelectPostsWithComments])).
Proof. reflexivity. Qed.

(** C6.  [GET /forum/posts] is served without any actor: the handler takes
    only the store.  On a store that meets its key constraints it answers
    200 with one entry per post, newest [created_at] first; every entry
    embeds the author [{id, name}] of the post, and its comments form a
    list, the empty list when no comment references the post. *)
Theorem list_posts_returns_every_post_newest_first (w : World) :
  wf_db (db w) ->
  exists rows,
    Posts.GET w =
      (mkResponse (JPosts rows) 200,
       mkWorld (db w) (journal w ++ [SelectPostsWithComments])) /\
    Permutation rows (map (post_json (db w)) (forum_posts (db w))) /\
    StronglySorted newer_or_same rows /\
    (forall r, In r rows ->
       exists u, In u (users (db w)) /\ u_id u = pj_user_id r /\
                 pj_author r = mkAuthor (Some (u_id u)) (Some (u_name u))) /\
    (forall r, In r rows ->
       (forall c, In c (comments (db w)) -> c_post_id c <> pj_id r) ->
       pj_comments r = []).
Proof.
  intros (Hus & Hps & Hfk).
  exists (order_by_created_at_desc
            (map (post_json (db w)) (forum_posts (db w)))).
  assert (Hentry : forall r,
             In r (order_by_created_at_desc
                     (map (post_json (db w)) (forum_posts (db w)))) ->
             exists p, In p (forum_posts (db w)) /\ r = post_json (db w) p).
  { intros r Hr.
    apply (Permutation_in _ (order_by_perm _)) in Hr.
    apply in_map_iff in Hr as (p & <- & Hp). now exists p. }
  split; [|split; [|split; [|split]]].
  - rewrite GET_runs_the_list_query.
    now rewrite (grouped_posts (db w) (forum_posts (db w)) Hus Hps Hfk).
  - apply order_by_perm.
  - apply order_by_sorted.
  - intros r Hr. destruct (Hentry r Hr) as (p & Hp & ->).
    destruct (existsb_find _ _ (Hfk p Hp)) as [u Hu].
    exists u. destruct (find_some _ _ Hu) as [Hin Hid].
    apply Z.eqb_eq in Hid. unfold post_json, user_by_id; simpl.
    rewrite Hu. now repeat split.
  - intros r Hr Hnone. destruct (Hentry r Hr) as (p & Hp & ->).
    simpl in *.
    assert (Hf : filter (fun c => c_post_id c =? p_id p) (comments (db w))
                 = []).
    { induction (comments (db w)) as [|c cs IH]; simpl; [reflexivity|].
      destruct (c_post_id c =? p_id p) eqn:Hc.
      - apply Z.eqb_eq in Hc. exfalso. apply (Hnone c); [now left | exact Hc].
      - apply IH. intros c' Hc'. apply Hnone. now right. }
    now rewrite Hf.
Qed.

Lemma sample_store_wf : wf_db Sample.store.
Proof.
  split; [|split].
  - repeat constructor; simpl; intuition discriminate.
  - repeat constructor; simpl; intuition discriminate.
  - intros p [<-|[<-|[<-|[]]]]; reflexivity.
Defined.

Lemma list_posts_returns_every_post_newest_first_witness :
  exists rows,
    Posts.GET Sample.world =
      (mkResponse (JPosts rows) 200,
       mkWorld Sample.store [SelectPostsWithComments]) /\
    Permutation rows (map (post_json Sample.store) (forum_posts Sample.store))
    /\
    StronglySorted newer_or_same rows /\
    (forall r, In r rows ->
       exists u, In u (users Sample.store) /\ u_id u = pj_user_id r /\
                 pj_author r = mkAuthor (Some (u_id u)) (Some (u_name u))) /\
    (forall r, In r rows ->
       (forall c, In c (comments Sample.store) -> c_post_id c <> pj_id r) ->
       pj_comments r = []).
Proof.
  exact (list_posts_returns_every_post_newest_first Sample.world
           sample_store_wf).
Defined.

(** ** The handlers on the sample forum *)

Example sample_list_order :
  match body (fst (Posts.GET Sample.world)) with
  | JPosts rows =>
      map pj_id rows = [11; 12; 10] /\
      map (fun r => map cj_id (pj_comments r)) rows = [[22]; []; [20; 21]]
  | _ => False
  end.
Proof. now vm_compute. Qed.

Example sample_scenario_edit :
  let binh_edits := Sample.request Sample.binh (JStr "Storm") (JStr "Stay in") in
  let chi_edits := Sample.request Sample.chi (JStr "Storm") (JStr "Stay in") in
  status (fst (PostsId.PUT binh_edits (mkContext 10) Sample.world)) = 403 /\
  fst (PostsId.PUT chi_edits (mkContext 10) Sample.world) =
  mkResponse (JPostUpdated (mkPostUpdated 10 "Storm" "Stay in" 100 (Some 1000)))
             200.
Proof. now vm_compute. Qed.

Example sample_create_post :
  let request := Sample.request Sample.an (JStr "Rain") (JStr "Heavy rain today") in
  fst (Posts.POST request (mkContext 0) Sample.world) =
  mkResponse (JPostInserted (mkPostInserted 13 "Rain" "Heavy rain today" 1000))
             201.
Proof. now vm_compute. Qed.

Example sample_unauthenticated :
  status (fst (PostsId.DELETE (mkRequest None NotJson 0)
                 (mkContext 10) Sample.world)) = 401.
Proof. reflexivity. Qed.

(** ** Invariants of the store across the whole API *)

Section Preservation.

Variable P : Db -> Prop.

Lemma preserves_ret {A} (a : A) : preserves P (ret a).
Proof. intros w H. exact H. Qed.

Lemma preserves_throw {A} (e : string) : preserves P (@throw A e).
Proof. intros w H. exact H. Qed.

Lemma preserves_bind {A B} (m : M A) (k : A -> M B) :
  preserves P m -> (forall a, preserves P (k a)) -> preserves P (bind m k).
Proof.
  intros Hm Hk w H. unfold bind. specialize (Hm w H).
  destruct (m w) as [[a|e] w1]; simpl in *; [now apply Hk | exact Hm].
Qed.

Lemma preserves_query {A} (q : Stmt) (run : Db -> Outcome A * Db) :
  (forall d, P d -> P (snd (run d))) -> preserves P (query q run).
Proof.
  intros Hrun w H. unfold query. specialize (Hrun (db w) H).
  now destruct (run (db w)).
Qed.

Lemma preserves_try_catch {A} (m : M A) (h : A) (w : World) :
  preserves P m -> P (db w) -> P (db (snd (try_catch m h w))).
Proof.
  intros Hm H. unfold try_catch. specialize (Hm w H).
  now destruct (m w) as [[a|e] w1].
Qed.

Lemma preserves_request_json (request : Request) :
  preserves P (request_json request).
Proof.
  unfold request_json. destruct (payload request); intros w H; exact H.
Qed.

Lemma preserves_destructure (body : Payload) : preserves P (destructure body).
Proof. destruct body; intros w H; exact H. Qed.

Hypothesis update_post_keeps :
  forall t c now id d, P d -> P (snd (update_post t c now id d)).
Hypothesis update_comment_keeps :
  forall c now id d, P d -> P (snd (update_comment c now id d)).
Hypothesis delete_comments_of_post_keeps :
  forall id d, P d -> P (snd (delete_comments_of_post id d)).
Hypothesis delete_post_keeps :
  forall id d, P d -> P (snd (delete_post id d)).
Hypothesis delete_comment_keeps :
  forall id d, P d -> P (snd (delete_comment id d)).
Hypothesis insert_post_keeps :
  forall u t c now d, P d -> P (snd (insert_post u t c now d)).
Hypothesis insert_comment_keeps :
  forall p u c now d, P d -> P (snd (insert_comment p u c now d)).

Ltac keep :=
  repeat first
    [ apply preserves_ret
    | apply preserves_throw
    | apply preserves_request_json
    | apply preserves_destructure
    | apply preserves_bind; [|intros ?]
    | apply preserves_query; intros ? ?; auto
    | match goal with
      | |- preserves _ (if ?b then _ else _) => destruct b
      | |- preserves _ (match ?x with _ => _ end) => destruct x
      | |- preserves _ (NextResponse_json_row _ _ _) =>
          unfold NextResponse_json_row
      end ].

Lemma serve_preserves (r : Route) (request : Request) (context : Context)
    (w : World) :
  P (db w) -> P (db (snd (serve r request context w))).
Proof.
  intros H.
  destruct r as [| | |[| | |]]; simpl;
    unfold Posts.GET, Posts.POST, PostsIdComments.POST, PostsId.PUT,
      PostsId.DELETE, CommentsId.PUT, CommentsId.DELETE, requireAuth;
    try (destruct (session request) as [user|]; [|exact H]);
    unfold Posts.POST_handler, PostsIdComments.POST_handler,
      PostsId.PUT_handler, PostsId.DELETE_handler, CommentsId.PUT_handler,
      CommentsId.DELETE_handler;
    first [exact H | (apply preserves_try_catch; [|exact H]); cbv zeta; keep].
Qed.

End Preservation.

Lemma serve_all_invariant (P : Db -> Prop) :
  (forall r request context w,
     P (db w) -> P (db (snd (serve r request context w)))) ->
  forall calls w, P (db w) -> P (db (serve_all calls w)).
Proof.
  intros Hstep calls.
  induction calls as [|[[r request] context] calls IH]; simpl; [auto|].
  intros w H. apply IH. now apply Hstep.
Qed.

(** What each mutating statement leaves behind. *)

Lemma update_post_tables (t c : JsVal) (now id : Z) (d : Db) :
  snd (update_post t c now id d) = d \/
  exists t' c',
    snd (update_post t c now id d) =
    with_forum_posts d (map (set_post t' c' now id) (forum_posts d)).
Proof.
  unfold update_post.
  destruct (text_param t) as [t'|]; [destruct (text_param c) as [c'|]|].
  - right. now exists t', c'.
  - left. now destruct (has_post d id).
  - left. now destruct (has_post d id).
Qed.

Lemma update_comment_tables (c : JsVal) (now id : Z) (d : Db) :
  snd (update_comment c now id d) = d \/
  exists c',
    snd (update_comment c now id d) =
    with_comments d (map (set_comment c' now id) (comments d)).
Proof.
  unfold update_comment. destruct (text_param c) as [c'|].
  - right. now exists c'.
  - left. now destruct (existsb _ _).
Qed.

Lemma delete_post_tables (id : Z) (d : Db) :
  snd (delete_post id d) = d \/
  snd (delete_post id d) =
  with_forum_posts d (filter (fun p => negb (p_id p =? id)) (forum_posts d)).
Proof.
  unfold delete_post. destruct (post_removal_violation d id); auto.
Qed.

Lemma insert_post_tables (u : Z) (t c : JsVal) (now : Z) (d : Db) :
  snd (insert_post u t c now d) = next_post_id d \/
  exists t' c',
    has_post d (forum_posts_id_seq d) = false /\
    has_user d u = true /\
    snd (insert_post u t c now d) =
    with_forum_posts (next_post_id d)
      (forum_posts d ++ [mkPost (forum_posts_id_seq d) u t' c' now None]).
Proof.
  unfold insert_post, post_row_violation.
  destruct (text_param t) as [t'|]; [destruct (text_param c) as [c'|]|];
    auto.
  destruct (has_post d (forum_posts_id_seq d)) eqn:Hp; auto.
  destruct (has_user d u) eqn:Hu; simpl; auto.
  right. now exists t', c'.
Qed.

Lemma insert_comment_tables (p u : Z) (c : JsVal) (now : Z) (d : Db) :
  snd (insert_comment p u c now d) = next_comment_id d \/
  exists c',
    existsb (fun r => c_id r =? comments_id_seq d) (comments d) = false /\
    snd (insert_comment p u c now d) =
    with_comments (next_comment_id d)
      (comments d ++ [mkComment (comments_id_seq d) p u c' now None]).
Proof.
  unfold insert_comment, comment_row_violation.
  destruct (text_param c) as [c'|]; auto.
  destruct (existsb _ (comments d)) eqn:Hc; auto.
  destruct (negb (has_post d p) || negb (has_user d u)); auto.
  right. now exists c'.
Qed.

Lemma find_none_intro {A} (f : A -> bool) (l : list A) :
  (forall x, In x l -> f x = false) -> find f l = None.
Proof.
  induction l as [|a l IH]; simpl; [reflexivity|].
  intros H. rewrite (H a (or_introl eq_refl)). apply IH. auto.
Qed.

Lemma set_post_keys (t c : string) (now id : Z) (p : PostRow) :
  p_id (set_post t c now id p) = p_id p /\
  p_user_id (set_post t c now id p) = p_user_id p.
Proof. unfold set_post. now destruct (p_id p =? id). Qed.

Lemma set_comment_key (c : string) (now id : Z) (r : CommentRow) :
  c_id (set_comment c now id r) = c_id r.
Proof. unfold set_comment. now destruct (c_id r =? id). Qed.

Lemma NoDup_map_filter {A} (key : A -> Z) (f : A -> bool) (l : list A) :
  NoDup (map key l) -> NoDup (map key (filter f l)).
Proof.
  induction l as [|a l IH]; simpl; [auto|].
  intros H. inversion H as [|? ? Hnotin Hnd]; subst.
  destruct (f a); simpl; [|auto].
  constructor; [|auto].
  intros Hin. apply Hnotin. apply in_map_iff in Hin as (x & Hx & Hin).
  apply in_map_iff. exists x. split; [exact Hx|].
  now apply filter_In in Hin.
Qed.

(** The key constraints hold after every call. *)
Lemma serve_preserves_wf (r : Route) (request : Request) (context : Context)
    (w : World) :
  wf_db (db w) -> wf_db (db (snd (serve r request context w))).
Proof.
  apply serve_preserves.
  - intros t c now id d (Hu & Hp & Hfk).
    destruct (update_post_tables t c now id d) as [-> | (t' & c' & ->)];
      [now repeat split|].
    split; [exact Hu|]. split; simpl.
    + rewrite map_map.
      rewrite (map_ext _ p_id); [exact Hp|].
      intros p. apply set_post_keys.
    + intros q Hq. apply in_map_iff in Hq as (p & <- & Hin).
      destruct (set_post_keys t' c' now id p) as [_ ->]. now apply Hfk.
  - intros c now id d H.
    destruct (update_comment_tables c now id d) as [-> | (c' & ->)]; exact H.
  - intros id d H. exact H.
  - intros id d (Hu & Hp & Hfk).
    destruct (delete_post_tables id d) as [-> | ->]; [now repeat split|].
    split; [exact Hu|]. split; simpl.
    + now apply NoDup_map_filter.
    + intros q Hq. apply filter_In in Hq as [Hq _]. now apply Hfk.
  - intros id d H. exact H.
  - intros u t c now d (Hu & Hp & Hfk).
    destruct (insert_post_tables u t c now d)
      as [-> | (t' & c' & Hfresh & Huser & ->)]; [now repeat split|].
    split; [exact Hu|]. split; simpl.
    + rewrite map_app. simpl.
      apply Permutation_NoDup
        with (forum_posts_id_seq d :: map p_id (forum_posts d)).
      * apply Permutation_cons_append.
      * constructor; [|exact Hp].
        intros Hin. apply in_map_iff in Hin as (p & Hid & Hin).
        unfold has_post in Hfresh.
        assert (Ht : existsb (fun p => p_id p =? forum_posts_id_seq d)
                             (forum_posts d) = true).
        { apply existsb_exists. exists p. split; [exact Hin|].
          now apply Z.eqb_eq. }
        congruence.
    + intros q Hq. apply in_app_or in Hq as [Hq | [<- | []]].
      * now apply Hfk.
      * exact Huser.
  - intros p u c now d H.
    destruct (insert_comment_tables p u c now d) as [-> | (c' & _ & ->)];
      exact H.
Qed.

(** Keys stay below their sequence after every call. *)
Lemma serve_preserves_ids_below_seq (r : Route) (request : Request)
    (context : Context) (w : World) :
  ids_below_seq (db w) ->
  ids_below_seq (db (snd (serve r request context w))).
Proof.
  apply serve_preserves.
  - intros t c now id d [Hp Hc].
    destruct (update_post_tables t c now id d) as [-> | (t' & c' & ->)];
      [now split|].
    split; [|exact Hc]. simpl. intros q Hq.
    apply in_map_iff in Hq as (p & <- & Hin).
    destruct (set_post_keys t' c' now id p) as [-> _]. now apply Hp.
  - intros c now id d [Hp Hc].
    destruct (update_comment_tables c now id d) as [-> | (c' & ->)];
      [now split|].
    split; [exact Hp|]. simpl. intros q Hq.
    apply in_map_iff in Hq as (r0 & <- & Hin).
    rewrite set_comment_key. now apply Hc.
  - intros id d [Hp Hc]. split; [exact Hp|]. simpl. intros q Hq.
    apply filter_In in Hq as [Hq _]. now apply Hc.
  - intros id d [Hp Hc].
    destruct (delete_post_tables id d) as [-> | ->]; [now split|].
    split; [|exact Hc]. simpl. intros q Hq.
    apply filter_In in Hq as [Hq _]. now apply Hp.
  - intros id d [Hp Hc]. split; [exact Hp|]. simpl. intros q Hq.
    apply filter_In in Hq as [Hq _]. now apply Hc.
  - intros u t c now d [Hp Hc].
    destruct (insert_post_tables u t c now d)
      as [-> | (t' & c' & _ & _ & ->)]; split; simpl; auto.
    + intros q Hq. specialize (Hp q Hq). lia.
    + intros q Hq. apply in_app_or in Hq as [Hq | [<- | []]]; simpl.
      * specialize (Hp q Hq). lia.
      * lia.
  - intros p u c now d [Hp Hc].
    destruct (insert_comment_tables p u c now d) as [-> | (c' & _ & ->)];
      split; simpl; auto.
    + intros q Hq. specialize (Hc q Hq). lia.
    + intros q Hq. apply in_app_or in Hq as [Hq | [<- | []]]; simpl.
      * specialize (Hc q Hq). lia.
      * lia.
Qed.

Lemma find_map_none {A} (f : A -> bool) (g : A -> A) (l : list A) :
  (forall x, f (g x) = f x) -> find f l = None -> find f (map g l) = None.
Proof.
  intros Hfg Hnone. apply find_none_intro. intros y Hy.
  apply in_map_iff in Hy as (x & <- & Hx).
  rewrite Hfg. exact (find_none _ _ Hnone x Hx).
Qed.

Lemma find_filter_none {A} (f h : A -> bool) (l : list A) :
  find f l = None -> find f (filter h l) = None.
Proof.
  intros Hnone. apply find_none_intro. intros y Hy.
  apply filter_In in Hy as [Hy _]. exact (find_none _ _ Hnone y Hy).
Qed.

Lemma find_app_none {A} (f : A -> bool) (l : list A) (x : A) :
  find f l = None -> f x = false -> find f (l ++ [x]) = None.
Proof.
  intros Hnone Hx. apply find_none_intro. intros y Hy.
  apply in_app_or in Hy as [Hy | [<- | []]];
    [exact (find_none _ _ Hnone y Hy) | exact Hx].
Qed.

(** A retired post id is never handed out again, and no call brings a row
    with it back. *)
Lemma serve_preserves_post_retired (id0 : Z) (r : Route) (request : Request)
    (context : Context) (w : World) :
  post_retired id0 (db w) ->
  post_retired id0 (db (snd (serve r request context w))).
Proof.
  apply serve_preserves; unfold post_retired, find_post.
  - intros t c now id d [Hf Hs].
    destruct (update_post_tables t c now id d) as [-> | (t' & c' & ->)];
      [now split|].
    split; [|exact Hs]. simpl. apply find_map_none; [|exact Hf].
    intros p. now destruct (set_post_keys t' c' now id p) as [-> _].
  - intros c now id d H.
    destruct (update_comment_tables c now id d) as [-> | (c' & ->)]; exact H.
  - intros id d H. exact H.
  - intros id d [Hf Hs].
    destruct (delete_post_tables id d) as [-> | ->]; [now split|].
    split; [|exact Hs]. simpl. now apply find_filter_none.
  - intros id d H. exact H.
  - intros u t c now d [Hf Hs].
    destruct (insert_post_tables u t c now d)
      as [-> | (t' & c' & _ & _ & ->)]; split; simpl; auto; try lia.
    apply find_app_none; [exact Hf|]. simpl. apply Z.eqb_neq. lia.
  - intros p u c now d H.
    destruct (insert_comment_tables p u c now d) as [-> | (c' & _ & ->)];
      exact H.
Qed.

Lemma serve_preserves_comment_retired (id0 : Z) (r : Route)
    (request : Request) (context : Context) (w : World) :
  comment_retired id0 (db w) ->
  comment_retired id0 (db (snd (serve r request context w))).
Proof.
  apply serve_preserves; unfold comment_retired, find_comment.
  - intros t c now id d H.
    destruct (update_post_tables t c now id d) as [-> | (t' & c' & ->)];
      exact H.
  - intros c now id d [Hf Hs].
    destruct (update_comment_tables c now id d) as [-> | (c' & ->)];
      [now split|].
    split; [|exact Hs]. simpl. apply find_map_none; [|exact Hf].
    intros x. now rewrite set_comment_key.
  - intros id d [Hf Hs]. split; [|exact Hs]. simpl.
    now apply find_filter_none.
  - intros id d H.
    destruct (delete_post_tables id d) as [-> | ->]; exact H.
  - intros id d [Hf Hs]. split; [|exact Hs]. simpl.
    now apply find_filter_none.
  - intros u t c now d H.
    destruct (insert_post_tables u t c now d)
      as [-> | (t' & c' & _ & _ & ->)]; exact H.
  - intros p u c now d [Hf Hs].
    destruct (insert_comment_tables p u c now d) as [-> | (c' & _ & ->)];
      split; simpl; auto; try lia.
    apply find_app_none; [exact Hf|]. simpl. apply Z.eqb_neq. lia.
Qed.

Lemma posts_DELETE_ok_retires (request : Request) (user : User)
    (context : Context) (w : World) :
  ids_below_seq (db w) ->
  status (fst (PostsId.DELETE_handler request user context w)) = 200 ->
  post_retired (params_id context)
    (db (snd (PostsId.DELETE_handler request user context w))).
Proof.
  intros [Hbelow _] Hok. split; [now apply posts_DELETE_ok_removes|].
  destruct (find_post (db w) (params_id context)) as [p|] eqn:Hp.
  - rewrite (posts_DELETE_existing request user context w p Hp) in *.
    destruct (find_some _ _ Hp) as [Hin Hid]. apply Z.eqb_eq in Hid.
    specialize (Hbelow p Hin).
    destruct (owner_or_admin user (p_user_id p)); simpl; lia.
  - rewrite (posts_DELETE_absent request user context w Hp) in Hok.
    discriminate.
Qed.

Lemma comments_DELETE_ok_retires (request : Request) (user : User)
    (context : Context) (w : World) :
  ids_below_seq (db w) ->
  status (fst (CommentsId.DELETE_handler request user context w)) = 200 ->
  comment_retired (params_id context)
    (db (snd (CommentsId.DELETE_handler request user context w))).
Proof.
  intros [_ Hbelow] Hok. split; [now apply comments_DELETE_ok_removes|].
  destruct (find_comment (db w) (params_id context)) as [r|] eqn:Hr.
  - rewrite (comments_DELETE_existing request user context w r Hr) in *.
    destruct (find_some _ _ Hr) as [Hin Hid]. apply Z.eqb_eq in Hid.
    specialize (Hbelow r Hin).
    destruct (owner_or_admin user (c_user_id r)); simpl; lia.
  - rewrite (comments_DELETE_absent request user context w Hr) in Hok.
    discriminate.
Qed.

(** Deletion is final: in a store whose keys come from its sequences, once a
    [DELETE] on a post id or a comment id has succeeded, a later
    authenticated [DELETE] on that id is answered 404 whatever calls were
    served in between. *)
Theorem deleted_id_stays_not_found
    (first later : Request) (user user' : User) (context : Context)
    (calls : list (Route * Request * Context)) (w : World) :
  ids_below_seq (db w) ->
  session first = Some user ->
  session later = Some user' ->
  (status (fst (PostsId.DELETE first context w)) = 200 ->
   status (fst (PostsId.DELETE later context
                  (serve_all calls (snd (PostsId.DELETE first context w)))))
   = 404) /\
  (status (fst (CommentsId.DELETE first context w)) = 200 ->
   status (fst (CommentsId.DELETE later context
                  (serve_all calls (snd (CommentsId.DELETE first context w)))))
   = 404).
Proof.
  intros Hseq H1 H2.
  unfold PostsId.DELETE, CommentsId.DELETE, requireAuth. rewrite H1, H2.
  split; intros Hok.
  - rewrite posts_DELETE_absent; [reflexivity|].
    apply (serve_all_invariant (post_retired (params_id context))).
    + intros r request ctx w0. apply serve_preserves_post_retired.
    + now apply posts_DELETE_ok_retires.
  - rewrite comments_DELETE_absent; [reflexivity|].
    apply (serve_all_invariant (comment_retired (params_id context))).
    + intros r request ctx w0. apply serve_preserves_comment_retired.
    + now apply comments_DELETE_ok_retires.
Qed.

Lemma sample_store_ids_below_seq : ids_below_seq Sample.store.
Proof.
  split.
  - intros p [<-|[<-|[<-|[]]]]; reflexivity.
  - intros c [<-|[<-|[<-|[]]]]; reflexivity.
Defined.

Lemma deleted_id_stays_not_found_witness :
  let an_deletes := Sample.request Sample.an JUndefined JUndefined in
  let an_posts := Sample.request Sample.an (JStr "Fog") (JStr "Low visibility") in
  status (fst (PostsId.DELETE an_deletes (mkContext 10)
                 (serve_all [(CreatePost, an_posts, mkContext 0);
                             (ListPosts, an_posts, mkContext 0)]
                    (snd (PostsId.DELETE an_deletes (mkContext 10)
                            Sample.world))))) = 404.
Proof.
  intros an_deletes an_posts.
  destruct (deleted_id_stays_not_found an_deletes an_deletes Sample.an
              Sample.an (mkContext 10)
              [(CreatePost, an_posts, mkContext 0);
               (ListPosts, an_posts, mkContext 0)]
              Sample.world sample_store_ids_below_seq eq_refl eq_refl)
    as [Hpost _].
  apply Hpost. reflexivity.
Defined.

(** ** Creating posts and comments *)

(** An authenticated [POST /forum/posts] with a title and a content that
    pass validation, by an actor who has a row in [users], on a store whose
    next post id is free, is answered 201 with the new row; the store gains
    exactly that post, owned by the actor, created at the request's instant,
    at the end of [forum_posts], and nothing else changes but the
    sequence. *)
Theorem create_post_appends_the_actors_post
    (request : Request) (user : User) (context : Context) (w : World) :
  let id := forum_posts_id_seq (db w) in
  session request = Some user ->
  truthy (b_title (json request)) = true ->
  truthy (b_content (json request)) = true ->
  has_user (db w) (usr_id user) = true ->
  has_post (db w) id = false ->
  exists t c,
    text_param (b_title (json request)) = Some t /\
    text_param (b_content (json request)) = Some c /\
    fst (Posts.POST request context w) =
      mkResponse (JPostInserted (mkPostInserted id t c (date request))) 201 /\
    forum_posts (db (snd (Posts.POST request context w))) =
      (forum_posts (db w) ++
       [mkPost id (usr_id user) t c (date request) None])%list /\
    comments (db (snd (Posts.POST request context w))) = comments (db w) /\
    users (db (snd (Posts.POST request context w))) = users (db w) /\
    forum_posts_id_seq (db (snd (Posts.POST request context w))) = id + 1.
Proof.
  intros id Hs Ht Hc Hu Hfresh.
  destruct (truthy_has_text _ Ht) as [t Htt].
  destruct (truthy_has_text _ Hc) as [c Htc].
  exists t, c. split; [exact Htt|]. split; [exact Htc|].
  unfold Posts.POST, requireAuth. rewrite Hs.
  unfold Posts.POST_handler, try_catch, bind, query.
  open_body request. rewrite Ht, Hc. simpl.
  unfold insert_post, post_row_violation. fold id.
  rewrite Htt, Htc, Hfresh, Hu. simpl. repeat split.
Qed.

Lemma create_post_appends_the_actors_post_witness :
  let request := Sample.request Sample.an (JStr "Fog") (JNum 7) in
  exists t c,
    text_param (JStr "Fog") = Some t /\
    text_param (JNum 7) = Some c /\
    fst (Posts.POST request (mkContext 0) Sample.world) =
      mkResponse (JPostInserted (mkPostInserted 13 t c 1000)) 201 /\
    forum_posts (db (snd (Posts.POST request (mkContext 0) Sample.world))) =
      (forum_posts Sample.store ++ [mkPost 13 1 t c 1000 None])%list /\
    comments (db (snd (Posts.POST request (mkContext 0) Sample.world))) =
      comments Sample.store /\
    users (db (snd (Posts.POST request (mkContext 0) Sample.world))) =
      users Sample.store /\
    forum_posts_id_seq
      (db (snd (Posts.POST request (mkContext 0) Sample.world))) = 13 + 1.
Proof.
  intros request.
  exact (create_post_appends_the_actors_post request Sample.an (mkContext 0)
           Sample.world eq_refl eq_refl eq_refl eq_refl eq_refl).
Defined.

(** An authenticated [POST /forum/posts/{id}/comments] with a content that
    passes validation, on a post that exists, by an actor who has a row in
    [users], on a store whose next comment id is free, is answered 201 with
    the new row; the store gains exactly that comment, under that post and
    owned by the actor, and no post changes. *)
Theorem create_comment_appends_under_the_post
    (request : Request) (user : User) (context : Context) (w : World) :
  let id := comments_id_seq (db w) in
  session request = Some user ->
  truthy (b_content (json request)) = true ->
  has_post (db w) (params_id context) = true ->
  has_user (db w) (usr_id user) = true ->
  existsb (fun r => c_id r =? id) (comments (db w)) = false ->
  exists c,
    text_param (b_content (json request)) = Some c /\
    fst (PostsIdComments.POST request context w) =
      mkResponse (JCommentInserted (mkCommentInserted id c (date request)))
                 201 /\
    comments (db (snd (PostsIdComments.POST request context w))) =
      (comments (db w) ++
       [mkComment id (params_id context) (usr_id user) c (date request)
                  None])%list /\
    forum_posts (db (snd (PostsIdComments.POST request context w))) =
      forum_posts (db w) /\
    users (db (snd (PostsIdComments.POST request context w))) = users (db w).
Proof.
  intros id Hs Hc Hp Hu Hfresh.
  destruct (truthy_has_text _ Hc) as [c Htc].
  exists c. split; [exact Htc|].
  unfold PostsIdComments.POST, requireAuth. rewrite Hs.
  unfold PostsIdComments.POST_handler, try_catch, bind, query.
  open_body request. rewrite Hc. simpl.
  unfold insert_comment, comment_row_violation. fold id.
  rewrite Htc, Hfresh, Hp, Hu. simpl. repeat split.
Qed.

Lemma create_comment_appends_under_the_post_witness :
  let request := Sample.request Sample.chi JUndefined (JStr "Noted") in
  exists c,
    text_param (JStr "Noted") = Some c /\
    fst (PostsIdComments.POST request (mkContext 12) Sample.world) =
      mkResponse (JCommentInserted (mkCommentInserted 23 c 1000)) 201 /\
    comments
      (db (snd (PostsIdComments.POST request (mkContext 12) Sample.world))) =
      (comments Sample.store ++ [mkComment 23 12 3 c 1000 None])%list /\
    forum_posts
      (db (snd (PostsIdComments.POST request (mkContext 12) Sample.world))) =
      forum_posts Sample.store /\
    users (db (snd (PostsIdComments.POST request (mkContext 12) Sample.world)))
    = users Sample.store.
Proof.
  intros request.
  exact (create_comment_appends_under_the_post request Sample.chi
           (mkContext 12) Sample.world eq_refl eq_refl eq_refl eq_refl
           eq_refl).
Defined.

(** ** Updates and deletes on a target that is not there *)

Lemma posts_PUT_absent_valid (request : Request) (user : User)
    (context : Context) (w : World) :
  truthy (b_title (json request)) = true ->
  truthy (b_content (json request)) = true ->
  find_post (db w) (params_id context) = None ->
  PostsId.PUT_handler request user context w =
  (NextResponse_json (JError "Post not found") (Some 404),
   mkWorld (db w) (journal w ++ [SelectPostOwner (params_id context)])).
Proof.
  intros Ht Hc Hp.
  unfold PostsId.PUT_handler, try_catch, bind, query, select_post_owner.
  open_body request. rewrite Ht, Hc. simpl.
  now rewrite (filter_of_find_none _ _ Hp).
Qed.

Lemma comments_PUT_absent_valid (request : Request) (user : User)
    (context : Context) (w : World) :
  truthy (b_content (json request)) = true ->
  find_comment (db w) (params_id context) = None ->
  CommentsId.PUT_handler request user context w =
  (NextResponse_json (JError "Comment not found") (Some 404),
   mkWorld (db w) (journal w ++ [SelectCommentOwner (params_id context)])).
Proof.
  intros Hc Hr.
  unfold CommentsId.PUT_handler, try_catch, bind, query, select_comment_owner.
  open_body request. rewrite Hc. simpl.
  now rewrite (filter_of_find_none _ _ Hr).
Qed.

(** On each of the four update and delete endpoints: when the id was the
    key of a row at some point of a session and no row carries it any more,
    an authenticated request on it whose body passes validation is answered
    404, whoever the actor is, an admin included; the store is unchanged and
    the only statement sent is the ownership lookup. *)
Theorem missing_target_is_404
    (m : Mutation) (request : Request) (user : User) (context : Context)
    (calls : list (Route * Request * Context)) (w0 : World) (owner0 : Z) :
  let id := params_id context in
  let w := serve_all calls w0 in
  session request = Some user ->
  resource_user_id m (db w0) id = Some owner0 ->
  resource_user_id m (db w) id = None ->
  valid_body m (json request) = true ->
  let (response, w') := endpoint m request context w in
  status response = 404 /\
  db w' = db w /\
  sent w w' = [match m with
               | EditPost | RemovePost => SelectPostOwner id
               | EditComment | RemoveComment => SelectCommentOwner id
               end].
Proof.
  intros id w Hs _. generalize w. clear w. intros w Hnone Hv.
  destruct m; simpl in *;
    unfold PostsId.PUT, PostsId.DELETE, CommentsId.PUT, CommentsId.DELETE,
      requireAuth; rewrite Hs.
  - destruct (find_post (db w) id) eqn:Hp; [discriminate|].
    apply andb_prop in Hv as [Ht Hc].
    rewrite posts_PUT_absent_valid by assumption.
    rewrite sent_app. now repeat split.
  - destruct (find_post (db w) id) eqn:Hp; [discriminate|].
    rewrite posts_DELETE_absent by assumption.
    rewrite sent_app. now repeat split.
  - destruct (find_comment (db w) id) eqn:Hr; [discriminate|].
    rewrite comments_PUT_absent_valid by assumption.
    rewrite sent_app. now repeat split.
  - destruct (find_comment (db w) id) eqn:Hr; [discriminate|].
    rewrite comments_DELETE_absent by assumption.
    rewrite sent_app. now repeat split.
Qed.

Lemma missing_target_is_404_witness :
  let remove := Sample.request Sample.binh JUndefined JUndefined in
  let request := Sample.request Sample.chi JUndefined (JStr "Stay in") in
  let w := serve_all [(Mutating RemoveComment, remove, mkContext 20)]
                     Sample.world in
  let (response, w') := CommentsId.PUT request (mkContext 20) w in
  status response = 404 /\
  db w' = db w /\
  sent w w' = [SelectCommentOwner 20].
Proof.
  intros remove request.
  exact (missing_target_is_404 EditComment request Sample.chi (mkContext 20)
           [(Mutating RemoveComment, remove, mkContext 20)] Sample.world 2
           eq_refl eq_refl eq_refl eq_refl).
Defined.

(** ** The frame of a comment update *)

(** A [PUT /forum/comments/{id}] answered 200 found the comment [r] under
    the id and changed only its content and [updated_at]: its id, post,
    owner and creation time, every other comment, every post and every user
    are as before.  The stored row is then [r] with the request's content
    and the request's time as [updated_at], and the response body is that
    row's id, content, [created_at] and [updated_at]. *)
Theorem update_comment_changes_only_its_content
    (request : Request) (user : User) (context : Context) (w w' : World)
    (response : Response) :
  let id := params_id context in
  session request = Some user ->
  CommentsId.PUT request context w = (response, w') ->
  status response = 200 ->
  exists c r,
    find_comment (db w) id = Some r /\
    text_param (b_content (json request)) = Some c /\
    Forall2 (comment_edit_frame c (date request) id)
            (comments (db w)) (comments (db w')) /\
    forum_posts (db w') = forum_posts (db w) /\
    users (db w') = users (db w) /\
    find_comment (db w') id =
      Some (mkComment id (c_post_id r) (c_user_id r) c (c_created_at r)
                      (Some (date request))) /\
    body response =
      JCommentUpdated (mkCommentUpdated id c (c_created_at r)
                                        (Some (date request))).
Proof.
  intros id Hs Hrun Hok. unfold CommentsId.PUT, requireAuth in Hrun.
  rewrite Hs in Hrun.
  destruct (truthy (b_content (json request))) eqn:Hc.
  - destruct (find_comment (db w) id) as [r|] eqn:Hr.
    + destruct (truthy_has_text _ Hc) as [c Htc].
      rewrite (comments_PUT_existing request user context w r c Hr Hc Htc)
        in Hrun.
      fold id in Hrun.
      destruct (owner_or_admin user (c_user_id r)).
      * injection Hrun as <- <-.
        pose proof (find_comment_id _ _ _ Hr) as Hid.
        assert (Hset : set_comment c (date request) id r =
                       mkComment id (c_post_id r) (c_user_id r) c
                                 (c_created_at r) (Some (date request))).
        { unfold set_comment. now rewrite Hid, Z.eqb_refl. }
        exists c, r. simpl.
        split; [reflexivity|]. split; [assumption|].
        split; [apply set_comment_frame|]. split; [reflexivity|].
        split; [reflexivity|]. split.
        -- rewrite <- Hset. now apply find_set_comment.
        -- now rewrite Hset.
      * injection Hrun as <- <-. discriminate.
    + rewrite comments_PUT_absent_valid in Hrun by assumption.
      injection Hrun as <- <-. discriminate.
  - pose proof (comments_PUT_falsy request user context w Hc) as H.
    rewrite Hrun in H. contradiction.
Qed.

Lemma update_comment_changes_only_its_content_witness :
  let request := Sample.request Sample.binh JUndefined (JStr "Keep dry") in
  let out := CommentsId.PUT request (mkContext 20) Sample.world in
  exists c r,
    find_comment Sample.store 20 = Some r /\
    text_param (JStr "Keep dry") = Some c /\
    Forall2 (comment_edit_frame c 1000 20)
            (comments Sample.store) (comments (db (snd out))) /\
    forum_posts (db (snd out)) = forum_posts Sample.store /\
    users (db (snd out)) = users Sample.store /\
    find_comment (db (snd out)) 20 =
      Some (mkComment 20 (c_post_id r) (c_user_id r) c (c_created_at r)
                      (Some 1000)) /\
    body (fst out) =
      JCommentUpdated (mkCommentUpdated 20 c (c_created_at r) (Some 1000)).
Proof.
  intros request out.
  exact (update_comment_changes_only_its_content request Sample.binh
           (mkContext 20) Sample.world _ _ eq_refl eq_refl eq_refl).
Defined.

(** ** Answers in the 4xx range *)

Lemma posts_POST_valid_status (request : Request) (user : User)
    (context : Context) (w : World) :
  truthy (b_title (json request)) = true ->
  truthy (b_content (json request)) = true ->
  status (fst (Posts.POST_handler request user context w)) = 201 \/
  status (fst (Posts.POST_handler request user context w)) = 500.
Proof.
  intros Ht Hc. unfold Posts.POST_handler, try_catch, bind, query.
  open_body request. rewrite Ht, Hc; simpl.
  destruct (insert_post _ _ _ _ _) as [[[|row rows]|e] d']; simpl; auto.
Qed.

Lemma comments_POST_valid_status (request : Request) (user : User)
    (context : Context) (w : World) :
  truthy (b_content (json request)) = true ->
  status (fst (PostsIdComments.POST_handler request user context w)) = 201 \/
  status (fst (PostsIdComments.POST_handler request user context w)) = 500.
Proof.
  intros Hc. unfold PostsIdComments.POST_handler, try_catch, bind, query.
  open_body request. rewrite Hc; simpl.
  destruct (insert_comment _ _ _ _ _) as [[[|row rows]|e] d']; simpl; auto.
Qed.

Lemma comments_POST_invalid (request : Request) (user : User)
    (context : Context) (w : World) :
  parses request = true ->
  truthy (b_content (json request)) = false ->
  PostsIdComments.POST_handler request user context w =
  (NextResponse_json (JError "Missing content") (Some 400), w).
Proof.
  intros Hj H. unfold PostsIdComments.POST_handler, try_catch, bind.
  open_body request. now rewrite H.
Qed.

Ltac falsy_answer invalid unparsed request H :=
  let Hj := fresh "Hj" in
  destruct (parses request) eqn:Hj;
  [rewrite invalid by (assumption || exact H)
  |rewrite unparsed by assumption].

Lemma quiet_same (w : World) :
  db w = db w /\ existsb is_mutation (sent w w) = false.
Proof. now rewrite sent_refl. Qed.

Lemma quiet_lookup (w : World) (q : Stmt) :
  is_mutation q = false ->
  db (mkWorld (db w) (journal w ++ [q])) = db w /\
  existsb is_mutation (sent w (mkWorld (db w) (journal w ++ [q]))) = false.
Proof. intros Hq. rewrite sent_app. simpl. now rewrite Hq. Qed.

(** Whatever the route, the actor and the request, an answer in the 4xx
    range (400, 403, 404) means that nothing was written: the store is
    exactly as before and no mutating statement was sent. *)
Theorem client_error_answers_write_nothing
    (r : Route) (request : Request) (user : User) (context : Context)
    (w : World) :
  session request = Some user ->
  400 <= status (fst (serve r request context w)) < 500 ->
  db (snd (serve r request context w)) = db w /\
  existsb is_mutation (sent w (snd (serve r request context w))) = false.
Proof.
  intros Hs.
  destruct r as [| | |[| | |]]; simpl;
    unfold Posts.GET, Posts.POST, PostsIdComments.POST, PostsId.PUT,
      PostsId.DELETE, CommentsId.PUT, CommentsId.DELETE, requireAuth.
  - simpl. lia.
  - rewrite Hs.
    destruct (truthy (b_title (json request))) eqn:Ht;
      [destruct (truthy (b_content (json request))) eqn:Hc|].
    + destruct (posts_POST_valid_status request user context w Ht Hc)
        as [-> | ->]; lia.
    + falsy_answer posts_POST_invalid posts_POST_unparsed request
        (or_intror (truthy (b_title (json request)) = false) Hc);
        intros _; apply quiet_same.
    + falsy_answer posts_POST_invalid posts_POST_unparsed request
        (or_introl (truthy (b_content (json request)) = false) Ht);
        intros _; apply quiet_same.
  - rewrite Hs.
    destruct (truthy (b_content (json request))) eqn:Hc.
    + destruct (comments_POST_valid_status request user context w Hc)
        as [-> | ->]; lia.
    + falsy_answer comments_POST_invalid comments_POST_unparsed request Hc;
        intros _; apply quiet_same.
  - rewrite Hs.
    destruct (truthy (b_title (json request))) eqn:Ht;
      [destruct (truthy (b_content (json request))) eqn:Hc|].
    + destruct (find_post (db w) (params_id context)) as [p|] eqn:Hp.
      * destruct (truthy_has_text _ Ht) as [t Htt].
        destruct (truthy_has_text _ Hc) as [c Htc].
        rewrite (posts_PUT_existing request user context w p t c
                   Hp Ht Hc Htt Htc).
        destruct (owner_or_admin user (p_user_id p)); simpl; [lia|].
        intros _. now apply quiet_lookup.
      * rewrite posts_PUT_absent_valid by assumption.
        intros _. now apply quiet_lookup.
    + falsy_answer posts_PUT_invalid posts_PUT_unparsed request
        (or_intror (truthy (b_title (json request)) = false) Hc);
        intros _; apply quiet_same.
    + falsy_answer posts_PUT_invalid posts_PUT_unparsed request
        (or_introl (truthy (b_content (json request)) = false) Ht);
        intros _; apply quiet_same.
  - rewrite Hs.
    destruct (find_post (db w) (params_id context)) as [p|] eqn:Hp.
    + rewrite (posts_DELETE_existing request user context w p Hp).
      destruct (owner_or_admin user (p_user_id p)); simpl; [lia|].
      intros _. now apply quiet_lookup.
    + rewrite posts_DELETE_absent by assumption.
      intros _. now apply quiet_lookup.
  - rewrite Hs.
    destruct (truthy (b_content (json request))) eqn:Hc.
    + destruct (find_comment (db w) (params_id context)) as [c0|] eqn:Hr.
      * destruct (truthy_has_text _ Hc) as [c Htc].
        rewrite (comments_PUT_existing request user context w c0 c Hr Hc Htc).
        destruct (owner_or_admin user (c_user_id c0)); simpl; [lia|].
        intros _. now apply quiet_lookup.
      * rewrite comments_PUT_absent_valid by assumption.
        intros _. now apply quiet_lookup.
    + falsy_answer comments_PUT_invalid comments_PUT_unparsed request Hc;
        intros _; apply quiet_same.
  - rewrite Hs.
    destruct (find_comment (db w) (params_id context)) as [c0|] eqn:Hr.
    + rewrite (comments_DELETE_existing request user context w c0 Hr).
      destruct (owner_or_admin user (c_user_id c0)); simpl; [lia|].
      intros _. now apply quiet_lookup.
    + rewrite comments_DELETE_absent by assumption.
      intros _. now apply quiet_lookup.
Qed.

Lemma client_error_answers_write_nothing_witness :
  let request := Sample.request Sample.binh (JStr "Mine now") (JStr "x") in
  db (snd (serve (Mutating EditPost) request (mkContext 10) Sample.world)) =
    db Sample.world /\
  existsb is_mutation
    (sent Sample.world
       (snd (serve (Mutating EditPost) request (mkContext 10) Sample.world)))
  = false.
Proof.
  intros request.
  apply (client_error_answers_write_nothing (Mutating EditPost) request
           Sample.binh (mkContext 10) Sample.world eq_refl).
  change (400 <= 403 < 500). lia.
Defined.

(** ** Sessions of calls *)

(** The key constraints of the store (unique user ids, unique post ids,
    every post's author in [users]) survive every session of calls, whatever
    the routes, the callers and the bodies. *)
Theorem key_constraints_survive_any_session
    (calls : list (Route * Request * Context)) (w : World) :
  wf_db (db w) -> wf_db (db (serve_all calls w)).
Proof.
  apply (serve_all_invariant wf_db). intros r request context w0.
  apply serve_preserves_wf.
Qed.

Lemma key_constraints_survive_any_session_witness :
  wf_db (db (serve_all
               [(CreatePost,
                 Sample.request Sample.binh (JStr "Fog") (JStr "Drive slow"),
                 mkContext 0);
                (Mutating RemovePost,
                 Sample.request Sample.chi JUndefined JUndefined,
                 mkContext 11)]
               Sample.world)).
Proof.
  exact (key_constraints_survive_any_session _ Sample.world sample_store_wf).
Defined.

Lemma NoDup_map_injective {A} (key : A -> Z) (l : list A) (x y : A) :
  NoDup (map key l) -> In x l -> In y l -> key x = key y -> x = y.
Proof.
  induction l as [|a l IH]; simpl; [tauto|].
  intros Hnd Hx Hy Hk. inversion Hnd as [|? ? Hnotin Hnd']; subst.
  destruct Hx as [<- | Hx], Hy as [<- | Hy]; auto.
  - exfalso. apply Hnotin. rewrite Hk. now apply in_map.
  - exfalso. apply Hnotin. rewrite <- Hk. now apply in_map.
Qed.

Lemma set_post_created_at (t c : string) (now id : Z) (p : PostRow) :
  p_created_at (set_post t c now id p) = p_created_at p.
Proof. unfold set_post. now destruct (p_id p =? id). Qed.

Lemma set_comment_keys (c : string) (now id : Z) (r : CommentRow) :
  c_user_id (set_comment c now id r) = c_user_id r /\
  c_post_id (set_comment c now id r) = c_post_id r /\
  c_created_at (set_comment c now id r) = c_created_at r.
Proof. unfold set_comment. now destruct (c_id r =? id). Qed.

Lemma serve_preserves_post_identity (id0 owner created : Z) (r : Route)
    (request : Request) (context : Context) (w : World) :
  post_identity id0 owner created (db w) ->
  post_identity id0 owner created (db (snd (serve r request context w))).
Proof.
  apply serve_preserves; unfold post_identity.
  - intros t c now id d [Hrows Hs].
    destruct (update_post_tables t c now id d) as [-> | (t' & c' & ->)];
      [now split|].
    split; [|exact Hs]. simpl. intros q Hq Hid.
    apply in_map_iff in Hq as (p & <- & Hin).
    destruct (set_post_keys t' c' now id p) as [Hk ->].
    rewrite set_post_created_at. rewrite Hk in Hid. now apply Hrows.
  - intros c now id d H.
    destruct (update_comment_tables c now id d) as [-> | (c' & ->)]; exact H.
  - intros id d H. exact H.
  - intros id d [Hrows Hs].
    destruct (delete_post_tables id d) as [-> | ->]; [now split|].
    split; [|exact Hs]. simpl. intros q Hq.
    apply filter_In in Hq as [Hq _]. now apply Hrows.
  - intros id d H. exact H.
  - intros u t c now d [Hrows Hs].
    destruct (insert_post_tables u t c now d)
      as [-> | (t' & c' & _ & _ & ->)]; split; simpl; auto; try lia.
    intros q Hq Hid. apply in_app_or in Hq as [Hq | [<- | []]].
    + now apply Hrows.
    + simpl in Hid. lia.
  - intros p u c now d H.
    destruct (insert_comment_tables p u c now d) as [-> | (c' & _ & ->)];
      exact H.
Qed.

Lemma serve_preserves_comment_identity (id0 owner post created : Z)
    (r : Route) (request : Request) (context : Context) (w : World) :
  comment_identity id0 owner post created (db w) ->
  comment_identity id0 owner post created
    (db (snd (serve r request context w))).
Proof.
  apply serve_preserves; unfold comment_identity.
  - intros t c now id d H.
    destruct (update_post_tables t c now id d) as [-> | (t' & c' & ->)];
      exact H.
  - intros c now id d [Hrows Hs].
    destruct (update_comment_tables c now id d) as [-> | (c' & ->)];
      [now split|].
    split; [|exact Hs]. simpl. intros q Hq Hid.
    apply in_map_iff in Hq as (r0 & <- & Hin).
    destruct (set_comment_keys c' now id r0) as (-> & -> & ->).
    rewrite set_comment_key in Hid. now apply Hrows.
  - intros id d [Hrows Hs]. split; [|exact Hs]. simpl. intros q Hq.
    apply filter_In in Hq as [Hq _]. now apply Hrows.
  - intros id d H.
    destruct (delete_post_tables id d) as [-> | ->]; exact H.
  - intros id d [Hrows Hs]. split; [|exact Hs]. simpl. intros q Hq.
    apply filter_In in Hq as [Hq _]. now apply Hrows.
  - intros u t c now d H.
    destruct (insert_post_tables u t c now d)
      as [-> | (t' & c' & _ & _ & ->)]; exact H.
  - intros p u c now d [Hrows Hs].
    destruct (insert_comment_tables p u c now d) as [-> | (c' & _ & ->)];
      split; simpl; auto; try lia.
    intros q Hq Hid. apply in_app_or in Hq as [Hq | [<- | []]].
    + now apply Hrows.
    + simpl in Hid. lia.
Qed.

(** No call reassigns a post: in a store with unique post ids whose keys
    come from its sequence, whatever calls are served, by whomever, a row
    that carries the id of a post [p] still has the owner and the creation
    time of [p]. *)
Theorem post_owner_never_changes
    (calls : list (Route * Request * Context)) (w : World) (p q : PostRow) :
  NoDup (map p_id (forum_posts (db w))) ->
  ids_below_seq (db w) ->
  In p (forum_posts (db w)) ->
  In q (forum_posts (db (serve_all calls w))) ->
  p_id q = p_id p ->
  p_user_id q = p_user_id p /\ p_created_at q = p_created_at p.
Proof.
  intros Hnd [Hbelow _] Hp Hq Hid.
  assert (Hinit : post_identity (p_id p) (p_user_id p) (p_created_at p)
                                (db w)).
  { split; [|now apply Hbelow].
    intros p0 Hp0 Hk.
    now rewrite (NoDup_map_injective p_id _ p0 p Hnd Hp0 Hp Hk). }
  pose proof (serve_all_invariant _
                (serve_preserves_post_identity (p_id p) (p_user_id p)
                   (p_created_at p)) calls w Hinit) as [Hrows _].
  now apply Hrows.
Qed.

Lemma sample_post_ids_unique : NoDup (map p_id (forum_posts Sample.store)).
Proof. repeat constructor; simpl; intuition discriminate. Defined.

Lemma post_owner_never_changes_witness :
  let chi_edits := Sample.request Sample.chi (JStr "Storm") (JStr "Stay in") in
  let after := serve_all [(Mutating EditPost, chi_edits, mkContext 10)]
                         Sample.world in
  exists q,
    find_post (db after) 10 = Some q /\
    p_user_id q = 1 /\ p_created_at q = 100.
Proof.
  intros chi_edits after.
  exists (mkPost 10 1 "Storm" "Stay in" 100 (Some 1000)).
  split; [reflexivity|].
  apply (post_owner_never_changes
           [(Mutating EditPost, chi_edits, mkContext 10)] Sample.world
           (mkPost 10 1 "Rain" "Heavy rain today" 100 None)
           (mkPost 10 1 "Storm" "Stay in" 100 (Some 1000))
           sample_post_ids_unique sample_store_ids_below_seq).
  - simpl. auto.
  - simpl. auto.
  - reflexivity.
Defined.

(** No call reassigns a comment: under the same conditions on the comment
    keys, a row that carries the id of a comment [c] still has the owner,
    the post and the creation time of [c]. *)
Theorem comment_owner_never_changes
    (calls : list (Route * Request * Context)) (w : World)
    (c q : CommentRow) :
  NoDup (map c_id (comments (db w))) ->
  ids_below_seq (db w) ->
  In c (comments (db w)) ->
  In q (comments (db (serve_all calls w))) ->
  c_id q = c_id c ->
  c_user_id q = c_user_id c /\ c_post_id q = c_post_id c /\
  c_created_at q = c_created_at c.
Proof.
  intros Hnd [_ Hbelow] Hc Hq Hid.
  assert (Hinit : comment_identity (c_id c) (c_user_id c) (c_post_id c)
                                   (c_created_at c) (db w)).
  { split; [|now apply Hbelow].
    intros c0 Hc0 Hk.
    now rewrite (NoDup_map_injective c_id _ c0 c Hnd Hc0 Hc Hk). }
  pose proof (serve_all_invariant _
                (serve_preserves_comment_identity (c_id c) (c_user_id c)
                   (c_post_id c) (c_created_at c)) calls w Hinit)
    as [Hrows _].
  now apply Hrows.
Qed.

Lemma sample_comment_ids_unique : NoDup (map c_id (comments Sample.store)).
Proof. repeat constructor; simpl; intuition discriminate. Defined.

Lemma comment_owner_never_changes_witness :
  let chi_edits := Sample.request Sample.chi JUndefined (JStr "Stay safe") in
  let after := serve_all [(Mutating EditComment, chi_edits, mkContext 20)]
                         Sample.world in
  exists q,
    find_comment (db after) 20 = Some q /\
    c_user_id q = 2 /\ c_post_id q = 10 /\ c_created_at q = 110.
Proof.
  intros chi_edits after.
  exists (mkComment 20 10 2 "Stay safe" 110 (Some 1000)).
  split; [reflexivity|].
  apply (comment_owner_never_changes
           [(Mutating EditComment, chi_edits, mkContext 20)] Sample.world
           (mkComment 20 10 2 "Stay dry" 110 None)
           (mkComment 20 10 2 "Stay safe" 110 (Some 1000))
           sample_comment_ids_unique sample_store_ids_below_seq).
  - simpl. auto.
  - simpl. auto.
  - reflexivity.
Defined.

(** ** Two updates in a row *)

Lemma posts_PUT_ok_inv (request : Request) (user : User) (context : Context)
    (w : World) :
  status (fst (PostsId.PUT_handler request user context w)) = 200 ->
  exists p t c,
    find_post (db w) (params_id context) = Some p /\
    owner_or_admin user (p_user_id p) = true /\
    truthy (b_title (json request)) = true /\
    truthy (b_content (json request)) = true /\
    text_param (b_title (json request)) = Some t /\
    text_param (b_content (json request)) = Some c.
Proof.
  intros Hok.
  destruct (truthy (b_title (json request))) eqn:Ht;
    [destruct (truthy (b_content (json request))) eqn:Hc|].
  - destruct (find_post (db w) (params_id context)) as [p|] eqn:Hp.
    + destruct (truthy_has_text _ Ht) as [t Htt].
      destruct (truthy_has_text _ Hc) as [c Htc].
      rewrite (posts_PUT_existing request user context w p t c Hp Ht Hc Htt Htc)
        in Hok.
      exists p, t, c.
      destruct (owner_or_admin user (p_user_id p)); [|discriminate].
      now repeat split.
    + rewrite posts_PUT_absent_valid in Hok by assumption. discriminate.
  - now destruct (posts_PUT_falsy request user context w (or_intror Hc)).
  - now destruct (posts_PUT_falsy request user context w (or_introl Ht)).
Qed.

Lemma set_post_twice (t1 c1 t2 c2 : string) (n1 n2 id : Z) (p : PostRow) :
  set_post t2 c2 n2 id (set_post t1 c1 n1 id p) = set_post t2 c2 n2 id p.
Proof.
  unfold set_post. destruct (p_id p =? id) eqn:Hid; simpl; now rewrite Hid.
Qed.

(** The last write wins: when a [PUT] on a post is answered 200 and a
    second [PUT] on the same post, by the same or another actor, is
    answered 200 after it, the store holds what the second [PUT] alone would
    have left; nothing of the first edit remains. *)
Theorem second_update_overwrites_the_first
    (first second : Request) (user user' : User) (context : Context)
    (w : World) :
  session first = Some user ->
  session second = Some user' ->
  status (fst (PostsId.PUT first context w)) = 200 ->
  status (fst (PostsId.PUT second context
                 (snd (PostsId.PUT first context w)))) = 200 ->
  db (snd (PostsId.PUT second context (snd (PostsId.PUT first context w)))) =
  db (snd (PostsId.PUT second context w)) /\
  fst (PostsId.PUT second context (snd (PostsId.PUT first context w))) =
  fst (PostsId.PUT second context w).
Proof.
  intros H1 H2. unfold PostsId.PUT, requireAuth. rewrite H1, H2.
  intros Hok1 Hok2.
  destruct (posts_PUT_ok_inv _ _ _ _ Hok1)
    as (p & t1 & c1 & Hp & Ha1 & Ht1 & Hc1 & Htt1 & Htc1).
  destruct (posts_PUT_ok_inv _ _ _ _ Hok2)
    as (p2 & t2 & c2 & Hp2 & Ha2 & Ht2 & Hc2 & Htt2 & Htc2).
  rewrite (posts_PUT_existing first user context w p t1 c1
             Hp Ht1 Hc1 Htt1 Htc1), Ha1 in *.
  simpl in Hp2. unfold find_post in Hp2. simpl in Hp2.
  rewrite (find_set_post t1 c1 (date first) (params_id context) _ p Hp)
    in Hp2.
  injection Hp2 as <-.
  destruct (set_post_keys t1 c1 (date first) (params_id context) p)
    as [_ Hown].
  rewrite Hown in Ha2.
  rewrite (posts_PUT_existing second user' context w p t2 c2
             Hp Ht2 Hc2 Htt2 Htc2), Ha2.
  match goal with
  | |- context [PostsId.PUT_handler second user' context ?w1] =>
      rewrite (posts_PUT_existing second user' context w1
                 (set_post t1 c1 (date first) (params_id context) p) t2 c2)
  end; auto.
  - rewrite Hown, Ha2. simpl. unfold with_forum_posts; simpl.
    rewrite map_map.
    rewrite (map_ext _ (set_post t2 c2 (date second) (params_id context)))
      by (intros; apply set_post_twice).
    now rewrite set_post_twice.
  - unfold find_post; simpl. now apply find_set_post.
Qed.

Lemma second_update_overwrites_the_first_witness :
  let first := Sample.request Sample.an (JStr "Storm") (JStr "Stay in") in
  let second := mkRequest (Some Sample.chi)
                          (JsonValue (mkBody (JStr "Calm") (JStr "All clear")))
                          2000 in
  db (snd (PostsId.PUT second (mkContext 10)
             (snd (PostsId.PUT first (mkContext 10) Sample.world)))) =
  db (snd (PostsId.PUT second (mkContext 10) Sample.world)) /\
  fst (PostsId.PUT second (mkContext 10)
         (snd (PostsId.PUT first (mkContext 10) Sample.world))) =
  fst (PostsId.PUT second (mkContext 10) Sample.world).
Proof.
  intros first second.
  exact (second_update_overwrites_the_first first second Sample.an Sample.chi
           (mkContext 10) Sample.world eq_refl eq_refl eq_refl eq_refl).
Defined.

(** ** What the post list shows after a change *)

Lemma listed_on_wf (w : World) :
  wf_db (db w) ->
  listed w =
  order_by_created_at_desc (map (post_json (db w)) (forum_posts (db w))).
Proof.
  intros (Hus & Hps & Hfk). unfold listed.
  rewrite GET_runs_the_list_query. simpl.
  now rewrite (grouped_posts (db w) (forum_posts (db w)) Hus Hps Hfk).
Qed.

Lemma insert_desc_in_front (r : PostJson) (l : list PostJson) :
  Forall (fun y => pj_created_at y <= pj_created_at r) l ->
  insert_desc r l = r :: l.
Proof.
  intros H. destruct l as [|x l]; simpl; [reflexivity|].
  inversion H as [|? ? Hx _]; subst.
  apply Z.leb_le in Hx. now rewrite Hx.
Qed.

Lemma filter_insert_desc (f : PostJson -> bool) (r : PostJson)
    (l : list PostJson) :
  StronglySorted newer_or_same l ->
  filter f (insert_desc r l) =
  if f r then insert_desc r (filter f l) else filter f l.
Proof.
  induction 1 as [|x l Hl IH Hx]; simpl.
  - now destruct (f r).
  - destruct (pj_created_at x <=? pj_created_at r) eqn:Hle; simpl.
    + destruct (f r) eqn:Hr; [|reflexivity].
      destruct (f x) eqn:Hx'; simpl; [now rewrite Hle|].
      symmetry. apply insert_desc_in_front.
      apply Z.leb_le in Hle.
      apply Forall_forall. intros y Hy. apply filter_In in Hy as [Hy _].
      rewrite Forall_forall in Hx. specialize (Hx y Hy).
      unfold newer_or_same in Hx. lia.
    + rewrite IH. destruct (f r); destruct (f x); simpl; rewrite ?Hle;
        reflexivity.
Qed.

Lemma filter_order_by (f : PostJson -> bool) (l : list PostJson) :
  filter f (order_by_created_at_desc l) =
  order_by_created_at_desc (filter f l).
Proof.
  induction l as [|r l IH]; simpl; [reflexivity|].
  rewrite filter_insert_desc by apply order_by_sorted.
  rewrite IH. now destruct (f r).
Qed.

Lemma map_insert_desc (g : PostJson -> PostJson) (r : PostJson)
    (l : list PostJson) :
  (forall x, pj_created_at (g x) = pj_created_at x) ->
  map g (insert_desc r l) = insert_desc (g r) (map g l).
Proof.
  intros Hg. induction l as [|x l IH]; simpl; [reflexivity|].
  rewrite !Hg. destruct (pj_created_at x <=? pj_created_at r); simpl;
    [reflexivity | now rewrite IH].
Qed.

Lemma map_order_by (g : PostJson -> PostJson) (l : list PostJson) :
  (forall x, pj_created_at (g x) = pj_created_at x) ->
  map g (order_by_created_at_desc l) = order_by_created_at_desc (map g l).
Proof.
  intros Hg. induction l as [|r l IH]; simpl; [reflexivity|].
  now rewrite map_insert_desc, IH.
Qed.

Lemma filter_filter_other (id k : Z) (cs : list CommentRow) :
  k <> id ->
  filter (fun c => c_post_id c =? k)
         (filter (fun c => negb (c_post_id c =? id)) cs) =
  filter (fun c => c_post_id c =? k) cs.
Proof.
  intros Hk. induction cs as [|c cs IH]; simpl; [reflexivity|].
  destruct (c_post_id c =? id) eqn:Hid; simpl.
  - apply Z.eqb_eq in Hid.
    assert (Hne : (c_post_id c =? k) = false) by (apply Z.eqb_neq; lia).
    now rewrite Hne.
  - now rewrite IH.
Qed.

Lemma map_filter_posts (d d' : Db) (id : Z) (ps : list PostRow) :
  (forall q, p_id q <> id -> post_json d' q = post_json d q) ->
  map (post_json d') (filter (fun q => negb (p_id q =? id)) ps) =
  filter (fun r => negb (pj_id r =? id)) (map (post_json d) ps).
Proof.
  intros Hsame. induction ps as [|q ps IH]; simpl; [reflexivity|].
  destruct (p_id q =? id) eqn:Hid; simpl; [exact IH|].
  apply Z.eqb_neq in Hid. now rewrite IH, Hsame.
Qed.

Lemma same_entry_refl (r : PostJson) : same_entry r r.
Proof. now repeat split. Qed.

Lemma same_entries_of_eq (l l' : list PostJson) :
  l = l' -> same_entries l l'.
Proof.
  intros <-. exists l. split; [apply Permutation_refl|].
  induction l; constructor; [apply same_entry_refl | assumption].
Qed.

Lemma listed_after_delete (request : Request) (user : User)
    (context : Context) (w : World) (p : PostRow) :
  let id := params_id context in
  wf_db (db w) ->
  session request = Some user ->
  find_post (db w) id = Some p ->
  owner_or_admin user (p_user_id p) = true ->
  listed (snd (PostsId.DELETE request context w)) =
  filter (fun r => negb (pj_id r =? id)) (listed w).
Proof.
  intros id Hwf Hs Hp Ha.
  assert (Hwf' : wf_db (db (snd (PostsId.DELETE request context w)))).
  { exact (serve_preserves_wf (Mutating RemovePost) request context w Hwf). }
  rewrite (listed_on_wf _ Hwf'), (listed_on_wf _ Hwf).
  unfold PostsId.DELETE, requireAuth. rewrite Hs.
  rewrite (posts_DELETE_existing request user context w p Hp), Ha.
  fold id. simpl. rewrite filter_order_by. f_equal.
  apply map_filter_posts. intros q Hq.
  unfold post_json, comment_json, user_by_id. simpl.
  now rewrite filter_filter_other.
Qed.

(** Deleting a post takes exactly its entry out of the post list: after a
    [DELETE] of post [id] by its owner or an admin, on a store that meets
    its key constraints, [GET /forum/posts] returns the entries it returned
    before without those of [id], each with the columns and the comments it
    had; no entry carries [id].  The order of the entries and of the
    comments under each is left open. *)
Theorem deleted_post_leaves_the_list
    (request : Request) (user : User) (context : Context) (w : World)
    (p : PostRow) :
  let id := params_id context in
  wf_db (db w) ->
  session request = Some user ->
  find_post (db w) id = Some p ->
  owner_or_admin user (p_user_id p) = true ->
  same_entries (listed (snd (PostsId.DELETE request context w)))
               (filter (fun r => negb (pj_id r =? id)) (listed w)) /\
  (forall r, In r (listed (snd (PostsId.DELETE request context w))) ->
             pj_id r <> id).
Proof.
  intros id Hwf Hs Hp Ha.
  pose proof (listed_after_delete request user context w p Hwf Hs Hp Ha)
    as Heq.
  fold id in Heq. split; [now apply same_entries_of_eq|].
  intros r Hr. rewrite Heq in Hr. apply filter_In in Hr as [_ Hr].
  apply negb_true_iff in Hr. now apply Z.eqb_neq.
Qed.

Lemma deleted_post_leaves_the_list_witness :
  let request := Sample.request Sample.an JUndefined JUndefined in
  same_entries
    (listed (snd (PostsId.DELETE request (mkContext 10) Sample.world)))
    (filter (fun r => negb (pj_id r =? 10)) (listed Sample.world)) /\
  (forall r,
      In r (listed (snd (PostsId.DELETE request (mkContext 10) Sample.world)))
      -> pj_id r <> 10).
Proof.
  intros request.
  exact (deleted_post_leaves_the_list request Sample.an (mkContext 10)
           Sample.world (mkPost 10 1 "Rain" "Heavy rain today" 100 None)
           sample_store_wf eq_refl eq_refl eq_refl).
Defined.

Lemma post_json_ext (d d' : Db) (q : PostRow) :
  users d' = users d -> comments d' = comments d ->
  post_json d' q = post_json d q.
Proof.
  intros Hu Hc. unfold post_json, comment_json, user_by_id.
  now rewrite Hu, Hc.
Qed.

Lemma comments_POST_db (request : Request) (user : User) (context : Context)
    (w : World) (c : string) :
  truthy (b_content (json request)) = true ->
  text_param (b_content (json request)) = Some c ->
  has_post (db w) (params_id context) = true ->
  has_user (db w) (usr_id user) = true ->
  existsb (fun r => c_id r =? comments_id_seq (db w)) (comments (db w)) = false ->
  db (snd (PostsIdComments.POST_handler request user context w)) =
  with_comments (next_comment_id (db w))
    (comments (db w) ++
     [mkComment (comments_id_seq (db w)) (params_id context) (usr_id user) c
                (date request) None]).
Proof.
  intros Hc Htc Hp Hu Hfresh.
  unfold PostsIdComments.POST_handler, try_catch, bind, query.
  open_body request. rewrite Hc. simpl.
  unfold insert_comment, comment_row_violation.
  now rewrite Htc, Hfresh, Hp, Hu.
Qed.

Lemma posts_POST_db (request : Request) (user : User) (context : Context)
    (w : World) (t c : string) :
  truthy (b_title (json request)) = true ->
  truthy (b_content (json request)) = true ->
  text_param (b_title (json request)) = Some t ->
  text_param (b_content (json request)) = Some c ->
  has_user (db w) (usr_id user) = true ->
  has_post (db w) (forum_posts_id_seq (db w)) = false ->
  db (snd (Posts.POST_handler request user context w)) =
  with_forum_posts (next_post_id (db w))
    (forum_posts (db w) ++
     [mkPost (forum_posts_id_seq (db w)) (usr_id user) t c (date request)
             None]).
Proof.
  intros Ht Hc Htt Htc Hu Hfresh.
  unfold Posts.POST_handler, try_catch, bind, query.
  open_body request. rewrite Ht, Hc. simpl.
  unfold insert_post, post_row_violation.
  now rewrite Htt, Htc, Hfresh, Hu.
Qed.

Lemma listed_after_comment (request : Request) (user : User)
    (context : Context) (w : World) (c : string) (u : UserRow) :
  let id := params_id context in
  wf_db (db w) ->
  session request = Some user ->
  truthy (b_content (json request)) = true ->
  text_param (b_content (json request)) = Some c ->
  user_by_id (db w) (usr_id user) = Some u ->
  has_post (db w) id = true ->
  has_user (db w) (usr_id user) = true ->
  existsb (fun r => c_id r =? comments_id_seq (db w)) (comments (db w))
    = false ->
  listed (snd (PostsIdComments.POST request context w)) =
  map (fun r =>
         if pj_id r =? id
         then with_comment
                (mkCommentJson (comments_id_seq (db w)) c (date request)
                               (usr_id user)
                               (mkAuthor (Some (u_id u)) (Some (u_name u))))
                r
         else r)
      (listed w).
Proof.
  intros id Hwf Hs Hc Htc Hfind Hp Hu Hfresh. unfold user_by_id in Hfind.
  assert (Hwf' : wf_db (db (snd (PostsIdComments.POST request context w)))).
  { exact (serve_preserves_wf CreateComment request context w Hwf). }
  rewrite (listed_on_wf _ Hwf'), (listed_on_wf _ Hwf).
  unfold PostsIdComments.POST, requireAuth. rewrite Hs.
  rewrite (comments_POST_db request user context w c Hc Htc Hp Hu Hfresh).
  simpl. rewrite map_order_by by (intros x; now destruct (pj_id x =? id)).
  f_equal. rewrite map_map. apply map_ext. intros q.
  unfold post_json at 1. simpl.
  rewrite filter_app, map_app. simpl. fold id.
  match goal with
  | |- context [comment_json ?d1] =>
      change (comment_json d1) with (comment_json (db w));
      change (user_by_id d1) with (user_by_id (db w))
  end.
  rewrite (Z.eqb_sym id (p_id q)).
  destruct (p_id q =? id); simpl.
  - unfold comment_json at 2. unfold user_by_id at 2. simpl.
    now rewrite Hfind.
  - now rewrite app_nil_r.
Qed.

(** A new comment shows under its post: after a [POST
    /forum/posts/{id}/comments] that the store accepts, on a store that
    meets its key constraints, [GET /forum/posts] returns the entries it
    returned before, where the entry of post [id] has one more comment: the
    new one, with the actor as its author; every other entry has the
    columns and the comments it had.  The order of the entries and of the
    comments under each is left open. *)
Theorem new_comment_shows_under_its_post
    (request : Request) (user : User) (context : Context) (w : World) :
  let id := params_id context in
  wf_db (db w) ->
  session request = Some user ->
  truthy (b_content (json request)) = true ->
  has_post (db w) id = true ->
  has_user (db w) (usr_id user) = true ->
  existsb (fun r => c_id r =? comments_id_seq (db w)) (comments (db w))
    = false ->
  exists c u,
    text_param (b_content (json request)) = Some c /\
    user_by_id (db w) (usr_id user) = Some u /\
    same_entries
      (listed (snd (PostsIdComments.POST request context w)))
      (map (fun r =>
              if pj_id r =? id
              then with_comment
                     (mkCommentJson (comments_id_seq (db w)) c (date request)
                                    (usr_id user)
                                    (mkAuthor (Some (u_id u))
                                              (Some (u_name u))))
                     r
              else r)
           (listed w)).
Proof.
  intros id Hwf Hs Hc Hp Hu Hfresh.
  destruct (truthy_has_text _ Hc) as [c Htc].
  destruct (existsb_find _ _ Hu) as [u Hfind].
  exists c, u. split; [exact Htc|]. split; [exact Hfind|].
  apply same_entries_of_eq.
  now apply listed_after_comment.
Qed.

Lemma new_comment_shows_under_its_post_witness :
  let request := Sample.request Sample.chi JUndefined (JStr "Noted") in
  exists c u,
    text_param (JStr "Noted") = Some c /\
    user_by_id Sample.store 3 = Some u /\
    same_entries
      (listed (snd (PostsIdComments.POST request (mkContext 12)
                      Sample.world)))
      (map (fun r =>
              if pj_id r =? 12
              then with_comment
                     (mkCommentJson 23 c 1000 3
                                    (mkAuthor (Some (u_id u))
                                              (Some (u_name u))))
                     r
              else r)
           (listed Sample.world)).
Proof.
  intros request.
  exact (new_comment_shows_under_its_post request Sample.chi (mkContext 12)
           Sample.world sample_store_wf eq_refl eq_refl eq_refl eq_refl
           eq_refl).
Defined.

Lemma listed_after_edit (request : Request) (user : User)
    (context : Context) (w : World) (p : PostRow) (t c : string) :
  let id := params_id context in
  wf_db (db w) ->
  find_post (db w) id = Some p ->
  owner_or_admin user (p_user_id p) = true ->
  truthy (b_title (json request)) = true ->
  truthy (b_content (json request)) = true ->
  text_param (b_title (json request)) = Some t ->
  text_param (b_content (json request)) = Some c ->
  listed (snd (PostsId.PUT_handler request user context w)) =
  map (fun r => if pj_id r =? id then with_text t c r else r) (listed w).
Proof.
  intros id Hwf Hp Ha Ht Hc Htt Htc.
  assert (Hwf' : wf_db (db (snd (PostsId.PUT_handler request user context w)))).
  { pose proof (serve_preserves_wf (Mutating EditPost)
                  (mkRequest (Some user) (payload request) (date request))
                  context w Hwf) as H.
    simpl in H. unfold PostsId.PUT, requireAuth in H. simpl in H.
    now destruct request. }
  rewrite (listed_on_wf _ Hwf'), (listed_on_wf _ Hwf).
  rewrite (posts_PUT_existing request user context w p t c Hp Ht Hc Htt Htc),
    Ha.
  fold id. simpl.
  rewrite map_order_by by (intros x; now destruct (pj_id x =? id)).
  f_equal. rewrite !map_map. apply map_ext. intros q.
  unfold post_json at 1. simpl.
  match goal with
  | |- context [comment_json ?d1] =>
      change (comment_json d1) with (comment_json (db w));
      change (user_by_id d1) with (user_by_id (db w))
  end.
  unfold set_post. destruct (p_id q =? id) eqn:Hid; simpl; now rewrite ?Hid.
Qed.

(** An accepted edit shows in the list: after a [PUT /forum/posts/{id}]
    answered 200, on a store that meets its key constraints,
    [GET /forum/posts] returns the entries it returned before, where the
    entry of post [id] carries the new title and content and keeps its
    author, its creation time and its comments; every other entry has the
    columns and the comments it had.  The order of the entries and of the
    comments under each is left open. *)
Theorem accepted_edit_shows_in_the_list
    (request : Request) (user : User) (context : Context) (w : World) :
  let id := params_id context in
  wf_db (db w) ->
  session request = Some user ->
  status (fst (PostsId.PUT request context w)) = 200 ->
  exists t c,
    text_param (b_title (json request)) = Some t /\
    text_param (b_content (json request)) = Some c /\
    same_entries
      (listed (snd (PostsId.PUT request context w)))
      (map (fun r => if pj_id r =? id then with_text t c r else r)
           (listed w)).
Proof.
  intros id Hwf Hs Hok.
  unfold PostsId.PUT, requireAuth in *. rewrite Hs in *.
  destruct (posts_PUT_ok_inv _ _ _ _ Hok)
    as (p & t & c & Hp & Ha & Ht & Hc & Htt & Htc).
  exists t, c. split; [exact Htt|]. split; [exact Htc|].
  apply same_entries_of_eq.
  now apply (listed_after_edit request user context w p t c).
Qed.

Lemma accepted_edit_shows_in_the_list_witness :
  let request := Sample.request Sample.an (JStr "Storm") (JStr "Stay in") in
  exists t c,
    text_param (JStr "Storm") = Some t /\
    text_param (JStr "Stay in") = Some c /\
    same_entries
      (listed (snd (PostsId.PUT request (mkContext 10) Sample.world)))
      (map (fun r => if pj_id r =? 10 then with_text t c r else r)
           (listed Sample.world)).
Proof.
  intros request.
  exact (accepted_edit_shows_in_the_list request Sample.an (mkContext 10)
           Sample.world sample_store_wf eq_refl eq_refl).
Defined.

(** A new post shows in the list: after a [POST /forum/posts] that the store
    accepts, on a store that meets its key constraints, [GET /forum/posts]
    returns the entries it returned before and one more, which carries the
    new id, the title and content sent, the request's instant and the actor
    as [user_id] and as author. *)
Theorem new_post_shows_in_the_list
    (request : Request) (user : User) (context : Context) (w : World) :
  wf_db (db w) ->
  session request = Some user ->
  truthy (b_title (json request)) = true ->
  truthy (b_content (json request)) = true ->
  has_user (db w) (usr_id user) = true ->
  has_post (db w) (forum_posts_id_seq (db w)) = false ->
  exists t c u entry,
    text_param (b_title (json request)) = Some t /\
    text_param (b_content (json request)) = Some c /\
    user_by_id (db w) (usr_id user) = Some u /\
    Permutation (listed (snd (Posts.POST request context w)))
                (entry :: listed w) /\
    pj_id entry = forum_posts_id_seq (db w) /\
    pj_title entry = t /\
    pj_content entry = c /\
    pj_created_at entry = date request /\
    pj_user_id entry = usr_id user /\
    pj_author entry = mkAuthor (Some (u_id u)) (Some (u_name u)).
Proof.
  intros Hwf Hs Ht Hc Hu Hfresh.
  destruct (truthy_has_text _ Ht) as [t Htt].
  destruct (truthy_has_text _ Hc) as [c Htc].
  destruct (existsb_find _ _ Hu) as [u Hfind].
  assert (Hwf' : wf_db (db (snd (Posts.POST request context w)))).
  { exact (serve_preserves_wf CreatePost request context w Hwf). }
  set (new := mkPost (forum_posts_id_seq (db w)) (usr_id user) t c
                     (date request) None).
  exists t, c, u, (post_json (db w) new).
  split; [exact Htt|]. split; [exact Htc|]. split; [exact Hfind|].
  split.
  - rewrite (listed_on_wf _ Hwf'), (listed_on_wf _ Hwf).
    unfold Posts.POST, requireAuth. rewrite Hs.
    rewrite (posts_POST_db request user context w t c Ht Hc Htt Htc Hu Hfresh).
    fold new. simpl.
    rewrite order_by_perm, map_app. simpl.
    rewrite (map_ext (post_json _) (post_json (db w)))
      by (intros q; now apply post_json_ext).
    rewrite <- Permutation_cons_append.
    constructor. symmetry. apply order_by_perm.
  - unfold post_json, user_by_id in *. simpl. rewrite Hfind. now repeat split.
Qed.

Lemma new_post_shows_in_the_list_witness :
  let request := Sample.request Sample.binh (JStr "Fog") (JStr "Drive slow") in
  exists t c u entry,
    text_param (JStr "Fog") = Some t /\
    text_param (JStr "Drive slow") = Some c /\
    user_by_id Sample.store 2 = Some u /\
    Permutation (listed (snd (Posts.POST request (mkContext 0) Sample.world)))
                (entry :: listed Sample.world) /\
    pj_id entry = 13 /\
    pj_title entry = t /\
    pj_content entry = c /\
    pj_created_at entry = 1000 /\
    pj_user_id entry = 2 /\
    pj_author entry = mkAuthor (Some (u_id u)) (Some (u_name u)).
Proof.
  intros request.
  exact (new_post_shows_in_the_list request Sample.binh (mkContext 0)
           Sample.world sample_store_wf eq_refl eq_refl eq_refl eq_refl
           eq_refl).
Defined.

(** ** Error answers *)

Lemma posts_POST_valid_answer (request : Request) (user : User)
    (context : Context) (w : World) :
  truthy (b_title (json request)) = true ->
  truthy (b_content (json request)) = true ->
  status (fst (Posts.POST_handler request user context w)) = 201 \/
  fst (Posts.POST_handler request user context w) =
  NextResponse_json (JError "Failed to create post") (Some 500).
Proof.
  intros Ht Hc. unfold Posts.POST_handler, try_catch, bind, query.
  open_body request. rewrite Ht, Hc; simpl.
  destruct (insert_post _ _ _ _ _) as [[[|row rows]|e] d']; simpl; auto.
Qed.

Lemma comments_POST_valid_answer (request : Request) (user : User)
    (context : Context) (w : World) :
  truthy (b_content (json request)) = true ->
  status (fst (PostsIdComments.POST_handler request user context w)) = 201 \/
  fst (PostsIdComments.POST_handler request user context w) =
  NextResponse_json (JError "Failed to create comment") (Some 500).
Proof.
  intros Hc. unfold PostsIdComments.POST_handler, try_catch, bind, query.
  open_body request. rewrite Hc; simpl.
  destruct (insert_comment _ _ _ _ _) as [[[|row rows]|e] d']; simpl; auto.
Qed.

Lemma reports_error_json (message : string) (code : Z) :
  message <> "" ->
  400 <= code <= 500 ->
  reports_error (NextResponse_json (JError message) (Some code)).
Proof. intros H Hc. now exists message. Qed.

Ltac error_answer :=
  right; apply reports_error_json; [discriminate | lia].

Lemma serve_answer_shape
    (r : Route) (request : Request) (user : User) (context : Context)
    (w : World) :
  session request = Some user ->
  (status (fst (serve r request context w)) = 200 \/
   status (fst (serve r request context w)) = 201) \/
  reports_error (fst (serve r request context w)).
Proof.
  intros Hs.
  destruct r as [| | |[| | |]]; simpl;
    unfold Posts.GET, Posts.POST, PostsIdComments.POST, PostsId.PUT,
      PostsId.DELETE, CommentsId.PUT, CommentsId.DELETE, requireAuth.
  - simpl. auto.
  - rewrite Hs.
    destruct (truthy (b_title (json request))) eqn:Ht;
      [destruct (truthy (b_content (json request))) eqn:Hc|].
    + destruct (posts_POST_valid_answer request user context w Ht Hc)
        as [-> | ->]; [auto | error_answer].
    + falsy_answer posts_POST_invalid posts_POST_unparsed request
        (or_intror (truthy (b_title (json request)) = false) Hc);
        error_answer.
    + falsy_answer posts_POST_invalid posts_POST_unparsed request
        (or_introl (truthy (b_content (json request)) = false) Ht);
        error_answer.
  - rewrite Hs.
    destruct (truthy (b_content (json request))) eqn:Hc.
    + destruct (comments_POST_valid_answer request user context w Hc)
        as [-> | ->]; [auto | error_answer].
    + falsy_answer comments_POST_invalid comments_POST_unparsed request Hc;
        error_answer.
  - rewrite Hs.
    destruct (truthy (b_title (json request))) eqn:Ht;
      [destruct (truthy (b_content (json request))) eqn:Hc|].
    + destruct (find_post (db w) (params_id context)) as [p|] eqn:Hp.
      * destruct (truthy_has_text _ Ht) as [t Htt].
        destruct (truthy_has_text _ Hc) as [c Htc].
        rewrite (posts_PUT_existing request user context w p t c
                   Hp Ht Hc Htt Htc).
        destruct (owner_or_admin user (p_user_id p)); simpl;
          [auto | error_answer].
      * rewrite posts_PUT_absent_valid by assumption. error_answer.
    + falsy_answer posts_PUT_invalid posts_PUT_unparsed request
        (or_intror (truthy (b_title (json request)) = false) Hc);
        error_answer.
    + falsy_answer posts_PUT_invalid posts_PUT_unparsed request
        (or_introl (truthy (b_content (json request)) = false) Ht);
        error_answer.
  - rewrite Hs.
    destruct (find_post (db w) (params_id context)) as [p|] eqn:Hp.
    + rewrite (posts_DELETE_existing request user context w p Hp).
      destruct (owner_or_admin user (p_user_id p)); simpl;
        [auto | error_answer].
    + rewrite posts_DELETE_absent by assumption. error_answer.
  - rewrite Hs.
    destruct (truthy (b_content (json request))) eqn:Hc.
    + destruct (find_comment (db w) (params_id context)) as [c0|] eqn:Hr.
      * destruct (truthy_has_text _ Hc) as [c Htc].
        rewrite (comments_PUT_existing request user context w c0 c Hr Hc Htc).
        destruct (owner_or_admin user (c_user_id c0)); simpl;
          [auto | error_answer].
      * rewrite comments_PUT_absent_valid by assumption. error_answer.
    + falsy_answer comments_PUT_invalid comments_PUT_unparsed request Hc;
        error_answer.
  - rewrite Hs.
    destruct (find_comment (db w) (params_id context)) as [c0|] eqn:Hr.
    + rewrite (comments_DELETE_existing request user context w c0 Hr).
      destruct (owner_or_admin user (c_user_id c0)); simpl;
        [auto | error_answer].
    + rewrite comments_DELETE_absent by assumption. error_answer.
Qed.

(** Every answer to an authenticated request, on any route, is a success
    with status 200 or 201, or it reports an error: a status from 400 to 500
    and a body [{error: message}] with a message that is not empty.  No
    handler answers a failure without saying why. *)
Theorem every_answer_succeeds_or_reports_an_error
    (r : Route) (request : Request) (user : User) (context : Context)
    (w : World) :
  session request = Some user ->
  let response := fst (serve r request context w) in
  (status response = 200 \/ status response = 201) \/
  reports_error response.
Proof. exact (serve_answer_shape r request user context w). Qed.

Lemma every_answer_succeeds_or_reports_an_error_witness :
  let response :=
    fst (serve CreateComment
               (Sample.request Sample.an JUndefined (JStr "nice"))
               (mkContext 999) Sample.world) in
  (status response = 200 \/ status response = 201) \/
  reports_error response.
Proof.
  exact (every_answer_succeeds_or_reports_an_error CreateComment
           (Sample.request Sample.an JUndefined (JStr "nice")) Sample.an
           (mkContext 999) Sample.world eq_refl).
Defined.

(** ** The page's handlers, whatever the server answers *)

Lemma spread_comment_id (c : ForumPage.ForumComment) :
  ForumPage.spread_comment c = c.
Proof. now destruct c. Qed.

Lemma fetchPosts_state (reply : option (list ForumPage.ForumPost))
    (st : ForumPage.State) :
  fst (ForumPage.fetchPosts reply st) =
  ForumPage.setLoading false
    (match reply with
     | Some data => ForumPage.setPosts data st
     | None => st
     end).
Proof.
  unfold ForumPage.fetchPosts. simpl. destruct reply as [data|]; simpl.
  - assert (H : map (fun p =>
                       ForumPage.mkForumPost (ForumPage.fp_id p)
                         (ForumPage.fp_title p) (ForumPage.fp_content p)
                         (ForumPage.fp_created_at p) (ForumPage.fp_author p)
                         (map ForumPage.spread_comment
                              (ForumPage.fp_comments p))
                         (ForumPage.fp_user_id p)) data = data).
    { induction data as [|p data IH]; simpl; [reflexivity|].
      rewrite IH. f_equal. destruct p as [i t c ca au cs uid]; simpl.
      f_equal. induction cs as [|x cs IHcs]; simpl; [reflexivity|].
      now rewrite IHcs, spread_comment_id. }
    now rewrite H.
  - reflexivity.
Qed.

Lemma perform_without_call (a : Action) (res : option Response)
    (reply : option (list ForumPage.ForumPost)) (st : ForumPage.State) :
  call_of a st = None -> perform a res reply st = (st, []).
Proof.
  destruct a as [|postId| |postId confirmed| |commentId confirmed]; simpl;
    unfold ForumPageCalls.handleCreatePost, ForumPageCalls.handleAddComment,
      ForumPageCalls.handleSaveEditPost, ForumPageCalls.handleDeletePost,
      ForumPageCalls.handleSaveEditComment,
      ForumPageCalls.handleDeleteComment.
  - destruct (ForumPage.newPost st) as [title content].
    now destruct ((title =? "")%string || (content =? "")%string).
  - destruct (ForumPageCalls.input_of _ _) as [content|]; [|reflexivity].
    now destruct (content =? "")%string.
  - now destruct (ForumPage.editingPost st).
  - now destruct confirmed.
  - now destruct (ForumPage.editingComment st).
  - now destruct confirmed.
Qed.

Lemma perform_rejected (a : Action) (r : Response)
    (reply : option (list ForumPage.ForumPost)) (st : ForumPage.State)
    (call : ForumPageCalls.Call) :
  call_of a st = Some call ->
  ForumPageCalls.ok r = false ->
  exists fallback,
    perform a (Some r) reply st =
    (st, [ForumPageCalls.Sent call;
          ForumPageCalls.Alert (ForumPageCalls.error_or r fallback)]).
Proof.
  intros Hcall Hok.
  destruct a as [|postId| |postId confirmed| |commentId confirmed]; simpl in *;
    unfold ForumPageCalls.handleCreatePost, ForumPageCalls.handleAddComment,
      ForumPageCalls.handleSaveEditPost, ForumPageCalls.handleDeletePost,
      ForumPageCalls.handleSaveEditComment,
      ForumPageCalls.handleDeleteComment; rewrite ?Hok; simpl.
  - destruct (ForumPage.newPost st) as [title content].
    destruct ((title =? "")%string || (content =? "")%string);
      [discriminate|]. injection Hcall as <-. now eexists.
  - destruct (ForumPageCalls.input_of _ _) as [content|]; [|discriminate].
    destruct (content =? "")%string; [discriminate|].
    injection Hcall as <-. now eexists.
  - destruct (ForumPage.editingPost st); [|discriminate].
    injection Hcall as <-. now eexists.
  - destruct confirmed; [|discriminate]. injection Hcall as <-. simpl.
    now eexists.
  - destruct (ForumPage.editingComment st); [|discriminate].
    injection Hcall as <-. now eexists.
  - destruct confirmed; [|discriminate]. injection Hcall as <-. simpl.
    now eexists.
Qed.

Lemma perform_unanswered (a : Action)
    (reply : option (list ForumPage.ForumPost)) (st : ForumPage.State)
    (call : ForumPageCalls.Call) :
  call_of a st = Some call ->
  perform a None reply st = (st, [ForumPageCalls.Sent call]).
Proof.
  intros Hcall.
  destruct a as [|postId| |postId confirmed| |commentId confirmed]; simpl in *;
    unfold ForumPageCalls.handleCreatePost, ForumPageCalls.handleAddComment,
      ForumPageCalls.handleSaveEditPost, ForumPageCalls.handleDeletePost,
      ForumPageCalls.handleSaveEditComment,
      ForumPageCalls.handleDeleteComment.
  - destruct (ForumPage.newPost st) as [title content].
    destruct ((title =? "")%string || (content =? "")%string);
      [discriminate|]. now injection Hcall as <-.
  - destruct (ForumPageCalls.input_of _ _) as [content|]; [|discriminate].
    destruct (content =? "")%string; [discriminate|].
    now injection Hcall as <-.
  - destruct (ForumPage.editingPost st); [|discriminate].
    now injection Hcall as <-.
  - destruct confirmed; [|discriminate]. now injection Hcall as <-.
  - destruct (ForumPage.editingComment st); [|discriminate].
    now injection Hcall as <-.
  - destruct confirmed; [|discriminate]. now injection Hcall as <-.
Qed.

(** The page changes only when the server accepts: whatever the action, if
    its request is not sent, gets no answer, or gets an answer that is not
    OK, every cell of the page's state (post list, drafts, open editors) is
    exactly as before and the list is not fetched again. *)
Theorem page_changes_only_when_the_server_accepts
    (a : Action) (res : option Response)
    (reply : option (list ForumPage.ForumPost)) (st : ForumPage.State) :
  (forall r, res = Some r -> ForumPageCalls.ok r = false) ->
  fst (perform a res reply st) = st /\
  ~ In (ForumPageCalls.Sent ForumPageCalls.CallListPosts)
       (snd (perform a res reply st)).
Proof.
  intros Hres.
  destruct (call_of a st) as [call|] eqn:Hcall.
  - assert (Hne : call <> ForumPageCalls.CallListPosts).
    { destruct a; simpl in Hcall;
        repeat match type of Hcall with
               | context [match ?x with _ => _ end] => destruct x
               end; try discriminate; injection Hcall as <-;
        discriminate. }
    destruct res as [r|].
    + destruct (perform_rejected a r reply st call Hcall (Hres r eq_refl))
        as [fallback ->].
      split; [reflexivity|]. simpl. intros [H | [H | []]];
        [injection H; congruence | discriminate].
    + rewrite (perform_unanswered a reply st call Hcall).
      split; [reflexivity|]. simpl. intros [H | []].
      injection H; congruence.
  - rewrite (perform_without_call a res reply st Hcall). simpl. tauto.
Qed.

Lemma page_changes_only_when_the_server_accepts_witness :
  let forbidden_answer := mkResponse (JError "Forbidden") 403 in
  fst (perform DoSavePost (Some forbidden_answer) (Some []) SamplePage.state)
  = SamplePage.state /\
  ~ In (ForumPageCalls.Sent ForumPageCalls.CallListPosts)
       (snd (perform DoSavePost (Some forbidden_answer) (Some [])
                     SamplePage.state)).
Proof.
  intros forbidden_answer.
  apply (page_changes_only_when_the_server_accepts DoSavePost
           (Some forbidden_answer) (Some []) SamplePage.state).
  intros r [= <-]. reflexivity.
Defined.

Ltac run_accepted Hcall Hok :=
  simpl in Hcall;
  unfold perform, ForumPageCalls.handleCreatePost,
    ForumPageCalls.handleAddComment, ForumPageCalls.handleSaveEditPost,
    ForumPageCalls.handleDeletePost, ForumPageCalls.handleSaveEditComment,
    ForumPageCalls.handleDeleteComment, ForumPageCalls.refetch;
  rewrite ?fetchPosts_state, ?Hok;
  repeat match type of Hcall with
         | context [match ?x with _ => _ end] => destruct x eqn:?
         end; try discriminate; injection Hcall as <-; simpl.

(** An accepted action re-fetches the list: whatever the action, when its
    request gets an OK answer the handler sends exactly that request and
    then [GET /forum/posts]; afterwards [loading] is off, the post list is
    the one the re-fetch returned (the previous one if the re-fetch failed)
    and the current user is unchanged.  The page never patches its list
    locally. *)
Theorem accepted_action_refetches_the_list
    (a : Action) (r : Response) (reply : option (list ForumPage.ForumPost))
    (st : ForumPage.State) (call : ForumPageCalls.Call) :
  call_of a st = Some call ->
  ForumPageCalls.ok r = true ->
  let (st', events) := perform a (Some r) reply st in
  events = [ForumPageCalls.Sent call;
            ForumPageCalls.Sent ForumPageCalls.CallListPosts] /\
  ForumPage.loading st' = false /\
  ForumPage.posts st' =
    match reply with
    | Some data => data
    | None => ForumPage.posts st
    end /\
  ForumPage.currentUser st' = ForumPage.currentUser st.
Proof.
  intros Hcall Hok.
  destruct a as [|postId| |postId confirmed| |commentId confirmed];
    run_accepted Hcall Hok; destruct reply; simpl; now repeat split.
Qed.

Lemma accepted_action_refetches_the_list_witness :
  let created := mkResponse (JSuccess true) 201 in
  let (st', events) :=
    perform DoCreatePost (Some created) (Some [SamplePage.rain])
            SamplePage.state in
  events = [ForumPageCalls.Sent (ForumPageCalls.CallCreatePost "Fog" "Drive slow");
            ForumPageCalls.Sent ForumPageCalls.CallListPosts] /\
  ForumPage.loading st' = false /\
  ForumPage.posts st' = [SamplePage.rain] /\
  ForumPage.currentUser st' = ForumPage.currentUser SamplePage.state.
Proof.
  intros created.
  exact (accepted_action_refetches_the_list DoCreatePost created
           (Some [SamplePage.rain]) SamplePage.state _ eq_refl eq_refl).
Defined.

Lemma input_of_with_input (key value : string)
    (inputs : list (string * string)) :
  ForumPageCalls.input_of key (ForumPageCalls.with_input key value inputs) =
  Some value.
Proof.
  induction inputs as [|[k v] inputs IH]; simpl.
  - now rewrite String.eqb_refl.
  - destruct (k =? key)%string eqn:Hk; simpl; now rewrite Hk.
Qed.

Lemma input_of_with_other (key other value : string)
    (inputs : list (string * string)) :
  other <> key ->
  ForumPageCalls.input_of other (ForumPageCalls.with_input key value inputs) =
  ForumPageCalls.input_of other inputs.
Proof.
  intros Hne. induction inputs as [|[k v] inputs IH]; simpl.
  - assert (Hk : (key =? other)%string = false)
      by (apply String.eqb_neq; congruence).
    now rewrite Hk.
  - destruct (k =? key)%string eqn:Hk; simpl.
    + apply String.eqb_eq in Hk. subst k.
      assert (Hk : (key =? other)%string = false)
        by (apply String.eqb_neq; congruence).
      now rewrite Hk.
    + now rewrite IH.
Qed.

(** An accepted action clears its own draft and no other: creating a post
    empties the new-post form and hides it; adding a comment empties the
    comment box of that post and leaves the boxes of the other posts as
    typed; saving a post closes the post editor; saving a comment closes the
    comment editor; deleting touches no draft.  Every draft the action does
    not own is exactly as before. *)
Theorem accepted_action_clears_only_its_draft
    (a : Action) (r : Response) (reply : option (list ForumPage.ForumPost))
    (st : ForumPage.State) (call : ForumPageCalls.Call) :
  call_of a st = Some call ->
  ForumPageCalls.ok r = true ->
  let st' := fst (perform a (Some r) reply st) in
  (match a with
   | DoCreatePost =>
       ForumPage.newPost st' = ("", "") /\
       ForumPage.showNewPostForm st' = false
   | _ =>
       ForumPage.newPost st' = ForumPage.newPost st /\
       ForumPage.showNewPostForm st' = ForumPage.showNewPostForm st
   end) /\
  (match a with
   | DoAddComment postId =>
       ForumPageCalls.input_of (ForumPageCalls.String_of postId)
                               (ForumPage.commentInputs st') = Some "" /\
       forall key, key <> ForumPageCalls.String_of postId ->
         ForumPageCalls.input_of key (ForumPage.commentInputs st') =
         ForumPageCalls.input_of key (ForumPage.commentInputs st)
   | _ => ForumPage.commentInputs st' = ForumPage.commentInputs st
   end) /\
  (match a with
   | DoSavePost => ForumPage.editingPost st' = None
   | _ => ForumPage.editingPost st' = ForumPage.editingPost st
   end) /\
  (match a with
   | DoSaveComment => ForumPage.editingComment st' = None
   | _ => ForumPage.editingComment st' = ForumPage.editingComment st
   end).
Proof.
  intros Hcall Hok st'. subst st'.
  destruct a as [|postId| |postId confirmed| |commentId confirmed];
    run_accepted Hcall Hok; destruct reply; simpl; repeat split;
    auto using input_of_with_input, input_of_with_other.
Qed.

Lemma accepted_action_clears_only_its_draft_witness :
  let created := mkResponse (JSuccess true) 201 in
  let st' := fst (perform (DoAddComment (ForumPage.IdNum 10)) (Some created)
                          None SamplePage.state) in
  (ForumPage.newPost st' = ForumPage.newPost SamplePage.state /\
   ForumPage.showNewPostForm st' = ForumPage.showNewPostForm SamplePage.state)
  /\
  (ForumPageCalls.input_of "10" (ForumPage.commentInputs st') = Some "" /\
   forall key, key <> "10" ->
     ForumPageCalls.input_of key (ForumPage.commentInputs st') =
     ForumPageCalls.input_of key (ForumPage.commentInputs SamplePage.state))
  /\
  ForumPage.editingPost st' = ForumPage.editingPost SamplePage.state /\
  ForumPage.editingComment st' = ForumPage.editingComment SamplePage.state.
Proof.
  intros created.
  exact (accepted_action_clears_only_its_draft
           (DoAddComment (ForumPage.IdNum 10)) created None SamplePage.state
           _ eq_refl eq_refl).
Defined.

(** ** Loading the page, opening an editor *)

(** The two requests the page sends when it mounts do not disturb each
    other: whichever of [fetchPosts] and [fetchCurrentUser] is answered
    first, the page ends in the same state, with the fetched list (the
    previous one if that request failed), the fetched actor (the previous
    one if that request failed) and [loading] off. *)
Theorem mount_requests_commute
    (reply : option (list ForumPage.ForumPost))
    (me : option ForumPage.CurrentUser) (st : ForumPage.State) :
  let posts_first :=
    fst (ForumPageCalls.fetchCurrentUser me
           (fst (ForumPage.fetchPosts reply st))) in
  let me_first :=
    fst (ForumPage.fetchPosts reply
           (fst (ForumPageCalls.fetchCurrentUser me st))) in
  posts_first = me_first /\
  ForumPage.loading posts_first = false /\
  ForumPage.posts posts_first =
    match reply with
    | Some data => data
    | None => ForumPage.posts st
    end /\
  ForumPage.currentUser posts_first =
    match me with
    | Some u => Some u
    | None => ForumPage.currentUser st
    end.
Proof.
  cbv zeta. unfold ForumPageCalls.fetchCurrentUser. cbn [fst].
  rewrite !fetchPosts_state.
  destruct reply, me; simpl; now repeat split.
Qed.

Lemma strict_eq_refl (i : ForumPage.Id) : ForumPage.strict_eq i i = true.
Proof.
  destruct i; simpl; [apply Z.eqb_refl | apply String.eqb_refl].
Qed.

(** Opening the editor on a post of the list, when no other post of the
    list carries its id, loads that post's id, title and content into the
    post editor, so that saving without typing sends them back as they
    are; it sends nothing and leaves the list, the other drafts and an open
    comment editor untouched. *)
Theorem opening_the_editor_loads_the_post
    (post : ForumPage.ForumPost) (st : ForumPage.State) :
  In post (ForumPage.posts st) ->
  (forall q, In q (ForumPage.posts st) ->
             ForumPage.strict_eq (ForumPage.fp_id q) (ForumPage.fp_id post)
             = true -> q = post) ->
  let (st', sent) := ForumPage.handleEditPost (ForumPage.fp_id post) st in
  sent = [] /\
  ForumPage.editingPost st' =
    Some (ForumPage.mkPostDraft (ForumPage.fp_id post)
            (ForumPage.fp_title post) (ForumPage.fp_content post)) /\
  call_of DoSavePost st' =
    Some (ForumPageCalls.CallSavePost (ForumPage.fp_id post)
            (ForumPage.fp_title post) (ForumPage.fp_content post)) /\
  ForumPage.posts st' = ForumPage.posts st /\
  ForumPage.editingComment st' = ForumPage.editingComment st /\
  ForumPage.newPost st' = ForumPage.newPost st /\
  ForumPage.commentInputs st' = ForumPage.commentInputs st.
Proof.
  intros Hin Huniq. unfold ForumPage.handleEditPost.
  destruct (find _ (ForumPage.posts st)) as [first|] eqn:Hfind.
  - destruct (find_some _ _ Hfind) as [Hfirst Heq].
    rewrite (Huniq first Hfirst Heq). simpl. now repeat split.
  - pose proof (find_none _ _ Hfind post Hin) as Hno. simpl in Hno.
    now rewrite strict_eq_refl in Hno.
Qed.

Lemma opening_the_editor_loads_the_post_witness :
  let (st', sent) :=
    ForumPage.handleEditPost (ForumPage.IdNum 11) SamplePage.state in
  sent = [] /\
  ForumPage.editingPost st' =
    Some (ForumPage.mkPostDraft (ForumPage.IdNum 11) "Haze" "PM2.5 is high")
  /\
  call_of DoSavePost st' =
    Some (ForumPageCalls.CallSavePost (ForumPage.IdNum 11) "Haze"
            "PM2.5 is high") /\
  ForumPage.posts st' = ForumPage.posts SamplePage.state /\
  ForumPage.editingComment st' = ForumPage.editingComment SamplePage.state /\
  ForumPage.newPost st' = ForumPage.newPost SamplePage.state /\
  ForumPage.commentInputs st' = ForumPage.commentInputs SamplePage.state.
Proof.
  apply (opening_the_editor_loads_the_post SamplePage.haze SamplePage.state).
  - simpl. auto.
  - intros q [<- | [<- | []]]; [reflexivity | discriminate].
Defined.

(** ** The page against the API *)

(** The edit and delete buttons of a post are shown exactly when the server
    would accept the action: for the logged-in actor and a listed post
    whose [user_id] is that of the stored post, [canEditPost] holds iff a
    [PUT] with a valid body, or a [DELETE], on that post is answered 200. *)
Theorem post_buttons_match_the_server_gate
    (st : ForumPage.State) (u : ForumPage.CurrentUser)
    (post : ForumPage.ForumPost) (m : Mutation) (request : Request)
    (context : Context) (w : World) (p : PostRow) :
  ForumPage.currentUser st = Some u ->
  session request =
    Some (mkActor (ForumPage.cur_id u) (ForumPage.cur_role u)) ->
  find_post (db w) (params_id context) = Some p ->
  ForumPage.fp_user_id post = Some (p_user_id p) ->
  m = EditPost \/ m = RemovePost ->
  valid_body m (json request) = true ->
  (ForumPage.canEditPost st post = true <->
   status (fst (endpoint m request context w)) = 200).
Proof.
  intros Hu Hs Hp Hown Hm Hv.
  assert (Hgate : ForumPage.canEditPost st post =
                  owner_or_admin
                    (mkActor (ForumPage.cur_id u) (ForumPage.cur_role u))
                    (p_user_id p)).
  { unfold ForumPage.canEditPost, owner_or_admin. now rewrite Hu, Hown. }
  assert (Ho : resource_user_id m (db w) (params_id context) =
               Some (p_user_id p)).
  { destruct Hm as [-> | ->]; simpl; now rewrite Hp. }
  destruct (endpoint_on_existing m request _ context w _ Hs Ho Hv)
    as (response & w' & -> & H).
  rewrite Hgate. simpl.
  destruct (owner_or_admin _ (p_user_id p)).
  - destruct H as [-> _]. tauto.
  - destruct H as [-> _]. split; discriminate.
Qed.

Lemma post_buttons_match_the_server_gate_witness :
  ForumPage.canEditPost SamplePage.state SamplePage.rain = true <->
  status (fst (endpoint RemovePost
                 (Sample.request Sample.binh JUndefined JUndefined)
                 (mkContext 10) Sample.world)) = 200.
Proof.
  exact (post_buttons_match_the_server_gate SamplePage.state
           (ForumPage.mkCurrentUser 2 "user") SamplePage.rain RemovePost
           (Sample.request Sample.binh JUndefined JUndefined) (mkContext 10)
           Sample.world (mkPost 10 1 "Rain" "Heavy rain today" 100 None)
           eq_refl eq_refl eq_refl eq_refl (or_intror eq_refl) eq_refl).
Defined.

(** The edit and delete buttons of a comment are shown exactly when the
    server would accept the action: for the logged-in actor and a listed
    comment whose author id is the [user_id] of the stored comment,
    [canEditComment] holds iff a [PUT] with a valid body, or a [DELETE], on
    that comment is answered 200. *)
Theorem comment_buttons_match_the_server_gate
    (st : ForumPage.State) (u : ForumPage.CurrentUser)
    (comment : ForumPage.ForumComment) (name : string) (m : Mutation)
    (request : Request) (context : Context) (w : World) (c : CommentRow) :
  ForumPage.currentUser st = Some u ->
  session request =
    Some (mkActor (ForumPage.cur_id u) (ForumPage.cur_role u)) ->
  find_comment (db w) (params_id context) = Some c ->
  ForumPage.fc_author comment =
    Some (ForumPage.mkViewAuthor (Some (c_user_id c)) name) ->
  m = EditComment \/ m = RemoveComment ->
  valid_body m (json request) = true ->
  (ForumPage.canEditComment st comment = true <->
   status (fst (endpoint m request context w)) = 200).
Proof.
  intros Hu Hs Hc Hown Hm Hv.
  assert (Hgate : ForumPage.canEditComment st comment =
                  owner_or_admin
                    (mkActor (ForumPage.cur_id u) (ForumPage.cur_role u))
                    (c_user_id c)).
  { unfold ForumPage.canEditComment, owner_or_admin. now rewrite Hu, Hown. }
  assert (Ho : resource_user_id m (db w) (params_id context) =
               Some (c_user_id c)).
  { destruct Hm as [-> | ->]; simpl; now rewrite Hc. }
  destruct (endpoint_on_existing m request _ context w _ Hs Ho Hv)
    as (response & w' & -> & H).
  rewrite Hgate. simpl.
  destruct (owner_or_admin _ (c_user_id c)).
  - destruct H as [-> _]. tauto.
  - destruct H as [-> _]. split; discriminate.
Qed.

Lemma comment_buttons_match_the_server_gate_witness :
  ForumPage.canEditComment SamplePage.state SamplePage.stay_dry = true <->
  status (fst (endpoint EditComment
                 (Sample.request Sample.binh JUndefined (JStr "Keep dry"))
                 (mkContext 20) Sample.world)) = 200.
Proof.
  exact (comment_buttons_match_the_server_gate SamplePage.state
           (ForumPage.mkCurrentUser 2 "user") SamplePage.stay_dry "Binh"
           EditComment
           (Sample.request Sample.binh JUndefined (JStr "Keep dry"))
           (mkContext 20) Sample.world (mkComment 20 10 2 "Stay dry" 110 None)
           eq_refl eq_refl eq_refl eq_refl (or_introl eq_refl) eq_refl).
Defined.

(** The page never trips the server's validation when it creates: whenever
    the create-post handler or the add-comment handler sends its request,
    for a logged-in actor the server's answer to it is not 400.  The guards
    [!newPost.title || !newPost.content] and [!commentContent] of the page
    stop exactly the bodies the routes would refuse. *)
Theorem page_never_sends_an_invalid_creation
    (a : Action) (st : ForumPage.State) (user : User) (now : Z) (w : World)
    (call : ForumPageCalls.Call) (r : Route) (request : Request)
    (context : Context) :
  (a = DoCreatePost \/ exists postId, a = DoAddComment postId) ->
  call_of a st = Some call ->
  route_of (Some user) now call = Some (r, request, context) ->
  status (fst (serve r request context w)) <> 400.
Proof.
  intros [-> | [[n|s] ->]] Hcall Hroute; simpl in Hcall;
    [| |destruct (ForumPageCalls.input_of _ _) as [content|];
        [|discriminate]; destruct (content =? "")%string;
        [discriminate|]; injection Hcall as <-; discriminate].
  - destruct (ForumPage.newPost st) as [title content].
    destruct ((title =? "")%string || (content =? "")%string) eqn:Hg;
      [discriminate|].
    injection Hcall as <-. injection Hroute as <- <- <-.
    apply orb_false_iff in Hg as [Ht Hc].
    simpl. unfold Posts.POST, requireAuth. simpl.
    destruct (posts_POST_valid_status
                (mkRequest (Some user)
                   (JsonValue (mkBody (JStr title) (JStr content))) now)
                user (mkContext 0) w) as [-> | ->];
      simpl; try discriminate; now rewrite ?Ht, ?Hc.
  - destruct (ForumPageCalls.input_of _ _) as [content|]; [|discriminate].
    destruct (content =? "")%string eqn:Hg; [discriminate|].
    injection Hcall as <-. injection Hroute as <- <- <-.
    simpl. unfold PostsIdComments.POST, requireAuth. simpl.
    destruct (comments_POST_valid_status
                (mkRequest (Some user)
                   (JsonValue (mkBody JUndefined (JStr content))) now)
                user (mkContext n) w) as [-> | ->];
      simpl; try discriminate; now rewrite ?Hg.
Qed.

Lemma page_never_sends_an_invalid_creation_witness :
  status (fst (serve CreatePost
                 (mkRequest (Some Sample.binh)
                            (JsonValue (mkBody (JStr "Fog") (JStr "Drive slow")))
                            1000)
                 (mkContext 0) Sample.world)) <> 400.
Proof.
  exact (page_never_sends_an_invalid_creation DoCreatePost SamplePage.state
           Sample.binh 1000 Sample.world _ _ _ _ (or_introl eq_refl)
           eq_refl eq_refl).
Defined.

Lemma perform_accepted_events (a : Action) (r : Response)
    (reply : option (list ForumPage.ForumPost)) (st : ForumPage.State)
    (call : ForumPageCalls.Call) :
  call_of a st = Some call ->
  ForumPageCalls.ok r = true ->
  snd (perform a (Some r) reply st) =
  [ForumPageCalls.Sent call; ForumPageCalls.Sent ForumPageCalls.CallListPosts].
Proof.
  intros Hcall Hok.
  destruct a as [|postId| |postId confirmed| |commentId confirmed];
    run_accepted Hcall Hok; reflexivity.
Qed.

Lemma ok_status (r : Response) :
  status r = 200 \/ status r = 201 -> ForumPageCalls.ok r = true.
Proof. unfold ForumPageCalls.ok. intros [-> | ->]; reflexivity. Qed.

Lemma error_or_reported (r : Response) (fallback message : string) :
  body r = JError message -> message <> "" ->
  ForumPageCalls.error_or r fallback = message.
Proof.
  intros Hb Hm. unfold ForumPageCalls.error_or. rewrite Hb.
  apply String.eqb_neq in Hm. now rewrite Hm.
Qed.

(** What the page alerts is what the server said: when an action of a
    logged-in actor, run against the API, ends in an alert, the text of the
    alert is the [error] message of the server's answer to the action's
    request, never the page's fallback text; it is the only alert, the list
    is not fetched again, and the page's state is as before. *)
Theorem alerts_carry_the_servers_message
    (a : Action) (user : User) (now : Z)
    (reply : option (list ForumPage.ForumPost)) (st st' : ForumPage.State)
    (w w' : World) (events : list ForumPageCalls.Event) (message : string) :
  click a (Some user) now reply st w = Some ((st', events), w') ->
  In (ForumPageCalls.Alert message) events ->
  exists call r request context,
    call_of a st = Some call /\
    route_of (Some user) now call = Some (r, request, context) /\
    body (fst (serve r request context w)) = JError message /\
    events = [ForumPageCalls.Sent call; ForumPageCalls.Alert message] /\
    st' = st.
Proof.
  unfold click. intros Hclick Halert.
  destruct (call_of a st) as [call|] eqn:Hcall.
  - destruct (route_of (Some user) now call) as [[[r request] context]|]
      eqn:Hroute; [|discriminate].
    assert (Hs : session request = Some user).
    { destruct call as [| | | [n|s] ? | [n|s] ? ? | [n|s] | [n|s] ? | [n|s]];
        simpl in Hroute; try discriminate; now injection Hroute as <- <- <-. }
    pose proof (serve_answer_shape r request user context w Hs) as Hshape.
    destruct (serve r request context w) as [res w1] eqn:Hserve.
    simpl in Hshape. injection Hclick as Hrun <-.
    destruct Hshape as [Hsuccess | (m & Hbody & Hm & Hcode)].
    + pose proof (perform_accepted_events a res reply st call Hcall
                    (ok_status res Hsuccess)) as Hev.
      rewrite Hrun in Hev. simpl in Hev. subst events.
      destruct Halert as [H | [H | []]]; discriminate.
    + assert (Hrej : ForumPageCalls.ok res = false).
      { unfold ForumPageCalls.ok. apply andb_false_iff. right.
        apply Z.leb_gt. lia. }
      destruct (perform_rejected a res reply st call Hcall Hrej)
        as [fallback Hperf].
      rewrite Hrun in Hperf. injection Hperf as -> ->.
      rewrite (error_or_reported res fallback m Hbody Hm) in *.
      destruct Halert as [H | [H | []]]; [discriminate|].
      injection H as <-.
      exists call, r, request, context. rewrite Hserve.
      now repeat split.
  - injection Hclick as Hrun <-.
    rewrite (perform_without_call a None reply st Hcall) in Hrun.
    injection Hrun as <- <-. destruct Halert.
Qed.

Lemma alerts_carry_the_servers_message_witness :
  exists call r request context,
    call_of DoSavePost SamplePage.state = Some call /\
    route_of (Some Sample.binh) 1000 call = Some (r, request, context) /\
    body (fst (serve r request context Sample.world)) = JError "Forbidden" /\
    [ForumPageCalls.Sent
       (ForumPageCalls.CallSavePost (ForumPage.IdNum 10) "Mine now" "x");
     ForumPageCalls.Alert "Forbidden"] =
    [ForumPageCalls.Sent call; ForumPageCalls.Alert "Forbidden"] /\
    SamplePage.state = SamplePage.state.
Proof.
  apply (alerts_carry_the_servers_message DoSavePost Sample.binh 1000 None
           SamplePage.state SamplePage.state Sample.world
           (mkWorld Sample.store [SelectPostOwner 10])
           [ForumPageCalls.Sent
              (ForumPageCalls.CallSavePost (ForumPage.IdNum 10) "Mine now" "x");
            ForumPageCalls.Alert "Forbidden"]
           "Forbidden").
  - reflexivity.
  - simpl. auto.
Defined.

(** The post editor has no guard of its own: saving an edit whose title or
    content was emptied sends the request all the same; the server refuses
    it before touching the store, the page alerts the server's "Missing
    title or content" and keeps the editor open with the draft as typed. *)
Theorem emptied_edit_is_refused_by_the_server
    (user : User) (now n : Z) (title content : string)
    (reply : option (list ForumPage.ForumPost)) (st : ForumPage.State)
    (w : World) :
  ForumPage.editingPost st =
    Some (ForumPage.mkPostDraft (ForumPage.IdNum n) title content) ->
  title = "" \/ content = "" ->
  click DoSavePost (Some user) now reply st w =
  Some ((st,
         [ForumPageCalls.Sent
            (ForumPageCalls.CallSavePost (ForumPage.IdNum n) title content);
          ForumPageCalls.Alert "Missing title or content"]),
        w).
Proof.
  intros He Hempty. unfold click. simpl. rewrite He. simpl.
  unfold PostsId.PUT, requireAuth. simpl.
  rewrite posts_PUT_invalid
    by (simpl; destruct Hempty as [-> | ->]; auto).
  unfold ForumPageCalls.handleSaveEditPost. now rewrite He.
Qed.

Lemma emptied_edit_is_refused_by_the_server_witness :
  let st := ForumPage.setEditingPost
              (Some (ForumPage.mkPostDraft (ForumPage.IdNum 10) "" "x"))
              SamplePage.state in
  click DoSavePost (Some Sample.an) 1000 None st Sample.world =
  Some ((st,
         [ForumPageCalls.Sent
            (ForumPageCalls.CallSavePost (ForumPage.IdNum 10) "" "x");
          ForumPageCalls.Alert "Missing title or content"]),
        Sample.world).
Proof.
  intros st.
  exact (emptied_edit_is_refused_by_the_server Sample.an 1000 10 "" "x" None
           st Sample.world eq_refl (or_introl eq_refl)).
Defined.

Lemma handleDeletePost_agrees (postId : ForumPage.Id) (confirmed : bool)
    (r : Response) (reply : option (list ForumPage.ForumPost))
    (st : ForumPage.State) :
  fst (ForumPage.handleDeletePost postId confirmed (ForumPageCalls.ok r)
         reply st) =
  fst (ForumPageCalls.handleDeletePost postId confirmed (Some r) reply st).
Proof.
  unfold ForumPage.handleDeletePost, ForumPageCalls.handleDeletePost,
    ForumPageCalls.refetch.
  destruct confirmed; simpl; [|reflexivity].
  destruct (ForumPageCalls.ok r); simpl; [|reflexivity].
  now destruct (ForumPage.fetchPosts reply st).
Qed.

(** A delete button that is shown works: when the page shows the buttons of
    a listed post to the logged-in actor and the actor confirms the delete,
    the server answers OK, the post and every comment under it are gone from
    the store, and the page fetches the list again; the actor never meets
    "Forbidden" behind a button the page offered. *)
Theorem shown_delete_button_works
    (st : ForumPage.State) (u : ForumPage.CurrentUser)
    (post : ForumPage.ForumPost) (n now : Z)
    (reply : option (list ForumPage.ForumPost)) (w : World) (p : PostRow) :
  ForumPage.currentUser st = Some u ->
  ForumPage.fp_id post = ForumPage.IdNum n ->
  find_post (db w) n = Some p ->
  ForumPage.fp_user_id post = Some (p_user_id p) ->
  ForumPage.canEditPost st post = true ->
  exists st' w',
    click (DoDeletePost (ForumPage.fp_id post) true)
          (Some (mkActor (ForumPage.cur_id u) (ForumPage.cur_role u)))
          now reply st w =
    Some ((st',
           [ForumPageCalls.Sent
              (ForumPageCalls.CallDeletePost (ForumPage.IdNum n));
            ForumPageCalls.Sent ForumPageCalls.CallListPosts]),
          w') /\
    find_post (db w') n = None /\
    (forall c, In c (comments (db w')) -> c_post_id c <> n) /\
    ForumPage.posts st' =
      match reply with
      | Some data => data
      | None => ForumPage.posts st
      end.
Proof.
  intros Hu Hid Hp Hown Hshown.
  assert (Ha : owner_or_admin
                 (mkActor (ForumPage.cur_id u) (ForumPage.cur_role u))
                 (p_user_id p) = true).
  { unfold ForumPage.canEditPost in Hshown. rewrite Hu, Hown in Hshown.
    exact Hshown. }
  unfold click, perform, ForumPageCalls.handleDeletePost,
    ForumPageCalls.refetch.
  rewrite fetchPosts_state, Hid. simpl.
  unfold PostsId.DELETE, requireAuth. simpl.
  rewrite (posts_DELETE_existing _ _ (mkContext n) w p Hp), Ha. simpl.
  do 2 eexists. split; [reflexivity|]. simpl. split; [|split].
  - unfold find_post; simpl.
    apply (find_none_of_filter_negb (fun q => p_id q =? n)).
  - intros c Hc. apply filter_In in Hc as [_ Hc].
    apply negb_true_iff in Hc. now apply Z.eqb_neq.
  - now destruct reply.
Qed.

Lemma shown_delete_button_works_witness :
  exists st' w',
    click (DoDeletePost (ForumPage.IdNum 11) true) (Some Sample.binh) 1000
          (Some [SamplePage.rain]) SamplePage.state Sample.world =
    Some ((st',
           [ForumPageCalls.Sent
              (ForumPageCalls.CallDeletePost (ForumPage.IdNum 11));
            ForumPageCalls.Sent ForumPageCalls.CallListPosts]),
          w') /\
    find_post (db w') 11 = None /\
    (forall c, In c (comments (db w')) -> c_post_id c <> 11) /\
    ForumPage.posts st' = [SamplePage.rain].
Proof.
  exact (shown_delete_button_works SamplePage.state
           (ForumPage.mkCurrentUser 2 "user") SamplePage.haze 11 1000
           (Some [SamplePage.rain]) Sample.world
           (mkPost 11 2 "Haze" "PM2.5 is high" 300 None)
           eq_refl eq_refl eq_refl eq_refl eq_refl).
Defined.
